(** * The IES update core of ERT (ies_enkf.cpp): a shallow embedding.

    Doubles are idealised as real numbers, except in the module [Double],
    which writes the steps whose rounding matters over binary64 values.  The
    dense matrix kernel of res_util is modelled from the specification
    (section 4.A); the
    LAPACK-backed factorisations and the mutators of ies_data are taken as
    parameters, bundled in the classes [LinalgKernel] and [DataStore]. *)

From Stdlib Require Import Reals Lra Lia List String Ascii ZArith Bool Arith PeanoNat.
From Stdlib Require SpecFloat.
Import ListNotations.

Local Open Scope R_scope.

(** ** Finite sums of reals, [Rsum n f] = f 0 + ... + f (n-1). *)

Fixpoint Rsum (n : nat) (f : nat -> R) : R :=
  match n with
  | O => 0
  | S k => Rsum k f + f k
  end.

(** The entries of the identity matrix. *)
Definition delta (i j : nat) : R := if (i =? j)%nat then 1 else 0.

(** ** Boolean vectors (util/bool_vector). *)

Module BoolVector.

Definition bool_vector_type := list bool.

Definition bool_vector_size (v : bool_vector_type) : nat := List.length v.

Definition bool_vector_iget (v : bool_vector_type) (i : nat) : bool :=
  nth i v false.

Definition bool_vector_count_equal (v : bool_vector_type) (b : bool) : nat :=
  List.length (filter (Bool.eqb b) v).

Definition bool_vector_alloc (n : nat) (b : bool) : bool_vector_type :=
  repeat b n.

End BoolVector.
Export BoolVector.

(** ** Dense matrices (res_util/matrix). *)

Module Matrix.

(** Modelled from the spec: the dense matrix type of res_util/matrix.cpp,
    "a rectangular grid of doubles with row/column counts explicitly
    stored".  The grid is a total map from index pairs; only the entries
    below [rows] and [columns] are meaningful.  The shape assertions of the
    kernel (which abort the process) are outside the model: the theorems
    state the shapes they rely on. *)
Record matrix_type : Type := mk_matrix {
  rows : nat;
  columns : nat;
  elems : nat -> nat -> R
}.

Definition matrix_get_rows (m : matrix_type) : nat := rows m.
Definition matrix_get_columns (m : matrix_type) : nat := columns m.

(** Modelled from the spec: [matrix_alloc], a zero-filled matrix. *)
Definition matrix_alloc (r c : nat) : matrix_type :=
  mk_matrix r c (fun _ _ => 0).

Definition matrix_alloc_copy (m : matrix_type) : matrix_type := m.

Definition matrix_iget (m : matrix_type) (i j : nat) : R := elems m i j.

Definition matrix_iset (m : matrix_type) (i j : nat) (v : R) : matrix_type :=
  mk_matrix (rows m) (columns m)
    (fun a b => if (a =? i)%nat && (b =? j)%nat then v else elems m a b).

(** Modelled from the spec: [matrix_iset_safe], the "safe" set of section 9,
    which "silently no-ops out-of-range writes". *)
Definition matrix_iset_safe (m : matrix_type) (i j : nat) (v : R) : matrix_type :=
  if (i <? rows m)%nat && (j <? columns m)%nat then matrix_iset m i j v else m.

(** Modelled from the spec: [iadd(M, i, j, s)]. *)
Definition matrix_iadd (m : matrix_type) (i j : nat) (v : R) : matrix_type :=
  matrix_iset m i j (matrix_iget m i j + v).

Definition matrix_set (m : matrix_type) (v : R) : matrix_type :=
  mk_matrix (rows m) (columns m) (fun _ _ => v).

(** Modelled from the spec: [diag_set_scalar(M, s)], s on the diagonal and
    zero elsewhere. *)
Definition matrix_diag_set_scalar (m : matrix_type) (v : R) : matrix_type :=
  mk_matrix (rows m) (columns m) (fun a b => if (a =? b)%nat then v else 0).

(** Modelled from the spec: [scale(M, s)] and [scale_row(M, i, s)]. *)
Definition matrix_scale (m : matrix_type) (s : R) : matrix_type :=
  mk_matrix (rows m) (columns m) (fun a b => elems m a b * s).

Definition matrix_scale_row (m : matrix_type) (i : nat) (s : R) : matrix_type :=
  mk_matrix (rows m) (columns m)
    (fun a b => if (a =? i)%nat then elems m a b * s else elems m a b).

(** [matrix_assign(A, B)]: A receives the entries of B (same shape). *)
Definition matrix_assign (A B : matrix_type) : matrix_type :=
  mk_matrix (rows A) (columns A) (elems B).

(** Modelled from the spec: [subtract_row_mean(M)], "subtract the
    column-vector of row means from every column". *)
Definition matrix_subtract_row_mean (m : matrix_type) : matrix_type :=
  mk_matrix (rows m) (columns m)
    (fun a b => elems m a b - Rsum (columns m) (fun k => elems m a k) / INR (columns m)).

Definition matrix_alloc_transpose (m : matrix_type) : matrix_type :=
  mk_matrix (columns m) (rows m) (fun a b => elems m b a).

Definition matrix_inplace_transpose (m : matrix_type) : matrix_type :=
  matrix_alloc_transpose m.

(** [matrix_transpose(A, T)]: T receives the transpose of A. *)
Definition matrix_transpose (A T : matrix_type) : matrix_type :=
  mk_matrix (rows T) (columns T) (fun a b => elems A b a).

Definition op (trans : bool) (m : matrix_type) (i j : nat) : R :=
  if trans then elems m j i else elems m i j.

Definition inner_dim (trans : bool) (m : matrix_type) : nat :=
  if trans then rows m else columns m.

(** Modelled from the spec: [matmul(C, A, B, transA, transB, alpha, beta)]
    computing C <- alpha * opA * opB + beta * C. *)
Definition matrix_dgemm (C A B : matrix_type) (transA transB : bool)
    (alpha beta : R) : matrix_type :=
  mk_matrix (rows C) (columns C)
    (fun i j =>
       alpha * Rsum (inner_dim transA A) (fun k => op transA A i k * op transB B k j)
       + beta * elems C i j).

(** [matrix_matmul(C, A, B)]: C <- A * B. *)
Definition matrix_matmul (C A B : matrix_type) : matrix_type :=
  mk_matrix (rows C) (columns C)
    (fun i j => Rsum (columns A) (fun k => elems A i k * elems B k j)).

Definition matrix_alloc_matmul (A B : matrix_type) : matrix_type :=
  matrix_matmul (matrix_alloc (rows A) (columns B)) A B.

(** [matrix_inplace_matmul(A, B)]: A <- A * B. *)
Definition matrix_inplace_matmul (A B : matrix_type) : matrix_type :=
  mk_matrix (rows A) (columns B)
    (fun i j => Rsum (columns A) (fun k => elems A i k * elems B k j)).

(** [matrix_sub(C, A, B)]: C <- A - B. *)
Definition matrix_sub (C A B : matrix_type) : matrix_type :=
  mk_matrix (rows C) (columns C) (fun i j => elems A i j - elems B i j).

Definition matrix_inplace_sub (A B : matrix_type) : matrix_type :=
  mk_matrix (rows A) (columns A) (fun i j => elems A i j - elems B i j).

Definition matrix_inplace_add (A B : matrix_type) : matrix_type :=
  mk_matrix (rows A) (columns A) (fun i j => elems A i j + elems B i j).

Definition matrix_column_column_dot_product (m1 : matrix_type) (c1 : nat)
    (m2 : matrix_type) (c2 : nat) : R :=
  Rsum (rows m1) (fun r => elems m1 r c1 * elems m2 r c2).

(** An out-parameter keeps the shape it was allocated with; an external
    routine only fills its entries. *)
Definition matrix_fill (m : matrix_type) (f : nat -> nat -> R) : matrix_type :=
  mk_matrix (rows m) (columns m) f.

End Matrix.
Export Matrix.

(** ** Mask and active-slice algebra (ies_enkf.cpp, alloc_active). *)

(** The inner loop of [alloc_active]: one row of the full matrix is copied
    into row [row] of [active], [column] counting the active columns. *)
Definition alloc_active_row (full_matrix : matrix_type)
    (column_mask : bool_vector_type) (columns : nat) (iobs row : nat)
    (active : matrix_type) : matrix_type * nat :=
  fold_left
    (fun (st : matrix_type * nat) (iens : nat) =>
       let '(active, column) := st in
       if bool_vector_iget column_mask iens
       then (matrix_iset active row column (matrix_iget full_matrix iobs iens),
             S column)
       else (active, column))
    (seq 0 columns) (active, 0%nat).

(** The outer loop of [alloc_active], [row] counting the active rows. *)
Definition alloc_active_rows (full_matrix : matrix_type)
    (row_mask column_mask : bool_vector_type) (rows columns : nat)
    (active : matrix_type) : matrix_type * nat :=
  fold_left
    (fun (st : matrix_type * nat) (iobs : nat) =>
       let '(active, row) := st in
       if bool_vector_iget row_mask iobs
       then (fst (alloc_active_row full_matrix column_mask columns iobs row active),
             S row)
       else (active, row))
    (seq 0 rows) (active, 0%nat).

Definition alloc_active (full_matrix : matrix_type)
    (row_mask column_mask : bool_vector_type) : matrix_type :=
  let rows := bool_vector_size row_mask in
  let columns := bool_vector_size column_mask in
  let active := matrix_alloc (bool_vector_count_equal row_mask true)
                             (bool_vector_count_equal column_mask true) in
  fst (alloc_active_rows full_matrix row_mask column_mask rows columns active).

(** ** Configuration (ies_config). *)

Module Config.

(** IES_INVERSION_EXACT(0), IES_INVERSION_SUBSPACE_EXACT_R(1),
    IES_INVERSION_SUBSPACE_EE_R(2), IES_INVERSION_SUBSPACE_RE(3): the
    inversion routines receive the tag as a plain int. *)
Definition inversion_type := Z.
Definition IES_INVERSION_EXACT : inversion_type := 0%Z.
Definition IES_INVERSION_SUBSPACE_EXACT_R : inversion_type := 1%Z.
Definition IES_INVERSION_SUBSPACE_EE_R : inversion_type := 2%Z.
Definition IES_INVERSION_SUBSPACE_RE : inversion_type := 3%Z.

(** std::variant<double, int>: the truncation fraction or the subspace
    dimension. *)
Inductive truncation_type : Type :=
| TruncationFraction (f : R)
| SubspaceDimension (k : Z).

(** Modelled from the spec: the configuration object of ies_config.cpp
    (section 3, Config), with one getter and one setter per field. *)
Record config_type : Type := mk_config {
  truncation : truncation_type;
  inversion : inversion_type;
  max_steplength : R;
  min_steplength : R;
  dec_steplength : R;
  aaprojection : bool;
  logfile : option string;
  option_flags : Z
}.

Definition get_truncation (c : config_type) := truncation c.
Definition get_inversion (c : config_type) := inversion c.
Definition get_max_steplength (c : config_type) := max_steplength c.
Definition get_min_steplength (c : config_type) := min_steplength c.
Definition get_dec_steplength (c : config_type) := dec_steplength c.
Definition get_aaprojection (c : config_type) := aaprojection c.
Definition get_logfile (c : config_type) := logfile c.
Definition get_option_flags (c : config_type) := option_flags c.

(** Modelled from the spec: "Setting ENKF_TRUNCATION and
    ENKF_SUBSPACE_DIMENSION replaces whichever is currently set (tagged
    value)". *)
Definition set_truncation (c : config_type) (f : R) : config_type :=
  mk_config (TruncationFraction f) (inversion c) (max_steplength c)
    (min_steplength c) (dec_steplength c) (aaprojection c) (logfile c)
    (option_flags c).

Definition set_subspace_dimension (c : config_type) (k : Z) : config_type :=
  mk_config (SubspaceDimension k) (inversion c) (max_steplength c)
    (min_steplength c) (dec_steplength c) (aaprojection c) (logfile c)
    (option_flags c).

Definition set_inversion (c : config_type) (v : inversion_type) : config_type :=
  mk_config (truncation c) v (max_steplength c) (min_steplength c)
    (dec_steplength c) (aaprojection c) (logfile c) (option_flags c).

Definition set_max_steplength (c : config_type) (v : R) : config_type :=
  mk_config (truncation c) (inversion c) v (min_steplength c)
    (dec_steplength c) (aaprojection c) (logfile c) (option_flags c).

Definition set_min_steplength (c : config_type) (v : R) : config_type :=
  mk_config (truncation c) (inversion c) (max_steplength c) v
    (dec_steplength c) (aaprojection c) (logfile c) (option_flags c).

Definition set_dec_steplength (c : config_type) (v : R) : config_type :=
  mk_config (truncation c) (inversion c) (max_steplength c)
    (min_steplength c) v (aaprojection c) (logfile c) (option_flags c).

Definition set_aaprojection (c : config_type) (v : bool) : config_type :=
  mk_config (truncation c) (inversion c) (max_steplength c)
    (min_steplength c) (dec_steplength c) v (logfile c) (option_flags c).

Definition set_logfile (c : config_type) (v : string) : config_type :=
  mk_config (truncation c) (inversion c) (max_steplength c)
    (min_steplength c) (dec_steplength c) (aaprojection c) (Some v)
    (option_flags c).

(** Modelled from the spec: calculate_steplength of ies_config.cpp,
    gamma = gamma_min + (gamma_max - gamma_min) * pow(2, -(iter - 1) / (decay - 1)). *)
Definition calculate_steplength (c : config_type) (iteration_nr : Z) : R :=
  get_min_steplength c
  + (get_max_steplength c - get_min_steplength c)
    * Rpower 2 (- (IZR iteration_nr - 1) / (get_dec_steplength c - 1)).

End Config.
Export Config.

(** ** Iteration state (ies_data). *)

Module Data.

(** Modelled from the spec: the iteration state of ies_data.cpp (section 3,
    Iteration state) and its accessors. *)
Record data_type : Type := mk_data {
  config : config_type;
  W : matrix_type;
  E : matrix_type;
  A0 : matrix_type;
  ens_mask : bool_vector_type;
  obs_mask : bool_vector_type;
  obs_mask0 : bool_vector_type;
  iteration_nr : Z;
  state_size : nat
}.

Definition data_get_config (d : data_type) := config d.
Definition data_getW (d : data_type) := W d.
Definition data_getE (d : data_type) := E d.
Definition data_getA0 (d : data_type) := A0 d.
Definition data_get_ens_mask (d : data_type) := ens_mask d.
Definition data_get_obs_mask (d : data_type) := obs_mask d.
Definition data_get_ens_mask_size (d : data_type) : nat :=
  bool_vector_size (ens_mask d).
Definition data_get_iteration_nr (d : data_type) := iteration_nr d.

Definition data_set_config (d : data_type) (c : config_type) : data_type :=
  mk_data c (W d) (E d) (A0 d) (ens_mask d) (obs_mask d) (obs_mask0 d)
    (iteration_nr d) (state_size d).

(** The matrix behind the pointer returned by data_getW is written in place. *)
Definition data_setW (d : data_type) (w : matrix_type) : data_type :=
  mk_data (config d) w (E d) (A0 d) (ens_mask d) (obs_mask d) (obs_mask0 d)
    (iteration_nr d) (state_size d).

Definition data_set_iteration_nr (d : data_type) (k : Z) : data_type :=
  mk_data (config d) (W d) (E d) (A0 d) (ens_mask d) (obs_mask d)
    (obs_mask0 d) k (state_size d).

(** Modelled from the spec: inc_iteration_nr, "pre-increment from zero;
    first returned value is 1". *)
Definition data_inc_iteration_nr (d : data_type) : data_type * Z :=
  (data_set_iteration_nr d (iteration_nr d + 1), (iteration_nr d + 1)%Z).

Definition data_update_state_size (d : data_type) (n : nat) : data_type :=
  mk_data (config d) (W d) (E d) (A0 d) (ens_mask d) (obs_mask d)
    (obs_mask0 d) (iteration_nr d) n.

(** The mutators of ies_data.cpp that store or reshape matrices and masks
    are parameters: no property below depends on what they do. *)
Class DataStore : Type := {
  data_alloc : data_type;
  data_free : data_type -> unit;
  data_update_ens_mask : data_type -> bool_vector_type -> data_type;
  data_allocateW : data_type -> data_type;
  store_initial_obs_mask : data_type -> bool_vector_type -> data_type;
  update_obs_mask : data_type -> bool_vector_type -> data_type;
  data_store_initialE : data_type -> matrix_type -> data_type;
  data_augment_initialE : data_type -> matrix_type -> data_type;
  data_store_initialA : data_type -> matrix_type -> data_type
}.

End Data.
Export Data.

(** ** The linear-algebra routines backed by LAPACK (matrix_lapack,
    enkf_linalg). *)

Module Linalg.

Inductive dgesvd_vector_enum : Type :=
| DGESVD_ALL
| DGESVD_MIN_RETURN
| DGESVD_NONE.

(** What matrix_dgesvd writes: the singular values and the entries of U
    and VT (those asked for). *)
Record svd_out : Type := mk_svd {
  svd_S : nat -> R;
  svd_U : nat -> nat -> R;
  svd_VT : nat -> nat -> R
}.

(** What the low-rank routines write: the entries of X1 and the vector eig. *)
Record lowrank_out : Type := mk_lowrank {
  lr_X1 : nat -> nat -> R;
  lr_eig : nat -> R
}.

(** The factorisations are parameters: their results are constrained only
    through the contracts stated where a property needs them. *)
Class LinalgKernel : Type := {
  matrix_dgesvd :
    dgesvd_vector_enum -> dgesvd_vector_enum -> matrix_type -> svd_out;
  (** matrix_dgesvx(A, B): the entries of the solution of A * X = B, left
      in B *)
  matrix_dgesvx : matrix_type -> matrix_type -> nat -> nat -> R;
  enkf_linalg_lowrankE :
    matrix_type -> matrix_type -> truncation_type -> lowrank_out;
  enkf_linalg_lowrankCinv :
    matrix_type -> matrix_type -> truncation_type -> lowrank_out
}.

(** Modelled from the spec: genX3(X3, X1, H, eig),
    X3 <- X1 * diag(eig) * X1^T * H. *)
Definition enkf_linalg_genX3 (X3 X1 H : matrix_type) (eig : nat -> R) : matrix_type :=
  matrix_fill X3
    (fun i j =>
       Rsum (columns X1)
         (fun k => elems X1 i k * eig k
                   * Rsum (rows X1) (fun l => elems X1 l k * elems H l j))).

Definition vec_set (v : nat -> R) (i : nat) (x : R) : nat -> R :=
  fun k => if (k =? i)%nat then x else v k.

End Linalg.
Export Linalg.

(** ** The logger. *)

Module Logger.

Inductive log_level : Type := INFO | WARNING.

Inductive fmt_arg : Type :=
| ArgInt (z : Z)
| ArgDouble (x : R)
| ArgString (s : string).

(** A call logger->info(fmt, args...) hands one record to the sink. *)
Record log_record : Type := mk_record {
  level : log_level;
  fmt : string;
  args : list fmt_arg
}.

Definition log_sink := list log_record.

Definition logger_info (l : log_sink) (f : string) (a : list fmt_arg) : log_sink :=
  l ++ [mk_record INFO f a].

Definition logger_warning (l : log_sink) (f : string) (a : list fmt_arg) : log_sink :=
  l ++ [mk_record WARNING f a].

(** The digits of a non-negative number in base ten, most significant
    first; [fuel] bounds the number of digits. *)
Fixpoint digits (fuel : nat) (n : N) (acc : string) : string :=
  match fuel with
  | O => acc
  | S fuel' =>
      let d := String (ascii_of_N (48 + N.modulo n 10)) acc in
      if (n <? 10)%N then d else digits fuel' (N.div n 10) d
  end.

Definition show_int (z : Z) : string :=
  match z with
  | Z0 => "0"
  | Zpos p => digits (S (N.to_nat (N.log2 (Npos p)))) (Npos p) EmptyString
  | Zneg p => String "-" (digits (S (N.to_nat (N.log2 (Npos p)))) (Npos p) EmptyString)
  end.

(** How a double is printed is the formatter's business. *)
Definition show_arg (show_double : R -> string) (a : fmt_arg) : string :=
  match a with
  | ArgInt z => show_int z
  | ArgDouble x => show_double x
  | ArgString s => s
  end.

(** Replacement of the successive "{}" fields of a format string. *)
Fixpoint format (show_double : R -> string) (f : string) (a : list fmt_arg) : string :=
  match f with
  | EmptyString => EmptyString
  | String "{" (String "}" rest) =>
      match a with
      | x :: a' => (show_arg show_double x ++ format show_double rest a')%string
      | [] => format show_double rest []
      end
  | String c rest => String c (format show_double rest a)
  end.

Definition render (show_double : R -> string) (r : log_record) : string :=
  format show_double (fmt r) (args r).

Definition newline : ascii := "010"%char.

(** Modelled from the spec: the logger behind ert::get_logger is not under
    src/; the spec gives what it writes as "newline-terminated text
    records".  Each record is written as its text followed by one line
    feed, in the order of the calls. *)
Definition write_record (show_double : R -> string) (r : log_record) : string :=
  (render show_double r ++ String newline EmptyString)%string.

Fixpoint written (show_double : R -> string) (l : log_sink) : string :=
  match l with
  | [] => EmptyString
  | r :: l' => (write_record show_double r ++ written show_double l')%string
  end.

(** The number of line ends of a text. *)
Fixpoint count_newlines (s : string) : nat :=
  match s with
  | EmptyString => O
  | String c s' => ((if Ascii.eqb c newline then 1 else 0) + count_newlines s')%nat
  end.

End Logger.
Export Logger.

(** ** The update (ies_enkf.cpp). *)

Definition ENKF_SUBSPACE_DIMENSION_KEY : string := "ENKF_SUBSPACE_DIMENSION".
Definition ENKF_TRUNCATION_KEY : string := "ENKF_TRUNCATION".
Definition IES_MAX_STEPLENGTH_KEY : string := "IES_MAX_STEPLENGTH".
Definition IES_MIN_STEPLENGTH_KEY : string := "IES_MIN_STEPLENGTH".
Definition IES_DEC_STEPLENGTH_KEY : string := "IES_DEC_STEPLENGTH".
Definition ITER_KEY : string := "ITER".
Definition IES_DEBUG_KEY : string := "IES_DEBUG".
Definition IES_INVERSION_KEY : string := "IES_INVERSION".
Definition IES_LOGFILE_KEY : string := "IES_LOGFILE".
Definition IES_AAPROJECTION_KEY : string := "IES_AAPROJECTION".

Definition rng_type := unit.

(** Arithmetic on a 32-bit int. *)
Definition wrap_int (z : Z) : Z :=
  ((z + 2147483648) mod 4294967296 - 2147483648)%Z.

Definition alloc_activeE (data : data_type) : matrix_type :=
  alloc_active (data_getE data) (data_get_obs_mask data) (data_get_ens_mask data).

Definition alloc_activeW (data : data_type) : matrix_type :=
  alloc_active (data_getW data) (data_get_ens_mask data) (data_get_ens_mask data).

Definition alloc_activeA (data : data_type) : matrix_type :=
  let A0 := data_getA0 data in
  let state_mask := bool_vector_alloc (matrix_get_rows A0) true in
  alloc_active (data_getA0 data) state_mask (data_get_ens_mask data).

(** The inner loop of [linalg_store_active_W]: row [i] of W0 goes to row
    [iens] of data->W, [j] counting the active columns. *)
Definition store_active_row (ens_mask : bool_vector_type) (ens_size_msk : nat)
    (W0 : matrix_type) (iens i : nat) (dataW : matrix_type) : matrix_type * nat :=
  fold_left
    (fun (st : matrix_type * nat) (jens : nat) =>
       let '(dataW, j) := st in
       if bool_vector_iget ens_mask jens
       then (matrix_iset_safe dataW iens jens (matrix_iget W0 i j), (j + 1)%nat)
       else (dataW, j))
    (seq 0 ens_size_msk) (dataW, 0%nat).

(** The outer loop of [linalg_store_active_W], [i] counting the active
    rows. *)
Definition store_active_rows (ens_mask : bool_vector_type) (ens_size_msk : nat)
    (W0 : matrix_type) (n : nat) (dataW : matrix_type) : matrix_type * nat :=
  fold_left
    (fun (st : matrix_type * nat) (iens : nat) =>
       let '(dataW, i) := st in
       if bool_vector_iget ens_mask iens
       then (fst (store_active_row ens_mask ens_size_msk W0 iens i dataW),
             (i + 1)%nat)
       else (dataW, i))
    (seq 0 n) (dataW, 0%nat).

Definition linalg_store_active_W (data : data_type) (W0 : matrix_type) : data_type :=
  let ens_size_msk := data_get_ens_mask_size data in
  let dataW := data_getW data in
  let ens_mask := data_get_ens_mask data in
  let dataW := matrix_set dataW 0 in
  let dataW :=
    fst (store_active_rows ens_mask ens_size_msk W0 ens_size_msk dataW) in
  data_setW data dataW.

(** The loop "for i < n: matrix_iadd(M, i, i, 1.0)", which adds the
    identity. *)
Definition iadd_diagonal (M : matrix_type) (n : nat) : matrix_type :=
  fold_left (fun M i => matrix_iadd M i i 1) (seq 0 n) M.

(** The loop of [linalg_exact_inversion] that inverts the singular values
    and scales the rows of Z^T S^T H. *)
Definition invert_and_scale_rows (ens_size : nat) (eig : nat -> R)
    (ZtStH : matrix_type) : (nat -> R) * matrix_type :=
  fold_left
    (fun (st : (nat -> R) * matrix_type) (i : nat) =>
       let '(eig, ZtStH) := st in
       let eig := vec_set eig i (1 / eig i) in
       (eig, matrix_scale_row ZtStH i (eig i)))
    (seq 0 ens_size) (eig, ZtStH).

Section Update.

Context {kernel : LinalgKernel} {store : DataStore}.

Definition linalg_compute_AA_projection (A Y : matrix_type) : matrix_type :=
  let ens_size := matrix_get_columns A in
  let state_size := matrix_get_rows A in
  let Ai := matrix_alloc_copy A in
  let AAi := matrix_alloc ens_size ens_size in
  let Ai := matrix_subtract_row_mean Ai in
  let VT := matrix_alloc state_size ens_size in
  let VT := matrix_fill VT (svd_VT (matrix_dgesvd DGESVD_NONE DGESVD_MIN_RETURN Ai)) in
  let AAi := matrix_dgemm AAi VT VT true false 1 0 in
  matrix_inplace_matmul Y AAi.

Definition linalg_solve_S (W0 Y Sm : matrix_type) : matrix_type :=
  let ens_size := matrix_get_columns W0 in
  let nrobs := matrix_get_rows Sm in
  let nsc := 1 / sqrt (INR ens_size - 1) in
  let YT := matrix_alloc ens_size nrobs in
  let ST := matrix_alloc ens_size nrobs in
  let Omega := matrix_alloc ens_size ens_size in
  let Omega := matrix_assign Omega W0 in
  let Omega := matrix_subtract_row_mean Omega in
  let Omega := matrix_scale Omega nsc in
  let Omega := matrix_inplace_transpose Omega in
  let Omega := iadd_diagonal Omega ens_size in
  let YT := matrix_transpose Y YT in
  let YT := matrix_fill YT (matrix_dgesvx Omega YT) in
  matrix_transpose YT Sm.

(** The low-rank routine called by [linalg_subspace_inversion] and the
    matrices handed to it. *)
Inductive lowrank_call : Type :=
| CallLowrankE (Sm scaledE : matrix_type) (t : truncation_type)
| CallLowrankCinv (Sm C : matrix_type) (t : truncation_type)
| NoLowrankCall.

Definition run_lowrank (c : lowrank_call) : lowrank_out :=
  match c with
  | CallLowrankE Sm scaledE t => enkf_linalg_lowrankE Sm scaledE t
  | CallLowrankCinv Sm C t => enkf_linalg_lowrankCinv Sm C t
  | NoLowrankCall => mk_lowrank (fun _ _ => 0) (fun _ => 0)
  end.

Definition subspace_lowrank_call (ies_inversion : Z) (E Rm Sm : matrix_type)
    (truncation : truncation_type) : lowrank_call :=
  let ens_size := matrix_get_columns Sm in
  let nsc := 1 / sqrt (INR ens_size - 1) in
  if (ies_inversion =? IES_INVERSION_SUBSPACE_RE)%Z then
    let scaledE := matrix_alloc_copy E in
    let scaledE := matrix_scale scaledE nsc in
    CallLowrankE Sm scaledE truncation
  else if (ies_inversion =? IES_INVERSION_SUBSPACE_EE_R)%Z then
    let Et := matrix_alloc_transpose E in
    let Cee := matrix_alloc_matmul E Et in
    let Cee :=
      matrix_scale Cee
        (1 / IZR (wrap_int ((Z.of_nat ens_size - 1) * (Z.of_nat ens_size - 1)))) in
    CallLowrankCinv Sm Cee truncation
  else if (ies_inversion =? IES_INVERSION_SUBSPACE_EXACT_R)%Z then
    let scaledR := matrix_alloc_copy Rm in
    let scaledR := matrix_scale scaledR (nsc * nsc) in
    CallLowrankCinv Sm scaledR truncation
  else NoLowrankCall.

Definition linalg_subspace_inversion (W0 : matrix_type) (ies_inversion : Z)
    (E Rm Sm H : matrix_type) (truncation : truncation_type)
    (ies_steplength : R) : matrix_type :=
  let ens_size := matrix_get_columns Sm in
  let nrobs := matrix_get_rows Sm in
  let X1 := matrix_alloc nrobs (Nat.min ens_size nrobs) in
  let out := run_lowrank (subspace_lowrank_call ies_inversion E Rm Sm truncation) in
  let X1 := matrix_fill X1 (lr_X1 out) in
  let eig := lr_eig out in
  let X3 := matrix_alloc nrobs ens_size in
  let X3 := enkf_linalg_genX3 X3 X1 H eig in
  matrix_dgemm W0 Sm X3 true false ies_steplength (1 - ies_steplength).

(** The matrix I + S^T S formed at the head of [linalg_exact_inversion]. *)
Definition exact_StS (Sm : matrix_type) : matrix_type :=
  let ens_size := matrix_get_columns Sm in
  let StS := matrix_alloc ens_size ens_size in
  let StS := matrix_diag_set_scalar StS 1 in
  matrix_dgemm StS Sm Sm true false 1 1.

Definition linalg_exact_inversion (W0 : matrix_type) (ies_inversion : Z)
    (Sm H : matrix_type) (ies_steplength : R) : matrix_type :=
  let ens_size := matrix_get_columns Sm in
  let Zm := matrix_alloc ens_size ens_size in
  let ZtStH := matrix_alloc ens_size ens_size in
  let StH := matrix_alloc ens_size ens_size in
  let StS := exact_StS Sm in
  let svd := matrix_dgesvd DGESVD_ALL DGESVD_NONE StS in
  let eig := svd_S svd in
  let Zm := matrix_fill Zm (svd_U svd) in
  let StH := matrix_dgemm StH Sm H true false 1 0 in
  let ZtStH := matrix_dgemm ZtStH Zm StH true false 1 0 in
  let '(eig, ZtStH) := invert_and_scale_rows ens_size eig ZtStH in
  matrix_dgemm W0 Zm ZtStH false false ies_steplength (1 - ies_steplength).

(** [A] is None for a null pointer; [want_costf] tells whether the costf
    pointer is non-null.  The results are the matrix X, the state and the
    cost function. *)
Definition ies_initX__ (A : option matrix_type) (Y0 Rm E D X : matrix_type)
    (ies_inversion : inversion_type) (truncation : truncation_type)
    (use_aa_projection : bool) (data : data_type) (ies_steplength : R)
    (iteration_nr : Z) (want_costf : bool)
    : matrix_type * data_type * option R :=
  let ens_size := matrix_get_columns Y0 in
  let nrobs_inp := matrix_get_rows Y0 in
  let Y := matrix_alloc_copy Y0 in
  let H := matrix_alloc nrobs_inp ens_size in
  let Sm := matrix_alloc nrobs_inp ens_size in
  let nsc := 1 / sqrt (INR ens_size - 1) in
  let Y := matrix_subtract_row_mean Y in
  let Y := matrix_scale Y nsc in
  let Y :=
    match A with
    | Some A =>
        let state_size := matrix_get_rows A in
        if use_aa_projection
           && (Z.of_nat state_size <=? Z.of_nat ens_size - 1)%Z
        then linalg_compute_AA_projection A Y
        else Y
    | None => Y
    end in
  let W0 := alloc_activeW data in
  let Sm := linalg_solve_S W0 Y Sm in
  let H := matrix_assign H D in
  let H := matrix_dgemm H Sm W0 false false 1 1 in
  let W := matrix_alloc_copy W0 in
  let W0 :=
    if negb (ies_inversion =? IES_INVERSION_EXACT)%Z then
      linalg_subspace_inversion W0 ies_inversion E Rm Sm H truncation ies_steplength
    else if (ies_inversion =? IES_INVERSION_EXACT)%Z then
      linalg_exact_inversion W0 ies_inversion Sm H ies_steplength
    else W0 in
  let data := linalg_store_active_W data W0 in
  let X := matrix_assign X W0 in
  let X := matrix_scale X nsc in
  let X := iadd_diagonal X ens_size in
  let DW := matrix_alloc ens_size ens_size in
  let DW := matrix_sub DW W0 W in
  let costf :=
    if want_costf then
      let local_costf :=
        fold_left
          (fun acc i =>
             acc + (matrix_column_column_dot_product W i W i
                    + matrix_column_column_dot_product D i D i))
          (seq 0 ens_size) 0 in
      Some (local_costf / INR ens_size)
    else None in
  (X, data, costf).

(** The results are the state, the log and the updated ensemble A.
    [ies_config] points into the state: it is read through the state each
    time it is used. *)
Definition updateA (module_data : data_type) (log : log_sink)
    (A Yin Rin dObs Ein Din : matrix_type) (rng : rng_type)
    : data_type * log_sink * matrix_type :=
  let data := module_data in
  let ies_config := data_get_config in
  let ens_size := matrix_get_columns Yin in
  let state_size := matrix_get_rows A in
  let '(data, iteration_nr) := data_inc_iteration_nr data in
  let ies_steplength := calculate_steplength (ies_config data) iteration_nr in
  let data := data_update_state_size data state_size in
  let data := data_store_initialE data Ein in
  let data := data_augment_initialE data Ein in
  let data := data_store_initialA data A in
  let Y := matrix_alloc_copy Yin in
  let Rm := matrix_alloc_copy Rin in
  let E := alloc_activeE data in
  let D := matrix_alloc_copy Din in
  let X := matrix_alloc ens_size ens_size in
  let D := matrix_inplace_sub D Ein in
  let D := matrix_inplace_add D E in
  let '(X, data, costf) :=
    ies_initX__ (if get_aaprojection (ies_config data) then Some A else None)
      Y Rm E D X (get_inversion (ies_config data))
      (get_truncation (ies_config data))
      (get_aaprojection (ies_config data)) data ies_steplength iteration_nr
      true in
  let log :=
    logger_info log "IES  iter:{} cost function: {}"
      [ArgInt iteration_nr;
       ArgDouble (match costf with Some c => c | None => 0 end)] in
  let A0 := alloc_activeA data in
  let A := matrix_matmul A A0 X in
  (data, log, A).

(** The state on which updateA calls ies_initX__. *)
Definition updateA_state (data : data_type) (A Ein : matrix_type) : data_type :=
  data_store_initialA
    (data_augment_initialE
       (data_store_initialE
          (data_update_state_size (fst (data_inc_iteration_nr data))
             (matrix_get_rows A))
          Ein)
       Ein)
    A.

(** The cost function value computed by the ies_initX__ call of updateA. *)
Definition updateA_costf (data : data_type) (A Yin Rin Ein Din : matrix_type) : R :=
  let d := updateA_state data A Ein in
  let cfg := data_get_config d in
  let E := alloc_activeE d in
  let D := matrix_inplace_add (matrix_inplace_sub Din Ein) E in
  match
    snd (ies_initX__ (if get_aaprojection cfg then Some A else None) Yin Rin
           E D (matrix_alloc (matrix_get_columns Yin) (matrix_get_columns Yin))
           (get_inversion cfg) (get_truncation cfg) (get_aaprojection cfg) d
           (calculate_steplength
              (data_get_config (fst (data_inc_iteration_nr data)))
              (snd (data_inc_iteration_nr data)))
           (snd (data_inc_iteration_nr data)) true)
  with
  | Some c => c
  | None => 0
  end.

Definition init_update (arg : data_type) (ens_mask obs_mask : bool_vector_type)
    (Sm Rm dObs E D : matrix_type) (rng : rng_type) : data_type :=
  let module_data := arg in
  let module_data := data_update_ens_mask module_data ens_mask in
  let module_data := data_allocateW module_data in
  let module_data := store_initial_obs_mask module_data obs_mask in
  update_obs_mask module_data obs_mask.

(** The stateless variant: the result is the matrix X. *)
Definition initX (ies_config : config_type) (Y0 Rm E D X : matrix_type)
    : matrix_type :=
  let data := data_alloc in
  let ens_size := matrix_get_columns Y0 in
  let obs_size := matrix_get_rows Y0 in
  let ens_mask := bool_vector_alloc ens_size true in
  let obs_mask := bool_vector_alloc obs_size true in
  let data := update_obs_mask data obs_mask in
  let data := data_update_ens_mask data ens_mask in
  let data := data_allocateW data in
  let use_aa_projection := false in
  let steplength := 1 in
  let iteration_nr := 1%Z in
  let '(X, data, _) :=
    ies_initX__ None Y0 Rm E D X (get_inversion ies_config)
      (get_truncation ies_config) use_aa_projection data steplength
      iteration_nr false in
  let _ := data_free data in
  X.

End Update.

(** ** The key/value interface of the module. *)

Definition set_int (arg : data_type) (var_name : string) (value : Z)
    : bool * data_type :=
  let module_data := arg in
  let config := data_get_config module_data in
  if String.eqb var_name ENKF_SUBSPACE_DIMENSION_KEY then
    (true, data_set_config module_data (set_subspace_dimension config value))
  else if String.eqb var_name ITER_KEY then
    (true, data_set_iteration_nr module_data value)
  else if String.eqb var_name IES_INVERSION_KEY then
    (true, data_set_config module_data (set_inversion config value))
  else (false, module_data).

Definition get_int (arg : data_type) (var_name : string) : Z :=
  let module_data := arg in
  let ies_config := data_get_config module_data in
  if String.eqb var_name ITER_KEY then data_get_iteration_nr module_data
  else if String.eqb var_name ENKF_SUBSPACE_DIMENSION_KEY then
    match get_truncation ies_config with
    | SubspaceDimension k => k
    | TruncationFraction _ => (-1)%Z
    end
  else if String.eqb var_name IES_INVERSION_KEY then get_inversion ies_config
  else (-1)%Z.

Definition set_string (arg : data_type) (var_name : string) (value : string)
    : bool * data_type :=
  let module_data := arg in
  let ies_config := data_get_config module_data in
  if String.eqb var_name IES_LOGFILE_KEY then
    (true, data_set_config module_data (set_logfile ies_config value))
  else (false, module_data).

Definition set_bool (arg : data_type) (log : log_sink) (var_name : string)
    (value : bool) : bool * data_type * log_sink :=
  let module_data := arg in
  let ies_config := data_get_config module_data in
  if String.eqb var_name IES_AAPROJECTION_KEY then
    (true, data_set_config module_data (set_aaprojection ies_config value), log)
  else if String.eqb var_name IES_DEBUG_KEY then
    (true, module_data,
     logger_warning log "The key {} is ignored" [ArgString IES_DEBUG_KEY])
  else (false, module_data, log).

Definition get_bool (arg : data_type) (var_name : string) : bool :=
  let module_data := arg in
  let ies_config := data_get_config module_data in
  if String.eqb var_name IES_AAPROJECTION_KEY then get_aaprojection ies_config
  else false.

Definition set_double (arg : data_type) (var_name : string) (value : R)
    : bool * data_type :=
  let module_data := arg in
  let ies_config := data_get_config module_data in
  if String.eqb var_name ENKF_TRUNCATION_KEY then
    (true, data_set_config module_data (set_truncation ies_config value))
  else if String.eqb var_name IES_MAX_STEPLENGTH_KEY then
    (true, data_set_config module_data (set_max_steplength ies_config value))
  else if String.eqb var_name IES_MIN_STEPLENGTH_KEY then
    (true, data_set_config module_data (set_min_steplength ies_config value))
  else if String.eqb var_name IES_DEC_STEPLENGTH_KEY then
    (true, data_set_config module_data (set_dec_steplength ies_config value))
  else (false, module_data).

Definition get_double (arg : data_type) (var_name : string) : R :=
  let module_data := arg in
  let ies_config := data_get_config module_data in
  if String.eqb var_name ENKF_TRUNCATION_KEY then
    match get_truncation ies_config with
    | TruncationFraction f => f
    | SubspaceDimension _ => -1
    end
  else if String.eqb var_name IES_MAX_STEPLENGTH_KEY then
    get_max_steplength ies_config
  else if String.eqb var_name IES_MIN_STEPLENGTH_KEY then
    get_min_steplength ies_config
  else if String.eqb var_name IES_DEC_STEPLENGTH_KEY then
    get_dec_steplength ies_config
  else -1.

Definition get_options (arg : data_type) (flag : Z) : Z :=
  let module_data := arg in
  let ies_config := data_get_config module_data in
  get_option_flags ies_config.

Definition has_var (arg : data_type) (var_name : string) : bool :=
  if String.eqb var_name ITER_KEY then true
  else if String.eqb var_name IES_MAX_STEPLENGTH_KEY then true
  else if String.eqb var_name IES_MIN_STEPLENGTH_KEY then true
  else if String.eqb var_name IES_DEC_STEPLENGTH_KEY then true
  else if String.eqb var_name IES_INVERSION_KEY then true
  else if String.eqb var_name IES_LOGFILE_KEY then true
  else if String.eqb var_name IES_DEBUG_KEY then true
  else if String.eqb var_name IES_AAPROJECTION_KEY then true
  else if String.eqb var_name ENKF_TRUNCATION_KEY then true
  else if String.eqb var_name ENKF_SUBSPACE_DIMENSION_KEY then true
  else false.

(** The only pointer handed out is the log file name. *)
Definition get_ptr (arg : data_type) (var_name : string) : option string :=
  let module_data := arg in
  let ies_config := data_get_config module_data in
  if String.eqb var_name IES_LOGFILE_KEY then get_logfile ies_config
  else None.

(** ** The dispatch table. *)

Module AnalysisTable.

(** analysis_table_type: a name and one nullable function pointer per
    operation; None is NULL.  The slots are typed after the functions the
    module stores in them. *)
Record analysis_table_type : Type := mk_table {
  name : string;
  updateA :
    option (data_type -> log_sink -> matrix_type -> matrix_type -> matrix_type
            -> matrix_type -> matrix_type -> matrix_type -> rng_type
            -> data_type * log_sink * matrix_type);
  initX :
    option (config_type -> matrix_type -> matrix_type -> matrix_type
            -> matrix_type -> matrix_type -> matrix_type);
  init_update :
    option (data_type -> bool_vector_type -> bool_vector_type -> matrix_type
            -> matrix_type -> matrix_type -> matrix_type -> matrix_type
            -> rng_type -> data_type);
  complete_update : option (data_type -> data_type);
  freef : option (data_type -> unit);
  alloc : option data_type;
  set_int : option (data_type -> string -> Z -> bool * data_type);
  set_double : option (data_type -> string -> R -> bool * data_type);
  set_bool :
    option (data_type -> log_sink -> string -> bool
            -> bool * data_type * log_sink);
  set_string : option (data_type -> string -> string -> bool * data_type);
  get_options : option (data_type -> Z -> Z);
  has_var : option (data_type -> string -> bool);
  get_int : option (data_type -> string -> Z);
  get_double : option (data_type -> string -> R);
  get_bool : option (data_type -> string -> bool);
  get_ptr : option (data_type -> string -> option string)
}.

End AnalysisTable.

Definition IES_ENKF {kernel : LinalgKernel} {store : DataStore}
    : AnalysisTable.analysis_table_type :=
  {| AnalysisTable.name := "IES_ENKF";
     AnalysisTable.updateA := Some updateA;
     AnalysisTable.initX := None;
     AnalysisTable.init_update := Some init_update;
     AnalysisTable.complete_update := None;
     AnalysisTable.freef := Some data_free;
     AnalysisTable.alloc := Some data_alloc;
     AnalysisTable.set_int := Some set_int;
     AnalysisTable.set_double := Some set_double;
     AnalysisTable.set_bool := Some set_bool;
     AnalysisTable.set_string := Some set_string;
     AnalysisTable.get_options := Some get_options;
     AnalysisTable.has_var := Some has_var;
     AnalysisTable.get_int := Some get_int;
     AnalysisTable.get_double := Some get_double;
     AnalysisTable.get_bool := Some get_bool;
     AnalysisTable.get_ptr := Some get_ptr |}.

(** ** Measurement blocks (meas_data.cpp). *)

Module MeasData.

(** Arrays: reading and writing by index.  A write past the end changes
    nothing; the properties below only write within bounds. *)
Fixpoint vset {A : Type} (l : list A) (i : nat) (v : A) : list A :=
  match l, i with
  | [], _ => []
  | _ :: t, O => v :: t
  | h :: t, S k => h :: vset t k v
  end.

Record meas_block_type : Type := mk_block {
  active_ens_size : nat;
  obs_size : nat;
  ens_stride : nat;
  obs_stride : nat;
  data_size : nat;
  obs_key : string;
  data : list R;
  active : list bool;
  stat_calculated : bool;
  ens_mask : list bool;
  index_map : list Z
}.

Definition bool_vector_to_active_index_list (bool_vector : list bool) : list Z :=
  let index_list := repeat (-1)%Z (List.length bool_vector) in
  fst (fold_left
         (fun (st : list Z * Z) (i : nat) =>
            let '(index_list, active_index) := st in
            if nth i bool_vector false
            then (vset index_list i active_index, (active_index + 1)%Z)
            else (index_list, active_index))
         (seq 0 (List.length bool_vector)) (index_list, 0%Z)).

Definition meas_block_alloc (obs_key : string) (ens_mask : list bool)
    (obs_size : nat) : meas_block_type :=
  let active_ens_size := bool_vector_count_equal ens_mask true in
  mk_block active_ens_size obs_size 1 (active_ens_size + 2)
    ((active_ens_size + 2) * obs_size) obs_key
    (repeat 0 ((active_ens_size + 2) * obs_size))
    (repeat false obs_size) false ens_mask
    (bool_vector_to_active_index_list ens_mask).

Definition set_data (b : meas_block_type) (d : list R) : meas_block_type :=
  mk_block (active_ens_size b) (obs_size b) (ens_stride b) (obs_stride b)
    (data_size b) (obs_key b) d (active b) (stat_calculated b) (ens_mask b)
    (index_map b).

Definition set_active (b : meas_block_type) (a : list bool) : meas_block_type :=
  mk_block (active_ens_size b) (obs_size b) (ens_stride b) (obs_stride b)
    (data_size b) (obs_key b) (data b) a (stat_calculated b) (ens_mask b)
    (index_map b).

Definition set_stat_calculated (b : meas_block_type) (v : bool) : meas_block_type :=
  mk_block (active_ens_size b) (obs_size b) (ens_stride b) (obs_stride b)
    (data_size b) (obs_key b) (data b) (active b) v (ens_mask b)
    (index_map b).

(** The copy loop of [meas_block_initS] for one observation. *)
Definition meas_block_initS_row (meas_block : meas_block_type) (iobs : nat)
    (obs_offset : nat) (Sm : matrix_type) : matrix_type :=
  fold_left
    (fun Sm iens =>
       let obs_index :=
         (iens * ens_stride meas_block + iobs * obs_stride meas_block)%nat in
       matrix_iset Sm obs_offset iens (nth obs_index (data meas_block) 0))
    (seq 0 (active_ens_size meas_block)) Sm.

Definition meas_block_initS (meas_block : meas_block_type) (Sm : matrix_type)
    (obs_offset : nat) : matrix_type * nat :=
  fold_left
    (fun (st : matrix_type * nat) (iobs : nat) =>
       let '(Sm, obs_offset) := st in
       if nth iobs (active meas_block) false
       then (meas_block_initS_row meas_block iobs obs_offset Sm,
             S obs_offset)
       else (Sm, obs_offset))
    (seq 0 (obs_size meas_block)) (Sm, obs_offset).

(** The sums M1 and M2 over the ensemble for one observation. *)
Definition ens_moments (meas_block : meas_block_type) (iobs : nat) : R * R :=
  fold_left
    (fun (st : R * R) (iens : nat) =>
       let '(M1, M2) := st in
       let index :=
         (iens * ens_stride meas_block + iobs * obs_stride meas_block)%nat in
       (M1 + nth index (data meas_block) 0,
        M2 + nth index (data meas_block) 0 * nth index (data meas_block) 0))
    (seq 0 (active_ens_size meas_block)) (0, 0).

(** The body of the loop of [meas_block_calculate_ens_stats]: mean and
    standard deviation of one active observation. *)
Definition ens_stats_step (meas_block : meas_block_type) (iobs : nat)
    : meas_block_type :=
  if nth iobs (active meas_block) false then
    let '(M1, M2) := ens_moments meas_block iobs in
    let mean_index :=
      ((active_ens_size meas_block + 0) * ens_stride meas_block
       + iobs * obs_stride meas_block)%nat in
    let std_index :=
      ((active_ens_size meas_block + 1) * ens_stride meas_block
       + iobs * obs_stride meas_block)%nat in
    let mean := M1 / INR (active_ens_size meas_block) in
    let var := M2 / INR (active_ens_size meas_block) - mean * mean in
    let meas_block :=
      set_data meas_block (vset (data meas_block) mean_index mean) in
    set_data meas_block
      (vset (data meas_block) std_index (sqrt (Rmax 0 var)))
  else meas_block.

Definition meas_block_calculate_ens_stats (meas_block : meas_block_type)
    : meas_block_type :=
  let meas_block :=
    fold_left ens_stats_step (seq 0 (obs_size meas_block)) meas_block in
  set_stat_calculated meas_block true.

Definition meas_block_assert_ens_stat (meas_block : meas_block_type)
    : meas_block_type :=
  if negb (stat_calculated meas_block)
  then meas_block_calculate_ens_stats meas_block
  else meas_block.

(** None stands for util_abort. *)
Definition meas_block_assert_iens_active (meas_block : meas_block_type)
    (iens : nat) : option unit :=
  if negb (nth iens (ens_mask meas_block) false) then None else Some tt.

Definition meas_block_iset (meas_block : meas_block_type) (iens iobs : nat)
    (value : R) : option meas_block_type :=
  match meas_block_assert_iens_active meas_block iens with
  | None => None
  | Some _ =>
      let active_iens := nth iens (index_map meas_block) 0%Z in
      let index :=
        (Z.to_nat active_iens * ens_stride meas_block
         + iobs * obs_stride meas_block)%nat in
      let meas_block :=
        set_data meas_block (vset (data meas_block) index value) in
      let meas_block :=
        if negb (nth iobs (active meas_block) false)
        then set_active meas_block (vset (active meas_block) iobs true)
        else meas_block in
      Some (set_stat_calculated meas_block false)
  end.

Definition meas_block_iget (meas_block : meas_block_type) (iens iobs : nat)
    : option R :=
  match meas_block_assert_iens_active meas_block iens with
  | None => None
  | Some _ =>
      let active_iens := nth iens (index_map meas_block) 0%Z in
      let index :=
        (Z.to_nat active_iens * ens_stride meas_block
         + iobs * obs_stride meas_block)%nat in
      Some (nth index (data meas_block) 0)
  end.

Definition meas_block_get_active_obs_size (meas_block : meas_block_type) : nat :=
  fold_left
    (fun obs_size i =>
       if nth i (active meas_block) false then S obs_size else obs_size)
    (seq 0 (obs_size meas_block)) 0%nat.

(** The block with its statistics brought up to date, and the value. *)
Definition meas_block_iget_ens_std (meas_block : meas_block_type) (iobs : nat)
    : meas_block_type * R :=
  let meas_block := meas_block_assert_ens_stat meas_block in
  let std_index :=
    ((active_ens_size meas_block + 1) * ens_stride meas_block
     + iobs * obs_stride meas_block)%nat in
  (meas_block, nth std_index (data meas_block) 0).

Definition meas_block_iget_ens_mean (meas_block : meas_block_type) (iobs : nat)
    : meas_block_type * R :=
  let meas_block := meas_block_assert_ens_stat meas_block in
  let mean_index :=
    (active_ens_size meas_block * ens_stride meas_block
     + iobs * obs_stride meas_block)%nat in
  (meas_block, nth mean_index (data meas_block) 0).

Definition meas_block_iget_active (meas_block : meas_block_type) (iobs : nat)
    : bool :=
  nth iobs (active meas_block) false.

Definition meas_block_deactivate (meas_block : meas_block_type) (iobs : nat)
    : meas_block_type :=
  let meas_block :=
    if nth iobs (active meas_block) false
    then set_active meas_block (vset (active meas_block) iobs false)
    else meas_block in
  set_stat_calculated meas_block false.

Definition meas_block_get_total_obs_size (meas_block : meas_block_type) : nat :=
  obs_size meas_block.

Definition meas_block_get_active_ens_size (meas_block : meas_block_type) : nat :=
  active_ens_size meas_block.

Definition meas_block_get_total_ens_size (meas_block : meas_block_type) : nat :=
  List.length (ens_mask meas_block).

(** The vector [data] owns the blocks; the hash [blocks] maps a lookup key
    to the same block, here to its position in the vector. *)
Record meas_data_type : Type := mk_meas {
  md_active_ens_size : nat;
  md_data : list meas_block_type;
  md_blocks : list (string * nat);
  md_ens_mask : list bool
}.

Definition meas_data_alloc (ens_mask : list bool) : meas_data_type :=
  mk_meas (bool_vector_count_equal ens_mask true) [] [] ens_mask.

(** sprintf("%s-%d", obs_key, report_step) *)
Definition meas_data_alloc_key (obs_key : string) (report_step : Z) : string :=
  (obs_key ++ "-" ++ show_int report_step)%string.

Definition hash_has_key (h : list (string * nat)) (key : string) : bool :=
  existsb (fun kv => String.eqb (fst kv) key) h.

(** The result is the store and the position of the block whose address is
    returned, vector_get_last(matrix->data). *)
Definition meas_data_add_block (matrix : meas_data_type) (obs_key : string)
    (report_step : Z) (obs_size : nat) : meas_data_type * nat :=
  let lookup_key := meas_data_alloc_key obs_key report_step in
  let matrix :=
    if negb (hash_has_key (md_blocks matrix) lookup_key) then
      let new_block := meas_block_alloc obs_key (md_ens_mask matrix) obs_size in
      mk_meas (md_active_ens_size matrix) (md_data matrix ++ [new_block])
        ((lookup_key, List.length (md_data matrix)) :: md_blocks matrix)
        (md_ens_mask matrix)
    else matrix in
  (matrix, (List.length (md_data matrix) - 1)%nat).

Definition meas_data_iget_block (matrix : meas_data_type) (block_nr : nat)
    : option meas_block_type :=
  nth_error (md_data matrix) block_nr.

Definition meas_data_get_active_obs_size (matrix : meas_data_type) : nat :=
  fold_left
    (fun obs_size meas_block =>
       (obs_size + meas_block_get_active_obs_size meas_block)%nat)
    (md_data matrix) 0%nat.

(** The body of the loop of [meas_data_makeS] over the blocks. *)
Definition makeS_step (st : matrix_type * nat) (meas_block : meas_block_type)
    : matrix_type * nat :=
  let '(Sm, obs_offset) := st in
  meas_block_initS meas_block Sm obs_offset.

Definition meas_data_makeS (matrix : meas_data_type) : matrix_type :=
  let obs_offset := 0%nat in
  let Sm :=
    matrix_alloc (meas_data_get_active_obs_size matrix)
      (md_active_ens_size matrix) in
  if (0 <? rows Sm)%nat && (0 <? columns Sm)%nat then
    fst (fold_left makeS_step (md_data matrix) (Sm, obs_offset))
  else Sm.

Definition meas_data_get_active_ens_size (meas_data : meas_data_type) : nat :=
  md_active_ens_size meas_data.

(** The shape every block built by [meas_block_alloc] has and every
    operation keeps. *)
Definition well_formed (b : meas_block_type) : Prop :=
  active_ens_size b = bool_vector_count_equal (ens_mask b) true
  /\ ens_stride b = 1%nat
  /\ obs_stride b = (active_ens_size b + 2)%nat
  /\ List.length (data b) = ((active_ens_size b + 2) * obs_size b)%nat
  /\ List.length (active b) = obs_size b
  /\ index_map b = bool_vector_to_active_index_list (ens_mask b).

(** The values of one observation over the active members, and their mean
    and (population) variance. *)
Definition ens_cell (b : meas_block_type) (iobs a : nat) : R :=
  nth (a + iobs * (active_ens_size b + 2)) (data b) 0.

Definition ens_mean (b : meas_block_type) (iobs : nat) : R :=
  Rsum (active_ens_size b) (ens_cell b iobs) / INR (active_ens_size b).

Definition ens_var (b : meas_block_type) (iobs : nat) : R :=
  Rsum (active_ens_size b) (fun a => ens_cell b iobs a * ens_cell b iobs a)
  / INR (active_ens_size b)
  - ens_mean b iobs * ens_mean b iobs.

(** The number of active observations in the blocks before block [n]:
    the row of S at which block [n] starts. *)
Fixpoint obs_offset_of (blocks : list meas_block_type) (n : nat) : nat :=
  match n, blocks with
  | S n', blk :: rest =>
      (meas_block_get_active_obs_size blk + obs_offset_of rest n')%nat
  | _, _ => 0%nat
  end.

End MeasData.

(** ** Data sizes and file formats of GEN_DATA (gen_data_config.cpp). *)

Module GenDataConfig.

(** int_vector of libecl: a growable array with a default value.
    safe_iget answers the default beyond the end, iset fills the gap up to
    the index with the default; both abort (None) on a negative index. *)
Record int_vector_type : Type := mk_int_vector {
  default_value : Z;
  items : list Z
}.

Definition int_vector_alloc (init_size : nat) (default : Z) : int_vector_type :=
  mk_int_vector default (repeat default init_size).

Definition int_vector_safe_iget (v : int_vector_type) (index : Z) : option Z :=
  if (Z.of_nat (List.length (items v)) <=? index)%Z then Some (default_value v)
  else if (0 <=? index)%Z then Some (nth (Z.to_nat index) (items v) 0%Z)
  else None.

Definition int_vector_iset (v : int_vector_type) (index : Z) (value : Z)
    : option int_vector_type :=
  if (index <? 0)%Z then None
  else
    let i := Z.to_nat index in
    if (i <? List.length (items v))%nat
    then Some (mk_int_vector (default_value v) (MeasData.vset (items v) i value))
    else Some (mk_int_vector (default_value v)
                 (items v
                  ++ repeat (default_value v) (i - List.length (items v))
                  ++ [value])).

(** The formats the code names. *)
Inductive gen_data_file_format_type : Type :=
| GEN_DATA_UNDEFINED
| ASCII
| ASCII_TEMPLATE.

Definition format_eqb (a b : gen_data_file_format_type) : bool :=
  match a, b with
  | GEN_DATA_UNDEFINED, GEN_DATA_UNDEFINED => true
  | ASCII, ASCII => true
  | ASCII_TEMPLATE, ASCII_TEMPLATE => true
  | _, _ => false
  end.

(** The fields read by the size and format functions; the file system
    handle and the lock are left out. *)
Record gen_data_config_type : Type := mk_gen_data_config {
  key : string;
  input_format : gen_data_file_format_type;
  data_size_vector : int_vector_type;
  active_report_steps : int_vector_type;
  ens_size : Z;
  mask_modified : bool;
  active_mask : list bool;
  active_report_step : Z
}.

(** What a function ends with: a value, util_abort, or the exception
    value_error. *)
Inductive outcome (A : Type) : Type :=
| Returns (a : A)
| Aborts
| ValueError (message : string).
Arguments Returns {A} a.
Arguments Aborts {A}.
Arguments ValueError {A} message.

Definition gen_data_config_get_input_format (config : gen_data_config_type) :=
  input_format config.

Definition gen_data_config_get_data_size__ (config : gen_data_config_type)
    (report_step : Z) : outcome Z :=
  match int_vector_safe_iget (data_size_vector config) report_step with
  | Some current_size => Returns current_size
  | None => Aborts
  end.

Definition gen_data_config_get_data_size (config : gen_data_config_type)
    (report_step : Z) : outcome Z :=
  match gen_data_config_get_data_size__ config report_step with
  | Returns current_size =>
      if (current_size <? 0)%Z
      then ValueError "No data has been loaded for report step"
      else Returns current_size
  | other => other
  end.

Definition gen_data_config_get_initial_size (config : gen_data_config_type)
    : outcome Z :=
  match int_vector_safe_iget (data_size_vector config) 0 with
  | Some initial_size =>
      Returns (if (initial_size <? 0)%Z then 0%Z else initial_size)
  | None => Aborts
  end.

Definition gen_data_config_alloc (key : string) : gen_data_config_type :=
  mk_gen_data_config key GEN_DATA_UNDEFINED (int_vector_alloc 0 (-1))
    (int_vector_alloc 0 0) (-1) false [] (-1).

Definition gen_data_config_alloc_GEN_DATA_result (key : string)
    (input_format : gen_data_file_format_type) : outcome gen_data_config_type :=
  let config := gen_data_config_alloc key in
  if format_eqb input_format ASCII_TEMPLATE then Aborts
  else if format_eqb input_format GEN_DATA_UNDEFINED then Aborts
  else
    Returns
      (mk_gen_data_config (GenDataConfig.key config) input_format
         (data_size_vector config) (active_report_steps config)
         (ens_size config) (mask_modified config) (active_mask config)
         (active_report_step config)).

(** [format_string] is None for a null pointer. *)
Definition gen_data_config_check_format (format_string : option string)
    : gen_data_file_format_type :=
  match format_string with
  | Some format_string =>
      if String.eqb format_string "ASCII" then ASCII
      else if String.eqb format_string "ASCII_TEMPLATE" then ASCII_TEMPLATE
      else GEN_DATA_UNDEFINED
  | None => GEN_DATA_UNDEFINED
  end.

Definition gen_data_config_format_name (format_type : gen_data_file_format_type)
    : string :=
  match format_type with
  | GEN_DATA_UNDEFINED => "UNDEFINED"
  | ASCII => "ASCII"
  | ASCII_TEMPLATE => "ASCII_TEMPLATE"
  end.

Definition set_data_size_vector (config : gen_data_config_type)
    (v : int_vector_type) : gen_data_config_type :=
  mk_gen_data_config (key config) (input_format config) v
    (active_report_steps config) (ens_size config) (mask_modified config)
    (active_mask config) (active_report_step config).

Definition gen_data_config_assert_size (config : gen_data_config_type)
    (data_size : Z) (report_step : Z) : outcome gen_data_config_type :=
  match int_vector_safe_iget (data_size_vector config) report_step with
  | None => Aborts
  | Some current_size =>
      if (current_size <? 0)%Z then
        match int_vector_iset (data_size_vector config) report_step data_size with
        | None => Aborts
        | Some v => Returns (set_data_size_vector config v)
        end
      else if negb (current_size =? data_size)%Z then Aborts
      else Returns config
  end.

Definition gen_data_config_set_ens_size (config : gen_data_config_type)
    (n : Z) : gen_data_config_type :=
  mk_gen_data_config (key config) (input_format config)
    (data_size_vector config) (active_report_steps config) n
    (mask_modified config) (active_mask config) (active_report_step config).

Definition gen_data_config_get_key (config : gen_data_config_type) : string :=
  key config.

End GenDataConfig.

(** ** Update parameters (analysis::Parameter). *)

Module AnalysisParameter.

(** A std::stringstream: the characters written so far and the put
    position; writing at the put position overwrites what is there and
    extends the buffer past its end. *)
Record stringstream : Type := mk_stream {
  buffer : list ascii;
  put : nat
}.

Definition stream_write (s : stringstream) (t : string) : stringstream :=
  let chars := list_ascii_of_string t in
  mk_stream
    (firstn (put s) (buffer s) ++ chars
     ++ skipn (put s + List.length chars) (buffer s))
    (put s + List.length chars).

(** seekp(off, cur) *)
Definition seekp_cur (s : stringstream) (off : Z) : stringstream :=
  mk_stream (buffer s) (Z.to_nat (Z.of_nat (put s) + off)).

Definition str (s : stringstream) : string :=
  string_of_list_ascii (buffer s).

(** The name and the index list of a Parameter (the ActiveList mirror of
    the index list belongs to another class). *)
Record parameter_type : Type := mk_parameter {
  name : string;
  active_index : list Z
}.

Definition get_index_list (p : parameter_type) : list Z := active_index p.

(** std::copy(begin, end, std::ostream_iterator<int>(result, " ")) *)
Definition copy_ints (result : stringstream) (l : list Z) : stringstream :=
  fold_left
    (fun result i => stream_write (stream_write result (show_int i)) " ")
    l result.

Definition to_string (p : parameter_type) : string :=
  let result := mk_stream [] 0 in
  let result := stream_write result "Parameter(name='" in
  let result := stream_write result (name p) in
  let result := stream_write result "', index_list=[" in
  let result := copy_ints result (active_index p) in
  let result := seekp_cur result (-1) in
  let result := stream_write result "])" in
  str result.

(** The index list as it is printed: the numbers, each followed by a
    blank. *)
Fixpoint spaced (l : list Z) : string :=
  match l with
  | [] => EmptyString
  | i :: rest => (show_int i ++ " " ++ spaced rest)%string
  end.

(** A string without its last character. *)
Fixpoint chop (s : string) : string :=
  match s with
  | EmptyString => EmptyString
  | String c EmptyString => EmptyString
  | String c rest => String c (chop rest)
  end.

End AnalysisParameter.

(** ** Double precision.

    The code computes in IEEE 754 binary64.  Where the rounding of a double
    decides a property, the steps of the code are written over binary64
    values, with the operations of the standard library's executable
    specification of IEEE arithmetic (round to nearest, ties to even). *)

Module Double.

Definition double : Type := SpecFloat.spec_float.

Definition prec : Z := 53%Z.
Definition emax : Z := 1024%Z.

Definition add : double -> double -> double := SpecFloat.SFadd prec emax.
Definition mul : double -> double -> double := SpecFloat.SFmul prec emax.
Definition div : double -> double -> double := SpecFloat.SFdiv prec emax.

(** The double nearest to an integer. *)
Definition of_Z (z : Z) : double :=
  SpecFloat.binary_normalize prec emax z 0 false.

Definition zero : double := of_Z 0.
Definition one : double := of_Z 1.

Definition is_finite (x : double) : bool :=
  match x with
  | SpecFloat.S754_zero _ | SpecFloat.S754_finite _ _ _ => true
  | _ => false
  end.




(** A grid of doubles with its row and column counts, as [matrix_type]. *)
Record dmatrix_type : Type := mk_dmatrix {
  drows : nat;
  dcolumns : nat;
  delems : nat -> nat -> double
}.

Definition matrix_get_columns (m : dmatrix_type) : nat := dcolumns m.

Definition matrix_alloc (r c : nat) : dmatrix_type :=
  mk_dmatrix r c (fun _ _ => zero).

Definition matrix_diag_set_scalar (m : dmatrix_type) (v : double) : dmatrix_type :=
  mk_dmatrix (drows m) (dcolumns m) (fun a b => if (a =? b)%nat then v else zero).

Fixpoint dsum (n : nat) (f : nat -> double) : double :=
  match n with
  | O => zero
  | S k => add (dsum k f) (f k)
  end.

Definition op (trans : bool) (m : dmatrix_type) (i j : nat) : double :=
  if trans then delems m j i else delems m i j.

Definition inner_dim (trans : bool) (m : dmatrix_type) : nat :=
  if trans then drows m else dcolumns m.

(** Modelled from the spec: [matmul(C, A, B, transA, transB, alpha, beta)]
    computing C <- alpha * opA * opB + beta * C, every operation rounded;
    the products of an entry are summed in index order. *)
Definition matrix_dgemm (C A B : dmatrix_type) (transA transB : bool)
    (alpha beta : double) : dmatrix_type :=
  mk_dmatrix (drows C) (dcolumns C)
    (fun i j =>
       add (mul alpha
              (dsum (inner_dim transA A)
                 (fun k => mul (op transA A i k) (op transB B k j))))
           (mul beta (delems C i j))).

(** The matrix that [linalg_exact_inversion] hands to matrix_dgesvd. *)
Definition exact_StS (Sm : dmatrix_type) : dmatrix_type :=
  let ens_size := matrix_get_columns Sm in
  let StS := matrix_alloc ens_size ens_size in
  let StS := matrix_diag_set_scalar StS one in
  matrix_dgemm StS Sm Sm true false one one.



End Double.

(** ** Sample instances, used to evaluate the definitions. *)

Module Samples.

(** A kernel that answers every factorisation with the identity. *)
Definition unit_kernel : LinalgKernel :=
  {| matrix_dgesvd := fun _ _ _ => mk_svd (fun _ => 1) delta delta;
     matrix_dgesvx := fun _ B => elems B;
     enkf_linalg_lowrankE := fun _ _ _ => mk_lowrank delta (fun _ => 1);
     enkf_linalg_lowrankCinv := fun _ _ _ => mk_lowrank delta (fun _ => 1) |}.

Definition sample_config : config_type :=
  mk_config (TruncationFraction (97 / 100)) IES_INVERSION_EXACT
    (6 / 10) (3 / 10) (25 / 10) false None 0%Z.

Definition sample_data (n : nat) : data_type :=
  mk_data sample_config (matrix_alloc n n) (matrix_alloc 1 n)
    (matrix_alloc 1 n) (bool_vector_alloc n true) [true] [true] 0%Z 1%nat.



(** A store whose mutators leave the state as it is. *)
Definition idle_store : DataStore :=
  {| data_alloc := sample_data 0;
     data_free := fun _ => tt;
     data_update_ens_mask := fun d _ => d;
     data_allocateW := fun d => d;
     store_initial_obs_mask := fun d _ => d;
     update_obs_mask := fun d _ => d;
     data_store_initialE := fun d _ => d;
     data_augment_initialE := fun d _ => d;
     data_store_initialA := fun d _ => d |}.

(** Three realizations of which the middle one is inactive, and a W with
    distinct entries. *)
Definition shrunk_data : data_type :=
  mk_data sample_config
    (mk_matrix 3 3 (fun i j => INR (3 * i + j + 1)))
    (matrix_alloc 1 3) (matrix_alloc 1 3) [true; false; true] [true] [true]
    2%Z 1%nat.

End Samples.

(** The matrix Omega that [linalg_solve_S] builds from W0 and hands to
    matrix_dgesvx, and the right-hand side Y^T. *)
Definition solve_S_Omega (W0 : matrix_type) : matrix_type :=
  let ens_size := matrix_get_columns W0 in
  let nsc := 1 / sqrt (INR ens_size - 1) in
  let Omega := matrix_alloc ens_size ens_size in
  let Omega := matrix_assign Omega W0 in
  let Omega := matrix_subtract_row_mean Omega in
  let Omega := matrix_scale Omega nsc in
  let Omega := matrix_inplace_transpose Omega in
  iadd_diagonal Omega ens_size.

Definition solve_S_YT (W0 Y Sm : matrix_type) : matrix_type :=
  matrix_transpose Y
    (matrix_alloc (matrix_get_columns W0) (matrix_get_rows Sm)).

(** ** Notions used to state the properties. *)

(** The number of active entries of a mask below index [n]: the value of
    the running counter of the copy loops when they reach [n]. *)
Fixpoint rank (mask : bool_vector_type) (n : nat) : nat :=
  match n with
  | O => O
  | S k => (rank mask k + if bool_vector_iget mask k then 1 else 0)%nat
  end.



(** * Properties *)

(** ** The dispatch table *)

(** C2 (as stated, refuted): the table IES_ENKF holds no callable initX:
    its initX slot is the null pointer. *)
Lemma IES_ENKF_initX_not_callable :
  ~ (exists f,
        AnalysisTable.initX
          (@IES_ENKF Samples.unit_kernel Samples.idle_store) = Some f).
Proof.
  intros [f Hf]. cbn in Hf. discriminate Hf.
Qed.

(** C2 (amended): the table named "IES_ENKF" leaves its initX slot (and
    complete_update) null whatever the kernel; it hands updateA,
    init_update, every key/value accessor (the four setters, the four
    getters, get_options and has_var) and the allocator pair to the driver,
    and the stateless initX is a free function of the module only. *)
Theorem IES_ENKF_table_slots (kernel : LinalgKernel) (store : DataStore) :
  AnalysisTable.name IES_ENKF = "IES_ENKF"%string
  /\ AnalysisTable.initX IES_ENKF = None
  /\ AnalysisTable.complete_update IES_ENKF = None
  /\ AnalysisTable.updateA IES_ENKF = Some updateA
  /\ AnalysisTable.init_update IES_ENKF = Some init_update
  /\ AnalysisTable.get_bool IES_ENKF = Some get_bool
  /\ AnalysisTable.get_int IES_ENKF = Some get_int
  /\ AnalysisTable.get_double IES_ENKF = Some get_double
  /\ AnalysisTable.get_ptr IES_ENKF = Some get_ptr
  /\ AnalysisTable.get_options IES_ENKF = Some get_options
  /\ AnalysisTable.has_var IES_ENKF = Some has_var
  /\ AnalysisTable.set_int IES_ENKF = Some set_int
  /\ AnalysisTable.set_double IES_ENKF = Some set_double
  /\ AnalysisTable.set_bool IES_ENKF = Some set_bool
  /\ AnalysisTable.set_string IES_ENKF = Some set_string
  /\ AnalysisTable.freef IES_ENKF = Some data_free
  /\ AnalysisTable.alloc IES_ENKF = Some data_alloc.
Proof.
  repeat split.
Qed.

(** ** The key/value interface *)

Lemma key_eqb_neq (a b : string) : a <> b -> String.eqb a b = false.
Proof.
  intros Hab. apply String.eqb_neq. exact Hab.
Qed.

(** C10: get_bool answers false for every name other than
    IES_AAPROJECTION, whatever the state; being a total function into bool
    it has no way to signal an error. *)
Theorem get_bool_false_off_key (data : data_type) (var_name : string) :
  var_name <> IES_AAPROJECTION_KEY ->
  get_bool data var_name = false.
Proof.
  intros Hneq. unfold get_bool.
  rewrite (key_eqb_neq _ _ Hneq). reflexivity.
Qed.

Lemma get_bool_false_off_key_witness :
  IES_DEBUG_KEY <> IES_AAPROJECTION_KEY
  /\ get_bool (Samples.sample_data 2) IES_DEBUG_KEY = false
  /\ get_bool (Samples.sample_data 2) "NO_SUCH_KEY" = false.
Proof.
  split; [discriminate|].
  split; apply get_bool_false_off_key; discriminate.
Defined.

(** C7: once ENKF_SUBSPACE_DIMENSION has been set to k, get_int gives k
    back and get_double(ENKF_TRUNCATION) gives the sentinel -1; and while a
    fraction is stored, get_int(ENKF_SUBSPACE_DIMENSION) gives -1. *)
Theorem truncation_tagged_queries (data : data_type) (k : Z)
    (other : data_type) (f : R) :
  get_truncation (data_get_config other) = TruncationFraction f ->
  let data' := snd (set_int data ENKF_SUBSPACE_DIMENSION_KEY k) in
  (fst (set_int data ENKF_SUBSPACE_DIMENSION_KEY k) = true
   /\ get_int data' ENKF_SUBSPACE_DIMENSION_KEY = k
   /\ get_double data' ENKF_TRUNCATION_KEY = -1)
  /\ (get_int other ENKF_SUBSPACE_DIMENSION_KEY = (-1)%Z
      /\ get_double other ENKF_TRUNCATION_KEY = f).
Proof.
  intros Hfrac. cbn.
  unfold get_int, get_double. cbn.
  rewrite Hfrac. repeat split.
Qed.

Lemma truncation_tagged_queries_witness :
  let d := snd (set_double (Samples.sample_data 2) ENKF_TRUNCATION_KEY (97 / 100)) in
  get_int (snd (set_int d ENKF_SUBSPACE_DIMENSION_KEY 5)) ENKF_SUBSPACE_DIMENSION_KEY = 5%Z
  /\ get_double (snd (set_int d ENKF_SUBSPACE_DIMENSION_KEY 5)) ENKF_TRUNCATION_KEY = -1
  /\ get_int d ENKF_SUBSPACE_DIMENSION_KEY = (-1)%Z.
Proof.
  intro d.
  destruct (truncation_tagged_queries d 5 d (97 / 100) eq_refl)
    as ((_ & Hint & Hdbl) & Hsent & _).
  repeat split; assumption.
Defined.

(** ** The log record of updateA *)

Lemma append_empty_r (s : string) : (s ++ EmptyString)%string = s.
Proof.
  induction s as [|c s IH]; simpl; [reflexivity | now rewrite IH].
Qed.

(** The text of the record written by updateA. *)
Lemma render_cost_record (show_double : R -> string) (k : Z) (c : R) :
  render show_double
    (mk_record INFO "IES  iter:{} cost function: {}" [ArgInt k; ArgDouble c])
  = ("IES  iter:" ++ show_int k ++ " cost function: " ++ show_double c)%string.
Proof.
  unfold render. cbn [fmt args format show_arg String.append].
  rewrite append_empty_r. reflexivity.
Qed.

Section UpdateLog.

Context {kernel : LinalgKernel} {store : DataStore}.

Lemma updateA_log (data : data_type) (log : log_sink)
    (A Yin Rin dObs Ein Din : matrix_type) (rng : rng_type) :
  snd (fst (updateA data log A Yin Rin dObs Ein Din rng))
  = log ++ [mk_record INFO "IES  iter:{} cost function: {}"
              [ArgInt (iteration_nr data + 1);
               ArgDouble (updateA_costf data A Yin Rin Ein Din)]].
Proof.
  unfold updateA, updateA_costf, updateA_state, logger_info,
    matrix_alloc_copy, data_inc_iteration_nr.
  cbn [fst snd].
  match goal with
  | |- context [ies_initX__ ?a ?y ?r ?e ?d ?x ?i ?t ?p ?dt ?g ?k ?c] =>
      destruct (ies_initX__ a y r e d x i t p dt g k c) as [[X' d'] c']
  end.
  reflexivity.
Qed.

End UpdateLog.

Lemma string_append_assoc (a b c : string) :
  ((a ++ b) ++ c)%string = (a ++ (b ++ c))%string.
Proof.
  induction a as [|x a IH]; simpl; [reflexivity | now rewrite IH].
Qed.

Lemma written_app (show_double : R -> string) (l1 l2 : log_sink) :
  written show_double (l1 ++ l2)
  = (written show_double l1 ++ written show_double l2)%string.
Proof.
  induction l1 as [|r l1 IH]; simpl; [reflexivity|].
  rewrite IH, string_append_assoc. reflexivity.
Qed.

Lemma count_newlines_app (a b : string) :
  count_newlines (a ++ b) = (count_newlines a + count_newlines b)%nat.
Proof.
  induction a as [|x a IH]; simpl; [reflexivity | rewrite IH; lia].
Qed.

(** A decimal digit is no line end. *)
Lemma digit_not_newline (n : N) :
  Ascii.eqb (ascii_of_N (48 + N.modulo n 10)) newline = false.
Proof.
  apply Ascii.eqb_neq. intros Heq.
  apply (f_equal N_of_ascii) in Heq.
  assert (Hlt : (N.modulo n 10 < 10)%N) by (apply N.mod_lt; discriminate).
  rewrite N_ascii_embedding in Heq
    by (revert Hlt; generalize (N.modulo n 10); intros m Hlt; lia).
  change (N_of_ascii newline) with 10%N in Heq.
  revert Heq. generalize (N.modulo n 10). intros m Heq. lia.
Qed.

Lemma digits_newlines (fuel : nat) (n : N) (acc : string) :
  count_newlines (digits fuel n acc) = count_newlines acc.
Proof.
  revert n acc. induction fuel as [|fuel IH]; intros n acc; [reflexivity|].
  cbn [digits].
  destruct (n <? 10)%N.
  - cbn [count_newlines]. rewrite digit_not_newline. reflexivity.
  - rewrite IH. cbn [count_newlines]. rewrite digit_not_newline. reflexivity.
Qed.

Lemma show_int_newlines (z : Z) : count_newlines (show_int z) = 0%nat.
Proof.
  destruct z as [|p|p]; cbn [show_int]; [reflexivity| |].
  - apply digits_newlines.
  - cbn [count_newlines]. rewrite digits_newlines. reflexivity.
Qed.

(** C8 (as stated, refuted): with a log file configured through
    set_string(IES_LOGFILE), what the first updateA call writes is not the
    line "IES iter:1 cost function: <f>": the code puts two blanks after
    "IES". *)
Lemma updateA_record_not_single_space :
  let data := snd (set_string (Samples.sample_data 2) IES_LOGFILE_KEY "ies.log") in
  get_logfile (data_get_config data) = Some "ies.log"%string
  /\ ~ (exists (show_double : R -> string) (f : R),
          written show_double
            (snd (fst (@updateA Samples.unit_kernel Samples.idle_store
                         data []
                         (matrix_alloc 1 2) (matrix_alloc 1 2)
                         (matrix_alloc 1 1) (matrix_alloc 1 1)
                         (matrix_alloc 1 2) (matrix_alloc 1 2) tt)))
          = ("IES iter:" ++ show_int 1 ++ " cost function: "
             ++ show_double f ++ String newline EmptyString)%string).
Proof.
  intros data. split; [reflexivity|].
  intros (show_double & f & Hform).
  rewrite updateA_log in Hform.
  cbn [app written] in Hform. unfold write_record in Hform.
  rewrite render_cost_record in Hform.
  cbn [String.append] in Hform. discriminate Hform.
Qed.

(** C8 (amended): every updateA call, with a log file configured (and
    equally without one), writes exactly one newline-terminated text record
    of the form "IES  iter:<k> cost function: <f>", with two blanks after
    IES: one INFO record is handed to the module logger, what is written
    grows by that text and one line feed, and this holds one line end, k
    being the incremented iteration number and f the cost function computed
    by ies_initX__ (printed without a line end). *)
Theorem updateA_writes_one_record (kernel : LinalgKernel) (store : DataStore)
    (data : data_type) (log : log_sink)
    (A Yin Rin dObs Ein Din : matrix_type) (rng : rng_type)
    (show_double : R -> string) :
  (forall x : R, count_newlines (show_double x) = 0%nat) ->
  let log' := snd (fst (updateA data log A Yin Rin dObs Ein Din rng)) in
  let text :=
    ("IES  iter:" ++ show_int (snd (data_inc_iteration_nr data))
     ++ " cost function: "
     ++ show_double (updateA_costf data A Yin Rin Ein Din))%string in
  (exists r : log_record,
     log' = log ++ [r] /\ level r = INFO /\ render show_double r = text)
  /\ written show_double log'
     = (written show_double log ++ text ++ String newline EmptyString)%string
  /\ count_newlines (text ++ String newline EmptyString) = 1%nat.
Proof.
  intros Hshow log' text. split; [|split].
  - eexists. split; [apply updateA_log|].
    split; [reflexivity|].
    rewrite render_cost_record. reflexivity.
  - unfold log'. rewrite updateA_log, written_app.
    cbn [written]. unfold write_record.
    rewrite render_cost_record, append_empty_r. unfold text.
    rewrite !string_append_assoc. reflexivity.
  - unfold text. rewrite !count_newlines_app, show_int_newlines, Hshow.
    reflexivity.
Qed.

Lemma updateA_writes_one_record_witness :
  let data := snd (set_string (Samples.sample_data 2) IES_LOGFILE_KEY "ies.log") in
  let show_double := fun _ : R => "0.5"%string in
  get_logfile (data_get_config data) = Some "ies.log"%string
  /\ written show_double
       (snd (fst (@updateA Samples.unit_kernel Samples.idle_store data []
                    (matrix_alloc 1 2) (matrix_alloc 1 2)
                    (matrix_alloc 1 1) (matrix_alloc 1 1)
                    (matrix_alloc 1 2) (matrix_alloc 1 2) tt)))
     = ("IES  iter:1 cost function: 0.5" ++ String newline EmptyString)%string.
Proof.
  intros data show_double. split; [reflexivity|].
  destruct (updateA_writes_one_record Samples.unit_kernel Samples.idle_store
              data [] (matrix_alloc 1 2) (matrix_alloc 1 2)
              (matrix_alloc 1 1) (matrix_alloc 1 1)
              (matrix_alloc 1 2) (matrix_alloc 1 2) tt show_double
              (fun _ => eq_refl))
    as (_ & Hwritten & _).
  exact Hwritten.
Defined.

(** ** The scaling of R in the subspace inversion *)

Lemma nsc_square (n : nat) :
  (2 <= n)%nat ->
  (1 / sqrt (INR n - 1)) * (1 / sqrt (INR n - 1)) = 1 / (INR n - 1).
Proof.
  intros Hn.
  assert (Hpos : 0 < INR n - 1).
  { assert (H2 : INR 2 <= INR n) by (apply le_INR; exact Hn).
    simpl in H2. lra. }
  assert (Hs : 0 < sqrt (INR n - 1)) by (apply sqrt_lt_R0; exact Hpos).
  assert (Hsq : sqrt (INR n - 1) * sqrt (INR n - 1) = INR n - 1)
    by (apply sqrt_sqrt; lra).
  rewrite <- Hsq at 3. field. lra.
Qed.

Lemma subspace_call_exact_R (E Rm Sm : matrix_type) (t : truncation_type) :
  (2 <= matrix_get_columns Sm)%nat ->
  subspace_lowrank_call IES_INVERSION_SUBSPACE_EXACT_R E Rm Sm t
  = CallLowrankCinv Sm
      (matrix_scale Rm (1 / (INR (matrix_get_columns Sm) - 1))) t.
Proof.
  intros Hn. unfold subspace_lowrank_call. cbn [Z.eqb IES_INVERSION_SUBSPACE_EXACT_R
    IES_INVERSION_SUBSPACE_RE IES_INVERSION_SUBSPACE_EE_R Pos.eqb].
  unfold matrix_alloc_copy. rewrite (nsc_square _ Hn). reflexivity.
Qed.

(** C1 (as stated, refuted): with three active realizations and R = (1),
    the matrix handed to lowrankCinv is not R / (N-1)^2 = (1/4); it is
    (1/2). *)
Lemma exact_R_not_scaled_by_square :
  let Sm := matrix_alloc 1 3 in
  let Rm := matrix_diag_set_scalar (matrix_alloc 1 1) 1 in
  let N := INR (matrix_get_columns Sm) in
  subspace_lowrank_call IES_INVERSION_SUBSPACE_EXACT_R (matrix_alloc 1 3) Rm Sm
    (TruncationFraction 1)
  <> CallLowrankCinv Sm (matrix_scale Rm (1 / ((N - 1) * (N - 1))))
       (TruncationFraction 1).
Proof.
  intros Sm Rm N Heq.
  rewrite subspace_call_exact_R in Heq by (cbn; lia).
  injection Heq as Hscale.
  apply (f_equal (fun f => f 0%nat 0%nat)) in Hscale.
  unfold N in Hscale. cbn in Hscale. lra.
Qed.

(** C1 (amended): in mode SUBSPACE_EXACT_R, with N >= 2 active
    realizations, linalg_subspace_inversion hands lowrankCinv the matrix R
    scaled by nsc * nsc = 1/(N-1) (not by its square), and updates W0 from
    what that call returns. *)
Theorem exact_R_scaled_by_inverse_N_minus_1 (kernel : LinalgKernel)
    (W0 E Rm Sm H : matrix_type) (t : truncation_type) (steplength : R) :
  (2 <= matrix_get_columns Sm)%nat ->
  let N := matrix_get_columns Sm in
  let scaledR := matrix_scale Rm (1 / (INR N - 1)) in
  subspace_lowrank_call IES_INVERSION_SUBSPACE_EXACT_R E Rm Sm t
  = CallLowrankCinv Sm scaledR t
  /\ linalg_subspace_inversion W0 IES_INVERSION_SUBSPACE_EXACT_R E Rm Sm H t
       steplength
     = let out := enkf_linalg_lowrankCinv Sm scaledR t in
       let X1 :=
         matrix_fill (matrix_alloc (matrix_get_rows Sm)
                        (Nat.min N (matrix_get_rows Sm))) (lr_X1 out) in
       let X3 :=
         enkf_linalg_genX3 (matrix_alloc (matrix_get_rows Sm) N) X1 H
           (lr_eig out) in
       matrix_dgemm W0 Sm X3 true false steplength (1 - steplength).
Proof.
  intros Hn N scaledR. split.
  - apply subspace_call_exact_R. exact Hn.
  - unfold linalg_subspace_inversion.
    rewrite (subspace_call_exact_R E Rm Sm t Hn). reflexivity.
Qed.

Lemma exact_R_scaled_by_inverse_N_minus_1_witness :
  subspace_lowrank_call IES_INVERSION_SUBSPACE_EXACT_R (matrix_alloc 1 3)
    (matrix_diag_set_scalar (matrix_alloc 1 1) 1) (matrix_alloc 1 3)
    (TruncationFraction 1)
  = CallLowrankCinv (matrix_alloc 1 3)
      (matrix_scale (matrix_diag_set_scalar (matrix_alloc 1 1) 1)
         (1 / (INR 3 - 1)))
      (TruncationFraction 1).
Proof.
  refine (proj1 (exact_R_scaled_by_inverse_N_minus_1 Samples.unit_kernel
                   (matrix_alloc 3 3) (matrix_alloc 1 3)
                   (matrix_diag_set_scalar (matrix_alloc 1 1) 1)
                   (matrix_alloc 1 3) (matrix_alloc 1 3)
                   (TruncationFraction 1) 1 _)).
  cbn. lia.
Defined.

(** ** The active slice of W and its way back *)

Lemma iget_true_lt (mask : bool_vector_type) (i : nat) :
  bool_vector_iget mask i = true -> (i < bool_vector_size mask)%nat.
Proof.
  unfold bool_vector_iget, bool_vector_size. intros Hi.
  destruct (Nat.lt_ge_cases i (List.length mask)) as [Hlt | Hge]; [exact Hlt|].
  rewrite nth_overflow in Hi by exact Hge. discriminate Hi.
Qed.

Lemma rank_le (mask : bool_vector_type) (j n : nat) :
  (j <= n)%nat -> (rank mask j <= rank mask n)%nat.
Proof.
  induction 1 as [|n Hle IH]; [lia|]. simpl. lia.
Qed.

Lemma rank_lt (mask : bool_vector_type) (j n : nat) :
  (j < n)%nat -> bool_vector_iget mask j = true ->
  (rank mask j < rank mask n)%nat.
Proof.
  intros Hlt Hj.
  assert (Hstep : (rank mask (S j) = rank mask j + 1)%nat)
    by (simpl; now rewrite Hj).
  pose proof (rank_le mask (S j) n Hlt). lia.
Qed.

Lemma alloc_active_row_S (full : matrix_type) (cmask : bool_vector_type)
    (n iobs row : nat) (active : matrix_type) :
  alloc_active_row full cmask (S n) iobs row active
  = (let '(a, c) := alloc_active_row full cmask n iobs row active in
     if bool_vector_iget cmask n
     then (matrix_iset a row c (matrix_iget full iobs n), S c)
     else (a, c)).
Proof.
  unfold alloc_active_row. rewrite seq_S, fold_left_app. reflexivity.
Qed.

Lemma alloc_active_row_spec (full : matrix_type) (cmask : bool_vector_type)
    (iobs row : nat) (active : matrix_type) (n : nat) :
  let r := alloc_active_row full cmask n iobs row active in
  snd r = rank cmask n
  /\ rows (fst r) = rows active
  /\ columns (fst r) = columns active
  /\ (forall j, (j < n)%nat -> bool_vector_iget cmask j = true ->
        elems (fst r) row (rank cmask j) = elems full iobs j)
  /\ (forall a b, a <> row -> elems (fst r) a b = elems active a b).
Proof.
  induction n as [|n IH].
  - cbn. repeat split; intros; try lia; reflexivity.
  - rewrite alloc_active_row_S.
    destruct (alloc_active_row full cmask n iobs row active) as [a c].
    cbn [fst snd] in IH. destruct IH as (Hc & Hr & Hcol & Hval & Hframe).
    subst c. cbn [rank].
    destruct (bool_vector_iget cmask n) eqn:Hn; cbn [fst snd].
    + repeat split; try assumption; try lia.
      * intros j Hj Hact. cbn.
        destruct (Nat.eq_dec j n) as [-> | Hne].
        -- now rewrite !Nat.eqb_refl.
        -- assert (Hlt : (rank cmask j < rank cmask n)%nat)
             by (apply rank_lt; [lia | exact Hact]).
           replace (rank cmask j =? rank cmask n)%nat with false
             by (symmetry; apply Nat.eqb_neq; lia).
           rewrite andb_false_r. apply Hval; [lia | exact Hact].
      * intros a0 b Hne. cbn.
        replace (a0 =? row)%nat with false
          by (symmetry; apply Nat.eqb_neq; exact Hne).
        cbn. apply Hframe. exact Hne.
    + repeat split; try assumption; try lia.
      intros j Hj Hact. apply Hval; [|exact Hact].
      destruct (Nat.eq_dec j n) as [-> | Hne]; [congruence | lia].
Qed.

Lemma alloc_active_rows_S (full : matrix_type) (rmask cmask : bool_vector_type)
    (n ncols : nat) (active : matrix_type) :
  alloc_active_rows full rmask cmask (S n) ncols active
  = (let '(a, row) := alloc_active_rows full rmask cmask n ncols active in
     if bool_vector_iget rmask n
     then (fst (alloc_active_row full cmask ncols n row a), S row)
     else (a, row)).
Proof.
  unfold alloc_active_rows. rewrite seq_S, fold_left_app. reflexivity.
Qed.

Lemma alloc_active_rows_spec (full : matrix_type) (rmask cmask : bool_vector_type)
    (ncols : nat) (active : matrix_type) (n : nat) :
  let r := alloc_active_rows full rmask cmask n ncols active in
  snd r = rank rmask n
  /\ rows (fst r) = rows active
  /\ columns (fst r) = columns active
  /\ (forall i j, (i < n)%nat -> bool_vector_iget rmask i = true ->
        (j < ncols)%nat -> bool_vector_iget cmask j = true ->
        elems (fst r) (rank rmask i) (rank cmask j) = elems full i j).
Proof.
  induction n as [|n IH].
  - cbn. repeat split; intros; lia.
  - rewrite alloc_active_rows_S.
    destruct (alloc_active_rows full rmask cmask n ncols active) as [a row].
    cbn [fst snd] in IH. destruct IH as (Hrow & Hr & Hcol & Hval).
    subst row. cbn [rank].
    destruct (bool_vector_iget rmask n) eqn:Hn; cbn [fst snd].
    + destruct (alloc_active_row_spec full cmask n (rank rmask n) a ncols)
        as (_ & Hr' & Hcol' & Hval' & Hframe').
      repeat split; try congruence; try lia.
      intros i j Hi Hacti Hj Hactj.
      destruct (Nat.eq_dec i n) as [-> | Hne].
      * apply Hval'; assumption.
      * assert (Hlt : (rank rmask i < rank rmask n)%nat)
          by (apply rank_lt; [lia | exact Hacti]).
        rewrite Hframe' by lia. apply Hval; try assumption. lia.
    + repeat split; try assumption; try lia.
      intros i j Hi Hacti Hj Hactj. apply Hval; try assumption.
      destruct (Nat.eq_dec i n) as [-> | Hne]; [congruence | lia].
Qed.

Lemma store_active_row_S (mask : bool_vector_type) (n : nat) (W0 : matrix_type)
    (iens i : nat) (dataW : matrix_type) :
  store_active_row mask (S n) W0 iens i dataW
  = (let '(d, j) := store_active_row mask n W0 iens i dataW in
     if bool_vector_iget mask n
     then (matrix_iset_safe d iens n (matrix_iget W0 i j), (j + 1)%nat)
     else (d, j)).
Proof.
  unfold store_active_row. rewrite seq_S, fold_left_app. reflexivity.
Qed.

Lemma store_active_row_spec (mask : bool_vector_type) (W0 : matrix_type)
    (iens i : nat) (dataW : matrix_type) (n : nat) :
  (iens < rows dataW)%nat -> (n <= columns dataW)%nat ->
  let r := store_active_row mask n W0 iens i dataW in
  snd r = rank mask n
  /\ rows (fst r) = rows dataW
  /\ columns (fst r) = columns dataW
  /\ (forall a b,
        elems (fst r) a b
        = if (a =? iens)%nat && (b <? n)%nat && bool_vector_iget mask b
          then elems W0 i (rank mask b)
          else elems dataW a b).
Proof.
  intros Hiens. induction n as [|n IH]; intros Hn.
  - cbn. repeat split. intros a b. now rewrite andb_false_r.
  - rewrite store_active_row_S.
    destruct (store_active_row mask n W0 iens i dataW) as [d j].
    cbn [fst snd] in IH. destruct IH as (Hj & Hr & Hcol & Hval); [lia|].
    subst j. cbn [rank].
    destruct (bool_vector_iget mask n) eqn:Hact; cbn [fst snd].
    + unfold matrix_iset_safe.
      replace ((iens <? rows d)%nat && (n <? columns d)%nat) with true
        by (symmetry; apply andb_true_intro; split; apply Nat.ltb_lt; lia).
      unfold matrix_iset, matrix_iget. cbn [rows columns elems].
      repeat split; try assumption.
      intros a b. rewrite Hval.
      destruct (Nat.eqb_spec a iens) as [Ha | Ha];
        destruct (Nat.eqb_spec b n) as [Hb | Hb];
        destruct (Nat.ltb_spec b n); destruct (Nat.ltb_spec b (S n));
        cbn [andb]; try lia; try reflexivity.
      subst b. now rewrite Hact.
    + repeat split; try assumption; try lia.
      intros a b. rewrite Hval.
      destruct (Nat.eqb_spec a iens) as [-> | Hne]; cbn [andb]; [|reflexivity].
      destruct (Nat.ltb_spec b n); destruct (Nat.ltb_spec b (S n));
        cbn [andb]; try lia; try reflexivity.
      assert (b = n) by lia. subst b. now rewrite Hact.
Qed.

Lemma store_active_rows_S (mask : bool_vector_type) (N : nat) (W0 : matrix_type)
    (n : nat) (dataW : matrix_type) :
  store_active_rows mask N W0 (S n) dataW
  = (let '(d, i) := store_active_rows mask N W0 n dataW in
     if bool_vector_iget mask n
     then (fst (store_active_row mask N W0 n i d), (i + 1)%nat)
     else (d, i)).
Proof.
  unfold store_active_rows. rewrite seq_S, fold_left_app. reflexivity.
Qed.

Lemma store_active_rows_spec (mask : bool_vector_type) (N : nat)
    (W0 dataW : matrix_type) (n : nat) :
  (n <= rows dataW)%nat -> (N <= columns dataW)%nat ->
  let r := store_active_rows mask N W0 n dataW in
  snd r = rank mask n
  /\ rows (fst r) = rows dataW
  /\ columns (fst r) = columns dataW
  /\ (forall a b,
        elems (fst r) a b
        = if (a <? n)%nat && bool_vector_iget mask a
             && ((b <? N)%nat && bool_vector_iget mask b)
          then elems W0 (rank mask a) (rank mask b)
          else elems dataW a b).
Proof.
  intros Hn HN. induction n as [|n IH].
  - cbn. repeat split.
  - rewrite store_active_rows_S.
    destruct (store_active_rows mask N W0 n dataW) as [d i].
    cbn [fst snd] in IH. destruct IH as (Hi & Hr & Hcol & Hval); [lia|].
    subst i. cbn [rank].
    destruct (bool_vector_iget mask n) eqn:Hact; cbn [fst snd].
    + destruct (store_active_row_spec mask W0 n (rank mask n) d N)
        as (_ & Hr' & Hcol' & Hval'); [lia | lia |].
      repeat split; try congruence.
      intros a b. rewrite Hval', Hval.
      destruct (Nat.eqb_spec a n) as [Ha | Ha];
        destruct (Nat.ltb_spec a n); destruct (Nat.ltb_spec a (S n));
        cbn [andb]; try lia.
      * subst a. rewrite Hact. cbn [andb].
        destruct ((b <? N)%nat && bool_vector_iget mask b); reflexivity.
      * reflexivity.
      * reflexivity.
    + repeat split; try assumption; try lia.
      intros a b. rewrite Hval.
      destruct (Nat.ltb_spec a n); destruct (Nat.ltb_spec a (S n));
        cbn [andb]; try lia; try reflexivity.
      assert (a = n) by lia. subst a. now rewrite Hact.
Qed.

(** C4: with W of the size of ens_mask, taking the active slice of W by
    alloc_active(W, ens_mask, ens_mask) and writing it back with
    linalg_store_active_W leaves every entry at an (active, active) pair as
    it was and makes every other entry zero; the shape of W and the mask are
    kept. *)
Theorem active_W_round_trip (data : data_type) :
  rows (data_getW data) = bool_vector_size (data_get_ens_mask data) ->
  columns (data_getW data) = bool_vector_size (data_get_ens_mask data) ->
  let W0 :=
    alloc_active (data_getW data) (data_get_ens_mask data)
      (data_get_ens_mask data) in
  let data' := linalg_store_active_W data W0 in
  rows (data_getW data') = rows (data_getW data)
  /\ columns (data_getW data') = columns (data_getW data)
  /\ data_get_ens_mask data' = data_get_ens_mask data
  /\ forall i j,
       matrix_iget (data_getW data') i j
       = if bool_vector_iget (data_get_ens_mask data) i
            && bool_vector_iget (data_get_ens_mask data) j
         then matrix_iget (data_getW data) i j
         else 0.
Proof.
  intros Hrows Hcols W0 data'.
  unfold data', linalg_store_active_W, data_get_ens_mask_size.
  unfold data_getW, data_get_ens_mask in *. cbn [W ens_mask data_setW].
  set (mask := ens_mask data) in *.
  set (N := bool_vector_size mask) in *.
  destruct (store_active_rows_spec mask N W0 (matrix_set (W data) 0) N)
    as (_ & Hr & Hc & Hval); [cbn; lia | cbn; lia |].
  repeat split; try assumption.
  intros i j. unfold matrix_iget. rewrite Hval. cbn [matrix_set elems].
  destruct (bool_vector_iget mask i) eqn:Hi;
    [|now rewrite andb_false_r].
  destruct (bool_vector_iget mask j) eqn:Hj;
    [|now rewrite !andb_false_r].
  pose proof (iget_true_lt mask i Hi) as Hilt.
  pose proof (iget_true_lt mask j Hj) as Hjlt.
  fold N in Hilt, Hjlt.
  rewrite (proj2 (Nat.ltb_lt i N) Hilt), (proj2 (Nat.ltb_lt j N) Hjlt).
  cbn [andb]. unfold W0, alloc_active. fold N.
  destruct (alloc_active_rows_spec (W data) mask mask N
              (matrix_alloc (bool_vector_count_equal mask true)
                 (bool_vector_count_equal mask true)) N)
    as (_ & _ & _ & Hcopy).
  apply Hcopy; assumption.
Qed.

Lemma active_W_round_trip_witness :
  let data' :=
    linalg_store_active_W Samples.shrunk_data
      (alloc_active (data_getW Samples.shrunk_data)
         (data_get_ens_mask Samples.shrunk_data)
         (data_get_ens_mask Samples.shrunk_data)) in
  matrix_iget (data_getW data') 2 0 = matrix_iget (data_getW Samples.shrunk_data) 2 0
  /\ matrix_iget (data_getW data') 1 1 = 0
  /\ matrix_iget (data_getW data') 0 1 = 0.
Proof.
  intro data'.
  destruct (active_W_round_trip Samples.shrunk_data eq_refl eq_refl)
    as (_ & _ & _ & Hval).
  repeat split; apply Hval.
Defined.

(** ** Finite sums *)

Lemma Rsum_ext (n : nat) (f g : nat -> R) :
  (forall k, (k < n)%nat -> f k = g k) -> Rsum n f = Rsum n g.
Proof.
  induction n as [|n IH]; intros Hfg; cbn; [reflexivity|].
  rewrite IH, Hfg by (intros; try apply Hfg; lia). reflexivity.
Qed.

Lemma Rsum_zero (n : nat) (f : nat -> R) :
  (forall k, (k < n)%nat -> f k = 0) -> Rsum n f = 0.
Proof.
  induction n as [|n IH]; intros Hf; cbn; [reflexivity|].
  rewrite IH, Hf by (intros; try apply Hf; lia). lra.
Qed.




Lemma Rsum_le (n : nat) (f g : nat -> R) :
  (forall k, (k < n)%nat -> f k <= g k) -> Rsum n f <= Rsum n g.
Proof.
  induction n as [|n IH]; intros Hfg; cbn; [lra|].
  assert (Rsum n f <= Rsum n g) by (apply IH; intros; apply Hfg; lia).
  assert (f n <= g n) by (apply Hfg; lia). lra.
Qed.

Lemma Rsum_nonneg (n : nat) (f : nat -> R) :
  (forall k, (k < n)%nat -> 0 <= f k) -> 0 <= Rsum n f.
Proof.
  intros Hf. rewrite <- (Rsum_zero n (fun _ => 0)) by reflexivity.
  apply Rsum_le. exact Hf.
Qed.

Lemma Rsum_delta (n i : nat) (f : nat -> R) :
  (i < n)%nat -> Rsum n (fun k => f k * delta k i) = f i.
Proof.
  unfold delta. induction n as [|n IH]; intros Hi; [lia|]. cbn.
  destruct (Nat.eqb_spec n i) as [-> | Hne].
  - rewrite Rsum_zero; [lra|].
    intros k Hk. destruct (Nat.eqb_spec k i); [lia | lra].
  - rewrite IH by lia. lra.
Qed.

(** ** The exact inversion *)

Lemma invert_and_scale_rows_S (n : nat) (eig : nat -> R) (M : matrix_type) :
  invert_and_scale_rows (S n) eig M
  = (let '(e, M') := invert_and_scale_rows n eig M in
     (vec_set e n (1 / e n),
      matrix_scale_row M' n (vec_set e n (1 / e n) n))).
Proof.
  unfold invert_and_scale_rows. rewrite seq_S, fold_left_app. cbn.
  destruct (fold_left _ (seq 0 n) (eig, M)). reflexivity.
Qed.

Lemma invert_and_scale_rows_spec (eig : nat -> R) (M : matrix_type) (n : nat) :
  let r := invert_and_scale_rows n eig M in
  (forall k, fst r k = if (k <? n)%nat then 1 / eig k else eig k)
  /\ rows (snd r) = rows M
  /\ columns (snd r) = columns M
  /\ (forall a b,
        elems (snd r) a b
        = if (a <? n)%nat then elems M a b * (1 / eig a) else elems M a b).
Proof.
  induction n as [|n IH].
  - cbn. repeat split.
  - rewrite invert_and_scale_rows_S.
    destruct (invert_and_scale_rows n eig M) as [e M'].
    cbn [fst snd] in IH. destruct IH as (He & Hr & Hc & Hval).
    cbn [fst snd]. unfold vec_set, matrix_scale_row. cbn [rows columns elems].
    repeat split; try assumption.
    + intros k. rewrite (He n), Nat.ltb_irrefl.
      destruct (Nat.eqb_spec k n) as [-> | Hne].
      * now rewrite (proj2 (Nat.ltb_lt n (S n))) by lia.
      * rewrite He.
        destruct (Nat.ltb_spec k n); destruct (Nat.ltb_spec k (S n));
          try lia; reflexivity.
    + intros a b. rewrite Nat.eqb_refl, (He n), Nat.ltb_irrefl, Hval.
      destruct (Nat.eqb_spec a n) as [-> | Hne].
      * rewrite Nat.ltb_irrefl.
        now rewrite (proj2 (Nat.ltb_lt n (S n))) by lia.
      * destruct (Nat.ltb_spec a n); destruct (Nat.ltb_spec a (S n));
          try lia; reflexivity.
Qed.

Lemma exact_StS_entries (Sm : matrix_type) (i j : nat) :
  matrix_iget (exact_StS Sm) i j
  = delta i j + Rsum (rows Sm) (fun r => elems Sm r i * elems Sm r j).
Proof.
  unfold exact_StS, matrix_iget, delta. cbn. lra.
Qed.

Section ExactInversion.

Context {kernel : LinalgKernel}.

Lemma linalg_exact_inversion_entries (W0 : matrix_type) (inv : Z)
    (Sm H : matrix_type) (steplength : R) (i j : nat) :
  let N := matrix_get_columns Sm in
  let svd := matrix_dgesvd DGESVD_ALL DGESVD_NONE (exact_StS Sm) in
  matrix_iget (linalg_exact_inversion W0 inv Sm H steplength) i j
  = (1 - steplength) * matrix_iget W0 i j
    + steplength
      * Rsum N (fun k =>
          svd_U svd i k
          * (1 / svd_S svd k
             * Rsum N (fun l =>
                 svd_U svd l k
                 * Rsum (rows Sm) (fun r => elems Sm r l * elems H r j)))).
Proof.
  intros N svd. unfold linalg_exact_inversion.
  fold N. fold svd.
  match goal with
  | |- context [invert_and_scale_rows N ?e ?M] =>
      pose proof (invert_and_scale_rows_spec e M N) as Hloop;
      destruct (invert_and_scale_rows N e M) as [e' M']
  end.
  cbn [fst snd] in Hloop. destruct Hloop as (_ & _ & _ & Hval).
  unfold matrix_iget, matrix_dgemm. cbn [elems inner_dim op matrix_fill
    matrix_alloc rows columns].
  match goal with
  | |- context [steplength * Rsum N ?F + _] =>
      rewrite (Rsum_ext N F
                 (fun k =>
                    svd_U svd i k
                    * (1 / svd_S svd k
                       * Rsum N (fun l =>
                           svd_U svd l k
                           * Rsum (rows Sm)
                               (fun r => elems Sm r l * elems H r j)))))
  end.
  - lra.
  - intros k Hk. rewrite Hval. rewrite (proj2 (Nat.ltb_lt k N) Hk).
    unfold matrix_dgemm.
    cbn [elems inner_dim op matrix_fill matrix_alloc rows columns].
    match goal with
    | |- context [1 * Rsum N ?F + _] =>
        rewrite (Rsum_ext N F
                   (fun l =>
                      svd_U svd l k
                      * Rsum (rows Sm) (fun r => elems Sm r l * elems H r j)))
    end.
    + lra.
    + intros l Hl. lra.
Qed.

Lemma linalg_exact_inversion_shape (W0 : matrix_type) (inv : Z)
    (Sm H : matrix_type) (steplength : R) :
  rows (linalg_exact_inversion W0 inv Sm H steplength) = rows W0
  /\ columns (linalg_exact_inversion W0 inv Sm H steplength) = columns W0.
Proof.
  unfold linalg_exact_inversion.
  destruct (invert_and_scale_rows _ _ _). split; reflexivity.
Qed.

End ExactInversion.

(** C5: on inputs of matching shapes, linalg_exact_inversion hands
    StS = I + S^T S to the SVD and, with Z and Lambda the left singular
    vectors and singular values that come back, leaves in W0 the matrix
    (1 - gamma) W0 + gamma Z (Lambda^-1 Z^T S^T H), row k of Z^T S^T H being
    scaled by 1/Lambda_kk. *)
Theorem exact_inversion_update (kernel : LinalgKernel) (W0 : matrix_type)
    (inv : Z) (Sm H : matrix_type) (steplength : R) :
  let N := matrix_get_columns Sm in
  let m := matrix_get_rows Sm in
  rows H = m -> columns H = N -> rows W0 = N -> columns W0 = N ->
  let StS := exact_StS Sm in
  let svd := matrix_dgesvd DGESVD_ALL DGESVD_NONE StS in
  let Zm := svd_U svd in
  let Lambda := svd_S svd in
  let W' := linalg_exact_inversion W0 inv Sm H steplength in
  (rows StS = N /\ columns StS = N
   /\ forall i j,
        matrix_iget StS i j
        = delta i j + Rsum m (fun r => matrix_iget Sm r i * matrix_iget Sm r j))
  /\ rows W' = N /\ columns W' = N
  /\ forall i j,
       matrix_iget W' i j
       = (1 - steplength) * matrix_iget W0 i j
         + steplength
           * Rsum N (fun k =>
               Zm i k
               * (1 / Lambda k
                  * Rsum N (fun l =>
                      Zm l k
                      * Rsum m (fun r =>
                          matrix_iget Sm r l * matrix_iget H r j)))).
Proof.
  intros N m HrH HcH HrW HcW StS svd Zm Lambda W'.
  split; [|split; [|split]].
  - repeat split. intros i j. apply exact_StS_entries.
  - unfold W'. rewrite (proj1 (linalg_exact_inversion_shape _ _ _ _ _)).
    exact HrW.
  - unfold W'. rewrite (proj2 (linalg_exact_inversion_shape _ _ _ _ _)).
    exact HcW.
  - intros i j. apply linalg_exact_inversion_entries.
Qed.

Lemma exact_inversion_update_witness :
  let W' :=
    @linalg_exact_inversion Samples.unit_kernel (matrix_alloc 2 2)
      IES_INVERSION_EXACT (matrix_alloc 1 2) (matrix_alloc 1 2) 1 in
  rows W' = 2%nat /\ columns W' = 2%nat.
Proof.
  intro W'.
  destruct (exact_inversion_update Samples.unit_kernel (matrix_alloc 2 2)
              IES_INVERSION_EXACT (matrix_alloc 1 2) (matrix_alloc 1 2) 1
              eq_refl eq_refl eq_refl eq_refl)
    as (_ & Hr & Hc & _).
  split; assumption.
Defined.

(** ** No innovation, no update *)




Lemma iadd_diagonal_spec (M : matrix_type) (n : nat) :
  rows (iadd_diagonal M n) = rows M
  /\ columns (iadd_diagonal M n) = columns M
  /\ forall a b,
       elems (iadd_diagonal M n) a b
       = if (a =? b)%nat && (a <? n)%nat then elems M a b + 1 else elems M a b.
Proof.
  unfold iadd_diagonal. induction n as [|n IH].
  - cbn. repeat split. intros a b. now rewrite andb_false_r.
  - rewrite seq_S, fold_left_app. cbn [fold_left Nat.add].
    destruct IH as (Hr & Hc & Hval).
    unfold matrix_iadd at 1 3 5. unfold matrix_iset, matrix_iget.
    cbn [rows columns elems]. repeat split; try assumption.
    intros a b. rewrite !Hval. rewrite Nat.eqb_refl, Nat.ltb_irrefl.
    cbn [andb].
    destruct (Nat.eqb_spec a n) as [Ha | Ha];
      destruct (Nat.eqb_spec b n) as [Hb | Hb];
      destruct (Nat.eqb_spec a b) as [Hab | Hab];
      destruct (Nat.ltb_spec a n); destruct (Nat.ltb_spec a (S n));
      cbn [andb]; try lia; try reflexivity.
    subst a b. reflexivity.
Qed.

Section NoInnovation.

Context {kernel : LinalgKernel}.



End NoInnovation.



(** ** The step-length schedule *)

Lemma ln_2_pos : 0 < ln 2.
Proof.
  rewrite <- ln_1. apply ln_increasing; lra.
Qed.

Lemma steplength_gap (c : config_type) (iter : Z) :
  calculate_steplength c iter - get_min_steplength c
  = (get_max_steplength c - get_min_steplength c)
    * Rpower 2 (- (IZR iter - 1) / (get_dec_steplength c - 1)).
Proof.
  unfold calculate_steplength. lra.
Qed.

Lemma steplength_decreasing (c : config_type) (iter1 iter2 : Z) :
  get_min_steplength c <= get_max_steplength c ->
  1 < get_dec_steplength c ->
  (iter1 < iter2)%Z ->
  calculate_steplength c iter2 <= calculate_steplength c iter1.
Proof.
  intros Hmm Hdec Hlt.
  assert (Hgap : calculate_steplength c iter2 - get_min_steplength c
                 <= calculate_steplength c iter1 - get_min_steplength c).
  { rewrite !steplength_gap.
    apply Rmult_le_compat_l; [lra|].
    left. apply Rpower_lt; [lra|].
    assert (Hi : IZR iter1 < IZR iter2) by (apply IZR_lt; exact Hlt).
    unfold Rdiv. apply Rmult_lt_compat_r.
    - apply Rinv_0_lt_compat. lra.
    - lra. }
  lra.
Qed.

Lemma steplength_limit (c : config_type) :
  get_min_steplength c <= get_max_steplength c ->
  1 < get_dec_steplength c ->
  Un_cv (fun n => calculate_steplength c (Z.of_nat n)) (get_min_steplength c).
Proof.
  intros Hmm Hdec eps Heps.
  set (C := get_max_steplength c - get_min_steplength c).
  set (d := get_dec_steplength c - 1).
  assert (Hd : 0 < d) by (unfold d; lra).
  assert (HC : 0 <= C) by (unfold C; lra).
  pose proof ln_2_pos as Hln.
  set (K := 1 + d * (C / eps) / ln 2).
  assert (HK : 1 <= K).
  { unfold K.
    assert (0 <= d * (C / eps) / ln 2); [|lra].
    unfold Rdiv. repeat apply Rmult_le_pos; try lra;
      left; apply Rinv_0_lt_compat; lra. }
  destruct (archimed K) as [Hup _].
  assert (Hupz : (0 <= up K)%Z).
  { apply le_IZR. lra. }
  exists (Z.to_nat (up K)). intros n Hn.
  unfold R_dist. rewrite steplength_gap. fold C. fold d.
  assert (HnK : K < INR n).
  { apply Rlt_le_trans with (IZR (up K)); [exact Hup|].
    rewrite <- (Z2Nat.id (up K)) by exact Hupz.
    rewrite <- INR_IZR_INZ. apply le_INR. exact Hn. }
  rewrite <- INR_IZR_INZ.
  set (x := (INR n - 1) / d * ln 2).
  assert (Hx : C / eps < x).
  { unfold x.
    assert (Hstep : d * (C / eps) / ln 2 < INR n - 1) by (unfold K in HnK; lra).
    apply Rmult_lt_reg_r with (/ ln 2); [apply Rinv_0_lt_compat; lra|].
    apply Rmult_lt_reg_l with d; [exact Hd|].
    replace (d * ((INR n - 1) / d * ln 2 * / ln 2)) with (INR n - 1)
      by (field; lra).
    replace (d * (C / eps * / ln 2)) with (d * (C / eps) / ln 2)
      by (field; lra).
    exact Hstep. }
  assert (Hx0 : 0 < x).
  { apply Rle_lt_trans with (C / eps); [|exact Hx].
    unfold Rdiv. apply Rmult_le_pos; [lra|].
    left. apply Rinv_0_lt_compat. lra. }
  replace (Rpower 2 (- (INR n - 1) / d)) with (/ exp x).
  2:{ unfold Rpower, x. rewrite <- exp_Ropp. f_equal. field. lra. }
  assert (Hexp : 1 + x < exp x) by (apply exp_ineq1; lra).
  pose proof (exp_pos x) as Hpos.
  assert (Hbound : C < eps * exp x).
  { assert (Hce : C / eps < exp x) by lra.
    apply Rmult_lt_compat_l with (r := eps) in Hce; [|lra].
    replace (eps * (C / eps)) with C in Hce by (field; lra). exact Hce. }
  assert (Hval : 0 <= C * / exp x < eps).
  { split.
    - apply Rmult_le_pos; [lra|]. left. apply Rinv_0_lt_compat. lra.
    - apply Rmult_lt_reg_r with (exp x); [lra|].
      replace (C * / exp x * exp x) with C by (field; lra). exact Hbound. }
  rewrite Rabs_right; lra.
Qed.

(** C6: with gamma_max >= gamma_min > 0 and decay > 1,
    calculate_steplength(iter) is
    gamma_min + (gamma_max - gamma_min) * 2^(-(iter-1)/(decay-1)), does not
    increase with iter, and tends to gamma_min as iter grows. *)
Theorem steplength_schedule (c : config_type) :
  0 < get_min_steplength c ->
  get_min_steplength c <= get_max_steplength c ->
  1 < get_dec_steplength c ->
  (forall iter : Z,
     calculate_steplength c iter
     = get_min_steplength c
       + (get_max_steplength c - get_min_steplength c)
         * Rpower 2 (- (IZR iter - 1) / (get_dec_steplength c - 1)))
  /\ (forall iter1 iter2 : Z,
        (iter1 < iter2)%Z ->
        calculate_steplength c iter2 <= calculate_steplength c iter1)
  /\ Un_cv (fun n => calculate_steplength c (Z.of_nat n))
       (get_min_steplength c).
Proof.
  intros Hmin Hmm Hdec. split; [|split].
  - intros iter. reflexivity.
  - intros iter1 iter2. apply steplength_decreasing; assumption.
  - apply steplength_limit; assumption.
Qed.

Lemma steplength_schedule_witness :
  calculate_steplength Samples.sample_config 2
  <= calculate_steplength Samples.sample_config 1
  /\ calculate_steplength Samples.sample_config 1 = 6 / 10.
Proof.
  assert (Hmin : 0 < get_min_steplength Samples.sample_config) by (cbn; lra).
  assert (Hmm : get_min_steplength Samples.sample_config
                <= get_max_steplength Samples.sample_config) by (cbn; lra).
  assert (Hdec : 1 < get_dec_steplength Samples.sample_config) by (cbn; lra).
  destruct (steplength_schedule Samples.sample_config Hmin Hmm Hdec)
    as (Hformula & Hmono & _).
  split.
  - apply Hmono. lia.
  - rewrite Hformula. cbn.
    replace (- (1 - 1) / (25 / 10 - 1)) with 0 by (field; lra).
    rewrite Rpower_O by lra. lra.
Defined.

(** ** The singular values of I + S^T S *)














(** * Further properties of the update code *)

(** ** Masks and ranks *)

Lemma rank_app_le (l : bool_vector_type) (b : bool) (k : nat) :
  (k <= List.length l)%nat -> rank (l ++ [b]) k = rank l k.
Proof.
  induction k as [|k IH]; intros Hk; [reflexivity|].
  cbn [rank]. rewrite IH by lia. unfold bool_vector_iget.
  rewrite app_nth1 by lia. reflexivity.
Qed.

Lemma rank_count (mask : bool_vector_type) :
  rank mask (bool_vector_size mask) = bool_vector_count_equal mask true.
Proof.
  unfold bool_vector_size, bool_vector_count_equal.
  induction mask as [|b l IH] using rev_ind; [reflexivity|].
  rewrite length_app, filter_app, length_app. cbn [List.length].
  rewrite Nat.add_1_r. cbn [rank].
  rewrite rank_app_le by lia. rewrite IH.
  unfold bool_vector_iget. rewrite app_nth2 by lia.
  rewrite Nat.sub_diag. cbn [nth filter].
  destruct b; cbn; lia.
Qed.

Lemma rank_surj (mask : bool_vector_type) (n r : nat) :
  (r < rank mask n)%nat ->
  exists i, (i < n)%nat /\ bool_vector_iget mask i = true /\ rank mask i = r.
Proof.
  induction n as [|n IH]; cbn [rank]; intros Hr; [lia|].
  destruct (bool_vector_iget mask n) eqn:Hn.
  - destruct (Nat.eq_dec r (rank mask n)) as [-> | Hne].
    + exists n. repeat split; [lia | exact Hn].
    + destruct IH as (i & Hi & Hact & Hrank); [lia|].
      exists i. repeat split; [lia | exact Hact | exact Hrank].
  - destruct IH as (i & Hi & Hact & Hrank); [lia|].
    exists i. repeat split; [lia | exact Hact | exact Hrank].
Qed.

Lemma rank_inj (mask : bool_vector_type) (a b : nat) :
  bool_vector_iget mask a = true -> bool_vector_iget mask b = true ->
  rank mask a = rank mask b -> a = b.
Proof.
  intros Ha Hb Hr.
  destruct (Nat.lt_trichotomy a b) as [Hlt | [Heq | Hgt]]; [|exact Heq|].
  - pose proof (rank_lt mask a b Hlt Ha). lia.
  - pose proof (rank_lt mask b a Hgt Hb). lia.
Qed.

Lemma rank_active_lt_count (mask : bool_vector_type) (i : nat) :
  bool_vector_iget mask i = true ->
  (rank mask i < bool_vector_count_equal mask true)%nat.
Proof.
  intros Hi. rewrite <- rank_count.
  apply rank_lt; [apply iget_true_lt|]; exact Hi.
Qed.

Lemma iget_alloc_true (n i : nat) :
  (i < n)%nat -> bool_vector_iget (bool_vector_alloc n true) i = true.
Proof.
  unfold bool_vector_iget, bool_vector_alloc. revert i.
  induction n as [|n IH]; intros i Hi; [lia|].
  destruct i as [|i]; cbn; [reflexivity | apply IH; lia].
Qed.

Lemma rank_alloc_true (n i : nat) :
  (i <= n)%nat -> rank (bool_vector_alloc n true) i = i.
Proof.
  induction i as [|i IH]; intros Hi; [reflexivity|].
  cbn [rank]. rewrite IH by lia. rewrite iget_alloc_true by lia. lia.
Qed.

Lemma alloc_active_shape (full : matrix_type) (rmask cmask : bool_vector_type) :
  rows (alloc_active full rmask cmask) = bool_vector_count_equal rmask true
  /\ columns (alloc_active full rmask cmask) = bool_vector_count_equal cmask true.
Proof.
  unfold alloc_active.
  destruct (alloc_active_rows_spec full rmask cmask (bool_vector_size cmask)
              (matrix_alloc (bool_vector_count_equal rmask true)
                 (bool_vector_count_equal cmask true))
              (bool_vector_size rmask)) as (_ & Hr & Hc & _).
  split; assumption.
Qed.

Lemma alloc_active_entry (full : matrix_type) (rmask cmask : bool_vector_type)
    (i j : nat) :
  bool_vector_iget rmask i = true -> bool_vector_iget cmask j = true ->
  elems (alloc_active full rmask cmask) (rank rmask i) (rank cmask j)
  = elems full i j.
Proof.
  intros Hi Hj. unfold alloc_active.
  destruct (alloc_active_rows_spec full rmask cmask (bool_vector_size cmask)
              (matrix_alloc (bool_vector_count_equal rmask true)
                 (bool_vector_count_equal cmask true))
              (bool_vector_size rmask)) as (_ & _ & _ & Hval).
  apply Hval; try assumption; apply iget_true_lt; assumption.
Qed.

(** X1: alloc_active returns a matrix with one row per active row index and
    one column per active column index; the entry of the full matrix at an
    active pair (i, j) lands at (rank i, rank j), the ranks keep the order
    of the indices, and every entry of the result comes from such a pair. *)
Theorem alloc_active_selects_active_entries (full : matrix_type)
    (row_mask column_mask : bool_vector_type) :
  let active := alloc_active full row_mask column_mask in
  rows active = bool_vector_count_equal row_mask true
  /\ columns active = bool_vector_count_equal column_mask true
  /\ (forall i j,
        bool_vector_iget row_mask i = true ->
        bool_vector_iget column_mask j = true ->
        matrix_iget active (rank row_mask i) (rank column_mask j)
        = matrix_iget full i j)
  /\ (forall i i',
        (i < i')%nat -> bool_vector_iget row_mask i = true ->
        (rank row_mask i < rank row_mask i')%nat)
  /\ (forall r c,
        (r < rows active)%nat -> (c < columns active)%nat ->
        exists i j,
          bool_vector_iget row_mask i = true
          /\ bool_vector_iget column_mask j = true
          /\ rank row_mask i = r /\ rank column_mask j = c
          /\ matrix_iget active r c = matrix_iget full i j).
Proof.
  intros active.
  destruct (alloc_active_shape full row_mask column_mask) as (Hr & Hc).
  split; [exact Hr|]. split; [exact Hc|]. split; [|split].
  - intros i j Hi Hj. apply alloc_active_entry; assumption.
  - intros i i' Hlt Hi. apply rank_lt; assumption.
  - intros r c Hrlt Hclt. unfold active in Hrlt, Hclt.
    rewrite Hr, <- rank_count in Hrlt. rewrite Hc, <- rank_count in Hclt.
    destruct (rank_surj row_mask _ r Hrlt) as (i & _ & Hi & Hri).
    destruct (rank_surj column_mask _ c Hclt) as (j & _ & Hj & Hcj).
    exists i, j. repeat split; try assumption.
    subst r c. apply alloc_active_entry; assumption.
Qed.

(** X2: alloc_activeA keeps every row of A0 and the columns of the active
    realizations: the result has the rows of A0, one column per active
    realization, and A0(i, j) sits at (i, rank j) for every active j. *)
Theorem alloc_activeA_keeps_all_rows (data : data_type) :
  let A := alloc_activeA data in
  rows A = rows (data_getA0 data)
  /\ columns A = bool_vector_count_equal (data_get_ens_mask data) true
  /\ forall i j,
       (i < rows (data_getA0 data))%nat ->
       bool_vector_iget (data_get_ens_mask data) j = true ->
       matrix_iget A i (rank (data_get_ens_mask data) j)
       = matrix_iget (data_getA0 data) i j.
Proof.
  intros A. unfold A, alloc_activeA, matrix_get_rows.
  set (n := rows (data_getA0 data)).
  destruct (alloc_active_shape (data_getA0 data) (bool_vector_alloc n true)
              (data_get_ens_mask data)) as (Hr & Hc).
  split; [|split; [exact Hc|]].
  - rewrite Hr, <- rank_count.
    unfold bool_vector_size, bool_vector_alloc. rewrite repeat_length.
    apply rank_alloc_true. lia.
  - intros i j Hi Hj. unfold matrix_iget.
    rewrite <- (rank_alloc_true n i) at 1 by lia.
    apply alloc_active_entry; [apply iget_alloc_true; exact Hi | exact Hj].
Qed.

(** ** Writing the active W back *)

Lemma store_active_W_W (data : data_type) (W0 : matrix_type) :
  rows (data_getW data) = bool_vector_size (data_get_ens_mask data) ->
  columns (data_getW data) = bool_vector_size (data_get_ens_mask data) ->
  let W' := data_getW (linalg_store_active_W data W0) in
  rows W' = rows (data_getW data)
  /\ columns W' = columns (data_getW data)
  /\ forall i j,
       elems W' i j
       = if bool_vector_iget (data_get_ens_mask data) i
            && bool_vector_iget (data_get_ens_mask data) j
         then elems W0 (rank (data_get_ens_mask data) i)
                (rank (data_get_ens_mask data) j)
         else 0.
Proof.
  intros Hrows Hcols W'.
  unfold W', linalg_store_active_W, data_get_ens_mask_size.
  unfold data_getW, data_get_ens_mask in *. cbn [W ens_mask data_setW].
  set (mask := ens_mask data) in *.
  set (N := bool_vector_size mask) in *.
  destruct (store_active_rows_spec mask N W0 (matrix_set (W data) 0) N)
    as (_ & Hr & Hc & Hval); [cbn; lia | cbn; lia |].
  repeat split; try assumption.
  intros i j. rewrite Hval. cbn [matrix_set elems].
  destruct (bool_vector_iget mask i) eqn:Hi;
    [|now rewrite andb_false_r].
  destruct (bool_vector_iget mask j) eqn:Hj;
    [|now rewrite !andb_false_r].
  pose proof (iget_true_lt mask i Hi) as Hilt.
  pose proof (iget_true_lt mask j Hj) as Hjlt.
  fold N in Hilt, Hjlt.
  rewrite (proj2 (Nat.ltb_lt i N) Hilt), (proj2 (Nat.ltb_lt j N) Hjlt).
  reflexivity.
Qed.

Lemma store_active_W_frame (data : data_type) (W0 : matrix_type) :
  let data' := linalg_store_active_W data W0 in
  config data' = config data /\ E data' = E data /\ A0 data' = A0 data
  /\ ens_mask data' = ens_mask data /\ obs_mask data' = obs_mask data
  /\ obs_mask0 data' = obs_mask0 data
  /\ iteration_nr data' = iteration_nr data
  /\ state_size data' = state_size data.
Proof.
  cbn. repeat split.
Qed.

(** X3: for a state whose W has the size of ens_mask, linalg_store_active_W
    writes entry (rank i, rank j) of the active matrix to W(i, j) for every
    pair of active realizations and leaves zero in every row and column of
    an inactive realization; the shape of W and every other field of the
    state are kept. *)
Theorem store_active_W_zero_pads_inactive (data : data_type) (W0 : matrix_type) :
  rows (data_getW data) = bool_vector_size (data_get_ens_mask data) ->
  columns (data_getW data) = bool_vector_size (data_get_ens_mask data) ->
  let data' := linalg_store_active_W data W0 in
  let mask := data_get_ens_mask data in
  rows (data_getW data') = rows (data_getW data)
  /\ columns (data_getW data') = columns (data_getW data)
  /\ (forall i j,
        bool_vector_iget mask i = true -> bool_vector_iget mask j = true ->
        matrix_iget (data_getW data') i j
        = matrix_iget W0 (rank mask i) (rank mask j))
  /\ (forall i j,
        bool_vector_iget mask i = false \/ bool_vector_iget mask j = false ->
        matrix_iget (data_getW data') i j = 0)
  /\ data_get_ens_mask data' = mask
  /\ data_get_config data' = data_get_config data
  /\ data_get_iteration_nr data' = data_get_iteration_nr data
  /\ data_getE data' = data_getE data
  /\ data_getA0 data' = data_getA0 data
  /\ data_get_obs_mask data' = data_get_obs_mask data
  /\ obs_mask0 data' = obs_mask0 data
  /\ state_size data' = state_size data.
Proof.
  intros Hrows Hcols data' mask.
  destruct (store_active_W_W data W0 Hrows Hcols) as (Hr & Hc & Hval).
  split; [exact Hr|]. split; [exact Hc|]. split; [|split].
  - intros i j Hi Hj. unfold matrix_iget, data'. rewrite Hval.
    fold mask. now rewrite Hi, Hj.
  - intros i j Hij. unfold matrix_iget, data'. rewrite Hval. fold mask.
    destruct Hij as [Hi | Hj]; [now rewrite Hi|].
    rewrite Hj. now rewrite andb_false_r.
  - repeat split.
Qed.

Lemma store_active_W_zero_pads_inactive_witness :
  let data' :=
    linalg_store_active_W Samples.shrunk_data
      (mk_matrix 2 2 (fun i j => INR (10 * i + j))) in
  matrix_iget (data_getW data') 2 0 = INR (10 * 1 + 0)
  /\ matrix_iget (data_getW data') 1 2 = 0.
Proof.
  intro data'.
  destruct (store_active_W_zero_pads_inactive Samples.shrunk_data
              (mk_matrix 2 2 (fun i j => INR (10 * i + j))) eq_refl eq_refl)
    as (_ & _ & Hact & Hzero & _).
  split.
  - apply (Hact 2%nat 0%nat); reflexivity.
  - apply (Hzero 1%nat 2%nat). left. reflexivity.
Defined.

(** X4: writing an active matrix back with linalg_store_active_W and taking
    the active slice again with alloc_activeW returns the same entries: the
    slice has one row and column per active realization and agrees with the
    matrix that was stored. *)
Theorem store_then_alloc_activeW (data : data_type) (W0 : matrix_type) :
  rows (data_getW data) = bool_vector_size (data_get_ens_mask data) ->
  columns (data_getW data) = bool_vector_size (data_get_ens_mask data) ->
  let N := bool_vector_count_equal (data_get_ens_mask data) true in
  let W1 := alloc_activeW (linalg_store_active_W data W0) in
  rows W1 = N /\ columns W1 = N
  /\ forall r c, (r < N)%nat -> (c < N)%nat ->
       matrix_iget W1 r c = matrix_iget W0 r c.
Proof.
  intros Hrows Hcols N W1.
  destruct (store_active_W_W data W0 Hrows Hcols) as (_ & _ & Hval).
  unfold W1, alloc_activeW.
  replace (data_get_ens_mask (linalg_store_active_W data W0))
    with (data_get_ens_mask data) by reflexivity.
  set (mask := data_get_ens_mask data) in *.
  destruct (alloc_active_shape (data_getW (linalg_store_active_W data W0))
              mask mask) as (Hr & Hc).
  split; [exact Hr|]. split; [exact Hc|].
  intros r c Hrlt Hclt. unfold N in Hrlt, Hclt.
  rewrite <- rank_count in Hrlt, Hclt.
  destruct (rank_surj mask _ r Hrlt) as (i & _ & Hi & Hri).
  destruct (rank_surj mask _ c Hclt) as (j & _ & Hj & Hcj).
  subst r c. unfold matrix_iget.
  rewrite alloc_active_entry by assumption.
  rewrite Hval, Hi, Hj. reflexivity.
Qed.

Lemma store_then_alloc_activeW_witness :
  matrix_iget
    (alloc_activeW
       (linalg_store_active_W Samples.shrunk_data
          (mk_matrix 2 2 (fun i j => INR (10 * i + j))))) 1 0
  = INR (10 * 1 + 0).
Proof.
  destruct (store_then_alloc_activeW Samples.shrunk_data
              (mk_matrix 2 2 (fun i j => INR (10 * i + j))) eq_refl eq_refl)
    as (_ & _ & Hval).
  apply (Hval 1%nat 0%nat); cbn; lia.
Defined.

(** ** The transform X, the stored W and the cost function *)

Lemma fold_left_Rsum (f : nat -> R) (n : nat) :
  fold_left (fun acc i => acc + f i) (seq 0 n) 0 = Rsum n f.
Proof.
  induction n as [|n IH]; [reflexivity|].
  rewrite seq_S, fold_left_app, IH. reflexivity.
Qed.

Lemma subspace_inversion_shape {kernel : LinalgKernel} (W0 : matrix_type)
    (inv : Z) (E Rm Sm H : matrix_type) (t : truncation_type) (g : R) :
  rows (linalg_subspace_inversion W0 inv E Rm Sm H t g) = rows W0
  /\ columns (linalg_subspace_inversion W0 inv E Rm Sm H t g) = columns W0.
Proof.
  split; reflexivity.
Qed.

(** X5: ies_initX__ changes nothing in the state but W.  With W of the size
    of ens_mask and as many active realizations as Y0 has columns, the
    matrix X it returns and the W it stores agree: for active realizations
    a and b, X(rank a, rank b) = delta(a, b) + W(a, b) / sqrt(N - 1), while
    the rows and columns of W of inactive realizations are zero.  N is at
    least 2: the factor 1 / sqrt(N - 1) of the code is a number only
    there. *)
Theorem initX_X_is_identity_plus_stored_W (kernel : LinalgKernel)
    (A : option matrix_type) (Y0 Rm E D X : matrix_type)
    (ies_inversion : inversion_type) (truncation : truncation_type)
    (use_aa_projection : bool) (data : data_type) (ies_steplength : R)
    (iteration_nr : Z) (want_costf : bool) :
  let N := matrix_get_columns Y0 in
  let mask := data_get_ens_mask data in
  (2 <= N)%nat ->
  bool_vector_count_equal mask true = N ->
  rows (data_getW data) = bool_vector_size mask ->
  columns (data_getW data) = bool_vector_size mask ->
  let r :=
    ies_initX__ A Y0 Rm E D X ies_inversion truncation use_aa_projection
      data ies_steplength iteration_nr want_costf in
  let X' := fst (fst r) in
  let data' := snd (fst r) in
  (forall a b,
     bool_vector_iget mask a = true -> bool_vector_iget mask b = true ->
     matrix_iget X' (rank mask a) (rank mask b)
     = delta a b + matrix_iget (data_getW data') a b * (1 / sqrt (INR N - 1)))
  /\ (forall a b,
        bool_vector_iget mask a = false \/ bool_vector_iget mask b = false ->
        matrix_iget (data_getW data') a b = 0)
  /\ rows (data_getW data') = rows (data_getW data)
  /\ columns (data_getW data') = columns (data_getW data)
  /\ data_get_ens_mask data' = mask
  /\ data_get_obs_mask data' = data_get_obs_mask data
  /\ data_get_config data' = data_get_config data
  /\ data_get_iteration_nr data' = data_get_iteration_nr data
  /\ data_getE data' = data_getE data
  /\ data_getA0 data' = data_getA0 data.
Proof.
  intros N mask _ Hcount HrW HcW r X' data'.
  unfold X', data', r, ies_initX__. cbn [fst snd]. fold N.
  match goal with
  | |- context [linalg_store_active_W data ?M] => set (W0' := M)
  end.
  destruct (store_active_W_W data W0' HrW HcW) as (Hr & Hc & Hval).
  fold mask in Hval.
  destruct (iadd_diagonal_spec
              (matrix_scale (matrix_assign X W0') (1 / sqrt (INR N - 1))) N)
    as (_ & _ & HX).
  split; [|split].
  - intros a b Ha Hb. unfold matrix_iget.
    rewrite HX, Hval, Ha, Hb. cbn [andb matrix_scale matrix_assign elems].
    assert (HaN : (rank mask a < N)%nat)
      by (rewrite <- Hcount; apply rank_active_lt_count; exact Ha).
    rewrite (proj2 (Nat.ltb_lt _ _) HaN), andb_true_r. unfold delta.
    destruct (Nat.eqb_spec a b) as [Hab | Hab].
    + subst b. rewrite Nat.eqb_refl. lra.
    + destruct (Nat.eqb_spec (rank mask a) (rank mask b)) as [Hrk | Hrk].
      * exfalso. apply Hab. apply (rank_inj mask); assumption.
      * lra.
  - intros a b Hab. unfold matrix_iget. rewrite Hval.
    destruct Hab as [Ha | Hb]; [now rewrite Ha|].
    rewrite Hb. now rewrite andb_false_r.
  - split; [exact Hr|]. split; [exact Hc|]. repeat split.
Qed.

Lemma initX_X_is_identity_plus_stored_W_witness :
  let r :=
    @ies_initX__ Samples.unit_kernel None (mk_matrix 1 2 (fun _ j => INR j))
      (matrix_alloc 1 1) (matrix_alloc 1 2)
      (mk_matrix 1 2 (fun _ j => INR (j + 1))) (matrix_alloc 2 2)
      IES_INVERSION_EXACT (TruncationFraction 1) false
      (mk_data Samples.sample_config
         (mk_matrix 3 3 (fun i j => INR (3 * i + j + 1)))
         (matrix_alloc 1 3) (matrix_alloc 1 3) [true; false; true] [true]
         [true] 2%Z 1%nat)
      (1 / 2) 3 false in
  matrix_iget (fst (fst r)) 1 0
  = delta 2 0
    + matrix_iget (data_getW (snd (fst r))) 2 0 * (1 / sqrt (INR 2 - 1)).
Proof.
  intro r.
  destruct (initX_X_is_identity_plus_stored_W Samples.unit_kernel None
              (mk_matrix 1 2 (fun _ j => INR j)) (matrix_alloc 1 1)
              (matrix_alloc 1 2) (mk_matrix 1 2 (fun _ j => INR (j + 1)))
              (matrix_alloc 2 2) IES_INVERSION_EXACT (TruncationFraction 1)
              false
              (mk_data Samples.sample_config
                 (mk_matrix 3 3 (fun i j => INR (3 * i + j + 1)))
                 (matrix_alloc 1 3) (matrix_alloc 1 3) [true; false; true]
                 [true] [true] 2%Z 1%nat)
              (1 / 2) 3 false (le_n 2) eq_refl eq_refl eq_refl)
    as (HX & _).
  apply (HX 2%nat 0%nat); reflexivity.
Defined.

(** X6: the cost function that ies_initX__ reports is the mean over the
    realizations of |W_i|^2 + |D_i|^2, W being the active slice of the
    stored W before the update; it does not depend on the inversion tag,
    the truncation or the step length, it is not negative for a non-empty
    ensemble, and nothing is reported when the costf pointer is null. *)
Theorem initX_cost_function_of_previous_iterate (kernel : LinalgKernel)
    (A : option matrix_type) (Y0 Rm E D X : matrix_type)
    (ies_inversion : inversion_type) (truncation : truncation_type)
    (use_aa_projection : bool) (data : data_type) (ies_steplength : R)
    (iteration_nr : Z) :
  let N := matrix_get_columns Y0 in
  let W := alloc_activeW data in
  let cost :=
    Rsum N (fun i =>
      Rsum (rows W) (fun r => matrix_iget W r i * matrix_iget W r i)
      + Rsum (rows D) (fun r => matrix_iget D r i * matrix_iget D r i))
    / INR N in
  snd (ies_initX__ A Y0 Rm E D X ies_inversion truncation use_aa_projection
         data ies_steplength iteration_nr true) = Some cost
  /\ snd (ies_initX__ A Y0 Rm E D X ies_inversion truncation
            use_aa_projection data ies_steplength iteration_nr false) = None
  /\ ((1 <= N)%nat -> 0 <= cost).
Proof.
  intros N W cost. split; [|split].
  - unfold ies_initX__. cbn [snd]. fold N. fold W.
    unfold matrix_alloc_copy. rewrite fold_left_Rsum. reflexivity.
  - reflexivity.
  - intros HN. unfold cost, Rdiv. apply Rmult_le_pos.
    + apply Rsum_nonneg. intros i _.
      apply Rplus_le_le_0_compat; apply Rsum_nonneg; intros r _; nra.
    + left. apply Rinv_0_lt_compat. apply lt_0_INR. lia.
Qed.

(** ** Edge cases of the inversion routines *)

(** X7: with a step length of zero both inversion routines give W0 back
    entry for entry, whatever the factorisations return. *)
Theorem steplength_zero_keeps_W0 (kernel : LinalgKernel)
    (W0 E Rm Sm H : matrix_type) (ies_inversion : Z)
    (truncation : truncation_type) :
  (forall i j,
     matrix_iget (linalg_exact_inversion W0 ies_inversion Sm H 0) i j
     = matrix_iget W0 i j)
  /\ (forall i j,
        matrix_iget
          (linalg_subspace_inversion W0 ies_inversion E Rm Sm H truncation 0)
          i j
        = matrix_iget W0 i j)
  /\ rows (linalg_exact_inversion W0 ies_inversion Sm H 0) = rows W0
  /\ columns (linalg_exact_inversion W0 ies_inversion Sm H 0) = columns W0
  /\ rows (linalg_subspace_inversion W0 ies_inversion E Rm Sm H truncation 0)
     = rows W0
  /\ columns (linalg_subspace_inversion W0 ies_inversion E Rm Sm H truncation 0)
     = columns W0.
Proof.
  split; [|split].
  - intros i j. rewrite linalg_exact_inversion_entries. cbv zeta. lra.
  - intros i j. unfold linalg_subspace_inversion, matrix_dgemm, matrix_iget.
    cbn [elems]. lra.
  - destruct (linalg_exact_inversion_shape W0 ies_inversion Sm H 0) as (Hr & Hc).
    repeat split; assumption.
Qed.

Lemma subspace_call_unknown_tag (ies_inversion : Z) (E Rm Sm : matrix_type)
    (t : truncation_type) :
  ies_inversion <> IES_INVERSION_SUBSPACE_EXACT_R ->
  ies_inversion <> IES_INVERSION_SUBSPACE_EE_R ->
  ies_inversion <> IES_INVERSION_SUBSPACE_RE ->
  subspace_lowrank_call ies_inversion E Rm Sm t = NoLowrankCall.
Proof.
  intros H1 H2 H3. unfold subspace_lowrank_call.
  rewrite (proj2 (Z.eqb_neq _ _) H1), (proj2 (Z.eqb_neq _ _) H2),
    (proj2 (Z.eqb_neq _ _) H3).
  reflexivity.
Qed.

(** X8: linalg_subspace_inversion called with a tag other than
    SUBSPACE_EXACT_R, SUBSPACE_EE_R and SUBSPACE_RE (EXACT included) calls
    neither low-rank routine; eig keeps the zeros it was created with and
    the result is (1 - steplength) * W0. *)
Theorem subspace_inversion_unknown_tag (kernel : LinalgKernel)
    (W0 E Rm Sm H : matrix_type) (ies_inversion : Z)
    (truncation : truncation_type) (ies_steplength : R) :
  ies_inversion <> IES_INVERSION_SUBSPACE_EXACT_R ->
  ies_inversion <> IES_INVERSION_SUBSPACE_EE_R ->
  ies_inversion <> IES_INVERSION_SUBSPACE_RE ->
  subspace_lowrank_call ies_inversion E Rm Sm truncation = NoLowrankCall
  /\ forall i j,
       matrix_iget
         (linalg_subspace_inversion W0 ies_inversion E Rm Sm H truncation
            ies_steplength) i j
       = (1 - ies_steplength) * matrix_iget W0 i j.
Proof.
  intros H1 H2 H3.
  pose proof (subspace_call_unknown_tag ies_inversion E Rm Sm truncation
                H1 H2 H3) as Hcall.
  split; [exact Hcall|].
  intros i j. unfold linalg_subspace_inversion. rewrite Hcall.
  unfold matrix_iget, matrix_dgemm, enkf_linalg_genX3, matrix_fill.
  cbn [elems inner_dim op run_lowrank lr_X1 lr_eig rows columns matrix_alloc].
  rewrite Rsum_zero; [lra|].
  intros k _. rewrite Rsum_zero; [lra|].
  intros c _. lra.
Qed.

Lemma subspace_inversion_unknown_tag_witness :
  matrix_iget
    (@linalg_subspace_inversion Samples.unit_kernel
       (mk_matrix 2 2 (fun i j => INR (i + j))) 7 (matrix_alloc 1 2)
       (matrix_alloc 1 1) (mk_matrix 1 2 (fun _ _ => 1))
       (mk_matrix 1 2 (fun _ _ => 1)) (TruncationFraction 1) (1 / 4)) 1 1
  = (1 - 1 / 4) * INR (1 + 1).
Proof.
  refine (proj2 (subspace_inversion_unknown_tag Samples.unit_kernel
                   (mk_matrix 2 2 (fun i j => INR (i + j))) (matrix_alloc 1 2)
                   (matrix_alloc 1 1) (mk_matrix 1 2 (fun _ _ => 1))
                   (mk_matrix 1 2 (fun _ _ => 1)) 7 (TruncationFraction 1)
                   (1 / 4) _ _ _) 1%nat 1%nat);
    discriminate.
Defined.

Lemma wrap_int_small (z : Z) :
  (-2147483648 <= z < 2147483648)%Z -> wrap_int z = z.
Proof.
  intros Hz. unfold wrap_int.
  rewrite Z.mod_small by lia. lia.
Qed.

(** X9: in mode SUBSPACE_EE_R, with 2 <= N <= 46341 active realizations
    (so that (N-1)*(N-1) fits an int), lowrankCinv receives the symmetric
    matrix Cee = E E^T / (N-1)^2, with one row and column per row of E; in
    mode SUBSPACE_RE, lowrankE receives E / sqrt(N-1). *)
Theorem subspace_modes_scale_E (E Rm Sm : matrix_type)
    (truncation : truncation_type) :
  let N := matrix_get_columns Sm in
  (2 <= Z.of_nat N <= 46341)%Z ->
  (exists Cee,
      subspace_lowrank_call IES_INVERSION_SUBSPACE_EE_R E Rm Sm truncation
      = CallLowrankCinv Sm Cee truncation
      /\ rows Cee = rows E /\ columns Cee = rows E
      /\ (forall i j,
            matrix_iget Cee i j
            = Rsum (columns E)
                (fun k => matrix_iget E i k * matrix_iget E j k)
              / ((INR N - 1) * (INR N - 1)))
      /\ (forall i j, matrix_iget Cee i j = matrix_iget Cee j i))
  /\ subspace_lowrank_call IES_INVERSION_SUBSPACE_RE E Rm Sm truncation
     = CallLowrankE Sm (matrix_scale E (1 / sqrt (INR N - 1))) truncation.
Proof.
  intros N HN. split; [|reflexivity].
  eexists. split; [reflexivity|].
  assert (Hwrap :
            IZR (wrap_int ((Z.of_nat N - 1) * (Z.of_nat N - 1)))
            = (INR N - 1) * (INR N - 1)).
  { rewrite wrap_int_small.
    - rewrite mult_IZR, minus_IZR, <- INR_IZR_INZ. reflexivity.
    - assert (Hx : (1 <= Z.of_nat N - 1 <= 46340)%Z) by lia.
      revert Hx. generalize (Z.of_nat N - 1)%Z. intros x Hx. nia. }
  fold N. rewrite Hwrap.
  assert (Hpos : 0 < INR N - 1).
  { assert (H2 : INR 2 <= INR N) by (apply le_INR; lia). simpl in H2. lra. }
  split; [reflexivity|]. split; [reflexivity|].
  unfold matrix_iget, matrix_scale, matrix_alloc_matmul, matrix_matmul,
    matrix_alloc_transpose.
  cbn [elems rows columns]. split.
  - intros i j. field. nra.
  - intros i j. f_equal. apply Rsum_ext. intros k _. lra.
Qed.

Lemma subspace_modes_scale_E_witness :
  subspace_lowrank_call IES_INVERSION_SUBSPACE_RE
    (mk_matrix 1 3 (fun _ j => INR j)) (matrix_alloc 1 1) (matrix_alloc 1 3)
    (TruncationFraction 1)
  = CallLowrankE (matrix_alloc 1 3)
      (matrix_scale (mk_matrix 1 3 (fun _ j => INR j)) (1 / sqrt (INR 3 - 1)))
      (TruncationFraction 1).
Proof.
  refine (proj2 (subspace_modes_scale_E (mk_matrix 1 3 (fun _ j => INR j))
                   (matrix_alloc 1 1) (matrix_alloc 1 3)
                   (TruncationFraction 1) _)).
  cbn. lia.
Defined.

(** ** The solve for S on a first iteration *)

Lemma linalg_solve_S_unfold {kernel : LinalgKernel} (W0 Y Sm : matrix_type) :
  linalg_solve_S W0 Y Sm
  = matrix_transpose
      (matrix_fill (solve_S_YT W0 Y Sm)
         (matrix_dgesvx (solve_S_Omega W0) (solve_S_YT W0 Y Sm)))
      Sm.
Proof.
  reflexivity.
Qed.

Lemma solve_S_Omega_identity (W0 : matrix_type) :
  let N := matrix_get_columns W0 in
  (forall i j, (i < N)%nat -> (j < N)%nat -> matrix_iget W0 i j = 0) ->
  forall i j, (i < N)%nat -> (j < N)%nat ->
    matrix_iget (solve_S_Omega W0) i j = delta i j.
Proof.
  intros N HW i j Hi Hj. unfold solve_S_Omega, matrix_iget. fold N.
  match goal with
  | |- context [iadd_diagonal ?M N] =>
      destruct (iadd_diagonal_spec M N) as (_ & _ & Hval)
  end.
  rewrite Hval.
  unfold matrix_inplace_transpose, matrix_alloc_transpose, matrix_scale,
    matrix_subtract_row_mean, matrix_assign.
  cbn [elems rows columns matrix_alloc].
  unfold matrix_iget in HW. rewrite (HW j i Hj Hi).
  rewrite (Rsum_zero N) by (intros k Hk; apply HW; assumption).
  rewrite (proj2 (Nat.ltb_lt i N) Hi), andb_true_r. unfold delta, Rdiv.
  destruct (i =? j)%nat; lra.
Qed.

Lemma Rsum_delta_l (n i : nat) (f : nat -> R) :
  (i < n)%nat -> Rsum n (fun k => delta i k * f k) = f i.
Proof.
  intros Hi. rewrite <- (Rsum_delta n i f Hi). apply Rsum_ext.
  intros k _. unfold delta. rewrite (Nat.eqb_sym i k). lra.
Qed.

(** X10: on a first iteration (the active W0 is zero, N >= 2) the matrix
    Omega that linalg_solve_S builds is the identity; when matrix_dgesvx
    returns a solution of Omega * X = Y^T, the matrix S it leaves is Y
    itself. *)
Theorem solve_S_first_iteration (kernel : LinalgKernel) (W0 Y Sm : matrix_type) :
  let N := matrix_get_columns W0 in
  let m := matrix_get_rows Sm in
  let Omega := solve_S_Omega W0 in
  let YT := solve_S_YT W0 Y Sm in
  (2 <= N)%nat -> rows W0 = N ->
  (forall i j, (i < N)%nat -> (j < N)%nat -> matrix_iget W0 i j = 0) ->
  rows Y = m -> columns Y = N -> columns Sm = N ->
  (forall i j, (i < N)%nat -> (j < m)%nat ->
     Rsum N (fun k => matrix_iget Omega i k * matrix_dgesvx Omega YT k j)
     = matrix_iget YT i j) ->
  (forall i j, (i < N)%nat -> (j < N)%nat -> matrix_iget Omega i j = delta i j)
  /\ rows (linalg_solve_S W0 Y Sm) = m
  /\ columns (linalg_solve_S W0 Y Sm) = N
  /\ forall i j, (i < m)%nat -> (j < N)%nat ->
       matrix_iget (linalg_solve_S W0 Y Sm) i j = matrix_iget Y i j.
Proof.
  intros N m Omega YT HN HrW HW HrY HcY HcS Hsolve.
  pose proof (solve_S_Omega_identity W0 HW) as HOm. fold N in HOm.
  split; [exact HOm|]. split; [reflexivity|]. split; [exact HcS|].
  intros i j Hi Hj. rewrite linalg_solve_S_unfold.
  specialize (Hsolve j i Hj Hi). fold Omega in HOm.
  rewrite (Rsum_ext N _ (fun k => delta j k * matrix_dgesvx Omega YT k i))
    in Hsolve
    by (intros k Hk; rewrite (HOm j k Hj Hk); reflexivity).
  rewrite (Rsum_delta_l N j _ Hj) in Hsolve.
  unfold matrix_iget, matrix_transpose, matrix_fill. cbn [elems].
  fold Omega. fold YT. rewrite Hsolve. reflexivity.
Qed.

Lemma solve_S_first_iteration_witness :
  matrix_iget
    (@linalg_solve_S Samples.unit_kernel (matrix_alloc 2 2)
       (mk_matrix 1 2 (fun _ j => INR (j + 5))) (matrix_alloc 1 2)) 0 1
  = INR (1 + 5).
Proof.
  assert (Hzero : forall i j, (i < 2)%nat -> (j < 2)%nat ->
                    matrix_iget (matrix_alloc 2 2) i j = 0)
    by reflexivity.
  set (YT := solve_S_YT (matrix_alloc 2 2)
               (mk_matrix 1 2 (fun _ j => INR (j + 5))) (matrix_alloc 1 2)).
  assert (Hsolve : forall i j, (i < 2)%nat -> (j < 1)%nat ->
            Rsum 2 (fun k =>
              matrix_iget (solve_S_Omega (matrix_alloc 2 2)) i k
              * @matrix_dgesvx Samples.unit_kernel
                  (solve_S_Omega (matrix_alloc 2 2)) YT k j)
            = matrix_iget YT i j).
  { intros i j Hi Hj.
    rewrite (Rsum_ext _ _ (fun k => delta i k * elems YT k j)).
    - apply (Rsum_delta_l _ i (fun k => elems YT k j)). exact Hi.
    - intros k Hk.
      rewrite (solve_S_Omega_identity (matrix_alloc 2 2) Hzero i k Hi Hk).
      reflexivity. }
  apply (proj2 (proj2 (proj2
           (solve_S_first_iteration Samples.unit_kernel (matrix_alloc 2 2)
              (mk_matrix 1 2 (fun _ j => INR (j + 5))) (matrix_alloc 1 2)
              (le_n 2) eq_refl Hzero eq_refl eq_refl eq_refl Hsolve)))
           0%nat 1%nat); cbn; lia.
Defined.

(** ** The key/value interface on all names *)

(** Case analysis on whether the name at hand is a given key; the case of
    equality is closed by evaluation. *)
Ltac split_key key :=
  match goal with
  | |- context [String.eqb ?n key] =>
      destruct (String.eqb_spec n key) as [-> | ?]; [cbn; repeat split|]
  end.

(** X11: has_var answers true exactly for the names that one of the four
    setters accepts, and no name is accepted by setters of two different
    types. *)
Theorem has_var_iff_some_setter_accepts (data : data_type) (log : log_sink)
    (var_name : string) (i : Z) (x : R) (b : bool) (s : string) :
  let by_int := fst (set_int data var_name i) in
  let by_double := fst (set_double data var_name x) in
  let by_bool := fst (fst (set_bool data log var_name b)) in
  let by_string := fst (set_string data var_name s) in
  has_var data var_name = by_int || by_double || by_bool || by_string
  /\ (by_int && by_double = false) /\ (by_int && by_bool = false)
  /\ (by_int && by_string = false) /\ (by_double && by_bool = false)
  /\ (by_double && by_string = false) /\ (by_bool && by_string = false).
Proof.
  cbv zeta. unfold has_var, set_int, set_double, set_bool, set_string.
  split_key ITER_KEY.
  split_key IES_MAX_STEPLENGTH_KEY.
  split_key IES_MIN_STEPLENGTH_KEY.
  split_key IES_DEC_STEPLENGTH_KEY.
  split_key IES_INVERSION_KEY.
  split_key IES_LOGFILE_KEY.
  split_key IES_DEBUG_KEY.
  split_key IES_AAPROJECTION_KEY.
  split_key ENKF_TRUNCATION_KEY.
  split_key ENKF_SUBSPACE_DIMENSION_KEY.
  cbn. repeat split.
Qed.

Ltac reject_key key :=
  match goal with
  | |- context [String.eqb ?n key] =>
      destruct (String.eqb_spec n key) as [-> | ?];
      [cbn; intros; discriminate|]
  end.

(** X12: a name that has_var does not know is inert: get_int and
    get_double answer -1, get_bool false, get_ptr NULL, and each of the four
    setters answers false and leaves the state (and the log) as it was. *)
Theorem unknown_name_is_inert (data : data_type) (log : log_sink)
    (var_name : string) (i : Z) (x : R) (b : bool) (s : string) :
  has_var data var_name = false ->
  get_int data var_name = (-1)%Z
  /\ get_double data var_name = -1
  /\ get_bool data var_name = false
  /\ get_ptr data var_name = None
  /\ set_int data var_name i = (false, data)
  /\ set_double data var_name x = (false, data)
  /\ set_bool data log var_name b = (false, data, log)
  /\ set_string data var_name s = (false, data).
Proof.
  unfold has_var, get_int, get_double, get_bool, get_ptr, set_int, set_double,
    set_bool, set_string.
  reject_key ITER_KEY.
  reject_key IES_MAX_STEPLENGTH_KEY.
  reject_key IES_MIN_STEPLENGTH_KEY.
  reject_key IES_DEC_STEPLENGTH_KEY.
  reject_key IES_INVERSION_KEY.
  reject_key IES_LOGFILE_KEY.
  reject_key IES_DEBUG_KEY.
  reject_key IES_AAPROJECTION_KEY.
  reject_key ENKF_TRUNCATION_KEY.
  reject_key ENKF_SUBSPACE_DIMENSION_KEY.
  intros _. cbn. repeat split.
Qed.

Lemma unknown_name_is_inert_witness :
  get_int (Samples.sample_data 2) "NO_SUCH_KEY" = (-1)%Z
  /\ set_double (Samples.sample_data 2) "iter" 1
     = (false, Samples.sample_data 2).
Proof.
  split.
  - apply (unknown_name_is_inert (Samples.sample_data 2) [] "NO_SUCH_KEY" 0 0
             false EmptyString eq_refl).
  - apply (unknown_name_is_inert (Samples.sample_data 2) [] "iter" 0 1
             false EmptyString eq_refl).
Defined.

(** X13: a setter that answers false has changed nothing: whenever set_int,
    set_double, set_bool or set_string does not recognise the name, the
    state it returns is the state it was given, and set_bool has logged
    nothing. *)
Theorem rejected_set_changes_nothing (data : data_type) (log : log_sink)
    (var_name : string) (i : Z) (x : R) (b : bool) (s : string) :
  (fst (set_int data var_name i) = false ->
   snd (set_int data var_name i) = data)
  /\ (fst (set_double data var_name x) = false ->
      snd (set_double data var_name x) = data)
  /\ (fst (fst (set_bool data log var_name b)) = false ->
      set_bool data log var_name b = (false, data, log))
  /\ (fst (set_string data var_name s) = false ->
      snd (set_string data var_name s) = data).
Proof.
  unfold set_int, set_double, set_bool, set_string.
  repeat split;
    repeat match goal with
           | |- context [if String.eqb ?n ?k then _ else _] =>
               destruct (String.eqb n k); cbn; try (intros; discriminate)
           end;
    reflexivity.
Qed.

(** X14: IES_DEBUG is known and accepted but never stored: has_var answers
    true and set_bool answers true for it, the state is left as it was, one
    warning with the text "The key IES_DEBUG is ignored" is logged, and
    get_bool answers false for it before and after. *)
Theorem debug_key_accepted_and_ignored (data : data_type) (log : log_sink)
    (value : bool) (show_double : R -> string) :
  has_var data IES_DEBUG_KEY = true
  /\ (exists r,
        set_bool data log IES_DEBUG_KEY value = (true, data, log ++ [r])
        /\ level r = WARNING
        /\ render show_double r = "The key IES_DEBUG is ignored"%string)
  /\ get_bool data IES_DEBUG_KEY = false
  /\ get_bool (snd (fst (set_bool data log IES_DEBUG_KEY value))) IES_DEBUG_KEY
     = false.
Proof.
  split; [reflexivity|]. split; [|split; reflexivity].
  eexists. split; [reflexivity|]. split; reflexivity.
Qed.

(** * Measurement blocks *)

Module MeasDataFacts.

Import MeasData.

Lemma length_vset {A : Type} (l : list A) (i : nat) (v : A) :
  List.length (vset l i v) = List.length l.
Proof.
  revert i. induction l as [|h t IH]; intros [|i]; cbn; try reflexivity.
  now rewrite IH.
Qed.

Lemma nth_vset_eq {A : Type} (l : list A) (i : nat) (v d : A) :
  (i < List.length l)%nat -> nth i (vset l i v) d = v.
Proof.
  revert i. induction l as [|h t IH]; intros [|i] Hi; cbn in *; try lia.
  - reflexivity.
  - apply IH. lia.
Qed.

Lemma nth_vset_neq {A : Type} (l : list A) (i j : nat) (v d : A) :
  i <> j -> nth j (vset l i v) d = nth j l d.
Proof.
  revert i j. induction l as [|h t IH]; intros [|i] [|j] Hij; cbn;
    try reflexivity; try lia.
  apply IH. lia.
Qed.

(** Two cells a + i * M with a < M coincide only when a and i do. *)
Lemma stride_inj (M a a' i i' : nat) :
  (a < M)%nat -> (a' < M)%nat ->
  (a + i * M = a' + i' * M)%nat -> a = a' /\ i = i'.
Proof.
  intros Ha Ha' Heq.
  assert (Hi : i = i').
  { assert (H1 : i = ((a + i * M) / M)%nat)
      by (apply Nat.div_unique with a; lia).
    assert (H2 : i' = ((a' + i' * M) / M)%nat)
      by (apply Nat.div_unique with a'; lia).
    rewrite H1, H2, Heq. reflexivity. }
  subst i'. split; lia.
Qed.

Lemma index_list_loop (mask : list bool) (L n : nat) :
  (n <= L)%nat ->
  let r :=
    fold_left
      (fun (st : list Z * Z) (i : nat) =>
         let '(index_list, active_index) := st in
         if nth i mask false
         then (vset index_list i active_index, (active_index + 1)%Z)
         else (index_list, active_index))
      (seq 0 n) (repeat (-1)%Z L, 0%Z) in
  snd r = Z.of_nat (rank mask n)
  /\ List.length (fst r) = L
  /\ forall i, (i < L)%nat ->
       nth i (fst r) 0%Z
       = if (i <? n)%nat && nth i mask false
         then Z.of_nat (rank mask i) else (-1)%Z.
Proof.
  intros Hn. induction n as [|n IH].
  - cbn. split; [reflexivity|]. split; [apply repeat_length|].
    intros i Hi. apply nth_repeat_lt. exact Hi.
  - rewrite seq_S, fold_left_app. cbn [fold_left Nat.add].
    destruct (fold_left _ (seq 0 n) _) as [l a].
    cbn [fst snd] in IH. destruct IH as (Ha & Hlen & Hval); [lia|].
    subst a. cbn [rank]. unfold bool_vector_iget.
    destruct (nth n mask false) eqn:Hact; cbn [fst snd].
    + split; [lia|]. split; [now rewrite length_vset|].
      intros i Hi. destruct (Nat.eq_dec i n) as [-> | Hne].
      * rewrite nth_vset_eq by lia.
        rewrite (proj2 (Nat.ltb_lt n (S n))) by lia. now rewrite Hact.
      * rewrite nth_vset_neq by lia. rewrite Hval by exact Hi.
        destruct (Nat.ltb_spec i n); destruct (Nat.ltb_spec i (S n));
          try lia; reflexivity.
    + split; [lia|]. split; [exact Hlen|].
      intros i Hi. rewrite Hval by exact Hi.
      destruct (Nat.ltb_spec i n); destruct (Nat.ltb_spec i (S n));
        try lia; try reflexivity.
      assert (i = n) by lia. subst i. now rewrite Hact.
Qed.

Lemma index_list_entry (mask : list bool) (i : nat) :
  (i < List.length mask)%nat ->
  nth i (bool_vector_to_active_index_list mask) 0%Z
  = if nth i mask false then Z.of_nat (rank mask i) else (-1)%Z.
Proof.
  intros Hi. unfold bool_vector_to_active_index_list.
  destruct (index_list_loop mask (List.length mask) (List.length mask)
              (Nat.le_refl _)) as (_ & _ & Hval).
  rewrite Hval by exact Hi.
  now rewrite (proj2 (Nat.ltb_lt _ _) Hi).
Qed.

(** X15: the index map of a block numbers the active ensemble members
    consecutively from zero in the order of the mask and holds -1 for every
    inactive member; it is as long as the mask and the number of an active
    member is below active_ens_size. *)
Theorem index_map_numbers_active_members (obs_key : string)
    (ens_mask : list bool) (obs_size : nat) :
  let block := meas_block_alloc obs_key ens_mask obs_size in
  List.length (index_map block) = List.length ens_mask
  /\ forall iens, (iens < List.length ens_mask)%nat ->
       (nth iens ens_mask false = true ->
        nth iens (index_map block) 0%Z = Z.of_nat (rank ens_mask iens)
        /\ (0 <= nth iens (index_map block) 0 < Z.of_nat (active_ens_size block))%Z)
       /\ (nth iens ens_mask false = false ->
           nth iens (index_map block) 0%Z = (-1)%Z).
Proof.
  intros block. cbn [block meas_block_alloc index_map active_ens_size].
  split.
  - unfold bool_vector_to_active_index_list.
    destruct (index_list_loop ens_mask (List.length ens_mask)
                (List.length ens_mask) (Nat.le_refl _)) as (_ & Hlen & _).
    exact Hlen.
  - intros iens Hi. rewrite (index_list_entry ens_mask iens Hi). split.
    + intros Hact. rewrite Hact. split; [reflexivity|].
      pose proof (rank_active_lt_count ens_mask iens Hact). lia.
    + intros Hact. now rewrite Hact.
Qed.

Lemma nth_true_lt (mask : list bool) (i : nat) :
  nth i mask false = true -> (i < List.length mask)%nat.
Proof.
  apply (iget_true_lt mask i).
Qed.

(** The cell of an active member in the data array. *)
Lemma cell_index (b : meas_block_type) (iens iobs : nat) :
  well_formed b -> nth iens (ens_mask b) false = true ->
  (Z.to_nat (nth iens (index_map b) 0%Z) * ens_stride b + iobs * obs_stride b
   = rank (ens_mask b) iens + iobs * (active_ens_size b + 2))%nat
  /\ (rank (ens_mask b) iens < active_ens_size b)%nat.
Proof.
  intros (HN & Hes & Hos & _ & _ & Hmap) Hact.
  rewrite Hmap, (index_list_entry _ _ (nth_true_lt _ _ Hact)), Hact, Hes, Hos.
  rewrite Nat2Z.id. split; [lia|].
  rewrite HN. apply rank_active_lt_count. exact Hact.
Qed.

Lemma cell_in_bounds (N a iobs obs_size : nat) :
  (a < N + 2)%nat -> (iobs < obs_size)%nat ->
  (a + iobs * (N + 2) < (N + 2) * obs_size)%nat.
Proof.
  intros Ha Hi.
  assert (H : ((N + 2) * S iobs <= (N + 2) * obs_size)%nat)
    by (apply Nat.mul_le_mono_l; lia).
  lia.
Qed.

(** X16: on a well-formed block, writing a value for an active member and
    an observation within the block succeeds; reading the same cell gives
    the value back, every other cell reads as before, the observation is
    active afterwards while the flags of the other observations are kept,
    the statistics are marked stale, and the block stays well-formed. *)
Theorem iset_then_iget (b : meas_block_type) (iens iobs : nat) (value : R) :
  well_formed b ->
  nth iens (ens_mask b) false = true ->
  (iobs < obs_size b)%nat ->
  exists b',
    meas_block_iset b iens iobs value = Some b'
    /\ well_formed b'
    /\ meas_block_iget b' iens iobs = Some value
    /\ (forall iens' iobs',
          iens' <> iens \/ iobs' <> iobs ->
          meas_block_iget b' iens' iobs' = meas_block_iget b iens' iobs')
    /\ meas_block_iget_active b' iobs = true
    /\ (forall iobs', iobs' <> iobs ->
          meas_block_iget_active b' iobs' = meas_block_iget_active b iobs')
    /\ stat_calculated b' = false
    /\ (forall iens' iobs' v,
          nth iens' (ens_mask b) false = false ->
          meas_block_iset b' iens' iobs' v = None
          /\ meas_block_iget b' iens' iobs' = None).
Proof.
  intros Hwf Hact Hobs.
  pose proof Hwf as (HN & Hes & Hos & Hlen & Hlena & Hmap).
  destruct (cell_index b iens iobs Hwf Hact) as (Hcell & Hrank).
  unfold meas_block_iset, meas_block_assert_iens_active.
  rewrite Hact. cbn [negb]. rewrite Hcell.
  set (idx := (rank (ens_mask b) iens + iobs * (active_ens_size b + 2))%nat).
  assert (Hidx : (idx < List.length (data b))%nat)
    by (rewrite Hlen; apply cell_in_bounds; lia).
  eexists. split; [reflexivity|].
  assert (Hfields :
            forall bb : meas_block_type,
              bb = (if negb (nth iobs (active (set_data b (vset (data b) idx value))) false)
                    then set_active (set_data b (vset (data b) idx value))
                           (vset (active (set_data b (vset (data b) idx value)))
                              iobs true)
                    else set_data b (vset (data b) idx value)) ->
              data bb = vset (data b) idx value
              /\ ens_mask bb = ens_mask b /\ index_map bb = index_map b
              /\ active_ens_size bb = active_ens_size b
              /\ ens_stride bb = ens_stride b /\ obs_stride bb = obs_stride b
              /\ obs_size bb = obs_size b
              /\ nth iobs (active bb) false = true
              /\ List.length (active bb) = List.length (active b)
              /\ forall iobs', iobs' <> iobs ->
                   nth iobs' (active bb) false = nth iobs' (active b) false).
  { intros bb ->. cbn [set_data active].
    destruct (nth iobs (active b) false) eqn:Hflag; cbn [negb];
      cbn [set_active set_data data ens_mask index_map active_ens_size
             ens_stride obs_stride obs_size active].
    - repeat split; try assumption; reflexivity.
    - repeat split.
      + apply nth_vset_eq. lia.
      + apply length_vset.
      + intros iobs' Hne. apply nth_vset_neq. lia. }
  match goal with
  | |- context [set_stat_calculated ?bb false] =>
      destruct (Hfields bb eq_refl)
        as (Hd & Hm & Him & Hn & Hs1 & Hs2 & Ho & Ha1 & Ha2 & Ha3);
      generalize dependent bb
  end.
  intros bb _ Hd Hm Him Hn Hs1 Hs2 Ho Ha1 Ha2 Ha3.
  assert (Hwf' : well_formed (set_stat_calculated bb false)).
  { unfold well_formed.
    cbn [set_stat_calculated active_ens_size ens_mask ens_stride obs_stride
           data obs_size active index_map].
    rewrite Hd, Hm, Him, Hn, Hs1, Hs2, Ho, Ha2, length_vset.
    repeat split; assumption. }
  split; [exact Hwf'|]. split; [|split; [|split; [|split; [|split]]]].
  - unfold meas_block_iget, meas_block_assert_iens_active.
    cbn [set_stat_calculated ens_mask index_map ens_stride obs_stride data].
    rewrite Hm, Hact, Him, Hs1, Hs2. cbn [negb]. rewrite Hcell, Hd.
    f_equal. apply nth_vset_eq. exact Hidx.
  - intros iens' iobs' Hne.
    unfold meas_block_iget, meas_block_assert_iens_active.
    cbn [set_stat_calculated ens_mask index_map ens_stride obs_stride data].
    rewrite Hm, Him, Hs1, Hs2.
    destruct (nth iens' (ens_mask b) false) eqn:Hact'; cbn [negb];
      [|reflexivity].
    destruct (cell_index b iens' iobs' Hwf Hact') as (Hcell' & Hrank').
    rewrite Hcell', Hd. f_equal. apply nth_vset_neq. unfold idx.
    intros Heq.
    destruct (stride_inj (active_ens_size b + 2) (rank (ens_mask b) iens)
                (rank (ens_mask b) iens') iobs iobs') as (Hr & Hi);
      [lia | lia | exact Heq |].
    destruct Hne as [Hne | Hne]; [|lia].
    apply Hne.
    apply (rank_inj (ens_mask b)); [exact Hact' | exact Hact | now symmetry].
  - exact Ha1.
  - intros iobs' Hne. apply Ha3. exact Hne.
  - reflexivity.
  - intros iens' iobs' v Hoff.
    unfold meas_block_iset, meas_block_iget, meas_block_assert_iens_active.
    cbn [set_stat_calculated ens_mask]. rewrite Hm, Hoff. split; reflexivity.
Qed.

Lemma rank_repeat_false (n k : nat) : rank (repeat false n) k = 0%nat.
Proof.
  induction k as [|k IH]; [reflexivity|].
  cbn [rank]. rewrite IH. unfold bool_vector_iget.
  destruct (Nat.lt_ge_cases k n) as [Hlt | Hge].
  - now rewrite nth_repeat_lt.
  - rewrite nth_overflow by (rewrite repeat_length; lia). reflexivity.
Qed.

Lemma alloc_well_formed (key : string) (mask : list bool) (n : nat) :
  well_formed (meas_block_alloc key mask n).
Proof.
  unfold well_formed, meas_block_alloc.
  cbn [active_ens_size ens_mask ens_stride obs_stride data obs_size active
         index_map].
  rewrite !repeat_length. repeat split.
Qed.

Lemma iset_then_iget_witness :
  exists b',
    meas_block_iset (meas_block_alloc "WOPR" [true; false; true] 2) 2 1 5
    = Some b'
    /\ meas_block_iget b' 2 1 = Some 5
    /\ meas_block_iget b' 1 1 = None.
Proof.
  destruct (iset_then_iget (meas_block_alloc "WOPR" [true; false; true] 2)
              2 1 5 (alloc_well_formed _ _ _) eq_refl (le_n 2))
    as (b' & Hset & _ & Hget & _ & _ & _ & _ & Hoff).
  exists b'. split; [exact Hset|]. split; [exact Hget|].
  apply (Hoff 1%nat 1%nat 0). reflexivity.
Defined.

(** ** Ensemble statistics *)

Lemma ens_moments_loop (b : meas_block_type) (iobs n : nat) :
  fold_left
    (fun (st : R * R) (iens : nat) =>
       let '(M1, M2) := st in
       let index := (iens * ens_stride b + iobs * obs_stride b)%nat in
       (M1 + nth index (data b) 0,
        M2 + nth index (data b) 0 * nth index (data b) 0))
    (seq 0 n) (0, 0)
  = (Rsum n (fun a => nth (a * ens_stride b + iobs * obs_stride b) (data b) 0),
     Rsum n (fun a =>
       nth (a * ens_stride b + iobs * obs_stride b) (data b) 0
       * nth (a * ens_stride b + iobs * obs_stride b) (data b) 0)).
Proof.
  induction n as [|n IH]; [reflexivity|].
  rewrite seq_S, fold_left_app, IH. reflexivity.
Qed.

(** (x_1 + ... + x_n)^2 <= n (x_1^2 + ... + x_n^2). *)
Lemma square_of_sum_le (n : nat) (x : nat -> R) :
  Rsum n x * Rsum n x <= INR n * Rsum n (fun a => x a * x a).
Proof.
  induction n as [|n IH]; [cbn; lra|].
  rewrite S_INR. cbn [Rsum].
  set (s := Rsum n x) in *. set (q := Rsum n (fun a => x a * x a)) in *.
  assert (Hq : 0 <= q) by (apply Rsum_nonneg; intros; nra).
  assert (Hn : 0 <= INR n) by apply pos_INR.
  assert (Hcross : 2 * s * x n <= q + INR n * (x n * x n)).
  { destruct (Req_dec (INR n) 0) as [H0 | Hpos].
    - rewrite H0 in IH. assert (s = 0) by nra. nra.
    - assert (Hlt : 0 < INR n) by lra.
      pose proof (Rle_0_sqr (s - INR n * x n)) as Hsq. unfold Rsqr in Hsq.
      assert (Hmul : INR n * (2 * s * x n)
                     <= INR n * (q + INR n * (x n * x n))).
      { replace (INR n * (q + INR n * (x n * x n)))
          with (INR n * q + (INR n * x n) * (INR n * x n)) by ring.
        replace ((s - INR n * x n) * (s - INR n * x n))
          with (s * s - INR n * (2 * s * x n) + (INR n * x n) * (INR n * x n))
          in Hsq by ring.
        lra. }
      apply Rmult_le_reg_l with (INR n); assumption. }
  replace ((s + x n) * (s + x n)) with (s * s + 2 * s * x n + x n * x n)
    by ring.
  replace ((INR n + 1) * (q + x n * x n))
    with (INR n * q + q + INR n * (x n * x n) + x n * x n) by ring.
  lra.
Qed.

Lemma ens_var_nonneg (b : meas_block_type) (iobs : nat) :
  (1 <= active_ens_size b)%nat -> 0 <= ens_var b iobs.
Proof.
  intros HN. unfold ens_var, ens_mean.
  set (N := active_ens_size b) in *.
  pose proof (square_of_sum_le N (ens_cell b iobs)) as Hsq.
  set (s := Rsum N (ens_cell b iobs)) in *.
  set (q := Rsum N (fun a => ens_cell b iobs a * ens_cell b iobs a)) in *.
  assert (Hpos : 0 < INR N) by (apply lt_0_INR; lia).
  replace (q / INR N - s / INR N * (s / INR N))
    with ((INR N * q - s * s) * (/ INR N * / INR N)) by (field; lra).
  apply Rmult_le_pos; [lra|].
  apply Rmult_le_pos; left; apply Rinv_0_lt_compat; exact Hpos.
Qed.

Lemma ens_moments_wf (b b0 : meas_block_type) (iobs : nat) :
  well_formed b0 -> b = set_data b0 (data b) ->
  (forall a, (a < active_ens_size b0)%nat ->
     nth (a + iobs * (active_ens_size b0 + 2)) (data b) 0 = ens_cell b0 iobs a) ->
  ens_moments b iobs
  = (Rsum (active_ens_size b0) (ens_cell b0 iobs),
     Rsum (active_ens_size b0)
       (fun a => ens_cell b0 iobs a * ens_cell b0 iobs a)).
Proof.
  intros (_ & Hes & Hos & _) Hb Hcells.
  unfold ens_moments. rewrite ens_moments_loop.
  rewrite Hb. cbn [set_data active_ens_size ens_stride obs_stride data].
  rewrite Hes, Hos.
  f_equal; apply Rsum_ext; intros a Ha;
    replace (a * 1 + iobs * (active_ens_size b0 + 2))%nat
      with (a + iobs * (active_ens_size b0 + 2))%nat by lia;
    now rewrite (Hcells a Ha).
Qed.

Lemma ens_stats_loop (b : meas_block_type) (k : nat) :
  well_formed b -> (k <= obs_size b)%nat ->
  let N := active_ens_size b in
  let bk := fold_left ens_stats_step (seq 0 k) b in
  bk = set_data b (data bk)
  /\ List.length (data bk) = List.length (data b)
  /\ (forall idx,
        (forall i, (i < k)%nat -> nth i (active b) false = true ->
           idx <> (N + i * (N + 2))%nat /\ idx <> (N + 1 + i * (N + 2))%nat) ->
        nth idx (data bk) 0 = nth idx (data b) 0)
  /\ (forall i, (i < k)%nat -> nth i (active b) false = true ->
        nth (N + i * (N + 2)) (data bk) 0 = ens_mean b i
        /\ nth (N + 1 + i * (N + 2)) (data bk) 0
           = sqrt (Rmax 0 (ens_var b i))).
Proof.
  intros Hwf Hk N. induction k as [|k IH].
  - cbn. split; [now destruct b|]. split; [reflexivity|].
    split; [reflexivity|]. intros i Hi. lia.
  - rewrite seq_S, fold_left_app. cbn [fold_left Nat.add].
    set (bk := fold_left ens_stats_step (seq 0 k) b) in *.
    destruct IH as (Hb & Hlen & Hframe & Hval); [lia|].
    pose proof Hwf as (HN & Hes & Hos & Hdata & Hact & Hmap).
    assert (Hactive : active bk = active b) by (rewrite Hb; reflexivity).
    unfold ens_stats_step. rewrite Hactive.
    destruct (nth k (active b) false) eqn:Hflag.
    + assert (Hcells : forall a, (a < active_ens_size b)%nat ->
                nth (a + k * (active_ens_size b + 2)) (data bk) 0
                = ens_cell b k a).
      { intros a Ha. apply Hframe. intros i Hi _. fold N.
        split; intros Heq.
        - destruct (stride_inj (N + 2) a N k i) as (Ha' & _);
            [unfold N; lia | lia | exact Heq | unfold N in Ha'; lia].
        - destruct (stride_inj (N + 2) a (N + 1) k i) as (Ha' & _);
            [unfold N; lia | lia | exact Heq | unfold N in Ha'; lia]. }
      rewrite (ens_moments_wf bk b k Hwf Hb Hcells).
      assert (Hfld : active_ens_size bk = N /\ ens_stride bk = 1%nat
                     /\ obs_stride bk = (N + 2)%nat)
        by (rewrite Hb; cbn; repeat split; assumption).
      destruct Hfld as (HNk & Hesk & Hosk).
      cbn [set_data data active_ens_size ens_stride obs_stride].
      rewrite HNk, Hesk, Hosk.
      replace ((N + 0) * 1 + k * (N + 2))%nat with (N + k * (N + 2))%nat
        by lia.
      replace ((N + 1) * 1 + k * (N + 2))%nat with (N + 1 + k * (N + 2))%nat
        by lia.
      fold (ens_mean b k). fold (ens_var b k).
      assert (Hm_in : (N + k * (N + 2) < List.length (data bk))%nat)
        by (rewrite Hlen, Hdata; apply cell_in_bounds; unfold N; lia).
      assert (Hs_in : (N + 1 + k * (N + 2) < List.length (data bk))%nat)
        by (rewrite Hlen, Hdata; apply cell_in_bounds; unfold N; lia).
      split; [|split; [|split]].
      * rewrite Hb at 1. reflexivity.
      * now rewrite !length_vset.
      * intros idx Hidx.
        destruct (Hidx k (Nat.lt_succ_diag_r k) Hflag) as (Hn1 & Hn2).
        rewrite !nth_vset_neq by lia.
        apply Hframe. intros i Hi Hai. apply Hidx; [lia | exact Hai].
      * intros i Hi Hai.
        destruct (Nat.eq_dec i k) as [-> | Hne].
        -- split.
           ++ rewrite nth_vset_neq by lia. apply nth_vset_eq. exact Hm_in.
           ++ apply nth_vset_eq. now rewrite length_vset.
        -- assert (Hik : (i < k)%nat) by lia.
           destruct (Hval i Hik Hai) as (Hmean & Hstd).
           assert (Hd1 : (N + i * (N + 2))%nat <> (N + k * (N + 2))%nat).
           { intros Heq.
             destruct (stride_inj (N + 2) N N i k) as (_ & Hc);
               [lia | lia | exact Heq | lia]. }
           assert (Hd2 : (N + i * (N + 2))%nat <> (N + 1 + k * (N + 2))%nat).
           { intros Heq.
             destruct (stride_inj (N + 2) N (N + 1) i k) as (Hc & _);
               [lia | lia | exact Heq | lia]. }
           assert (Hd3 : (N + 1 + i * (N + 2))%nat <> (N + k * (N + 2))%nat).
           { intros Heq.
             destruct (stride_inj (N + 2) (N + 1) N i k) as (Hc & _);
               [lia | lia | exact Heq | lia]. }
           assert (Hd4 : (N + 1 + i * (N + 2))%nat
                         <> (N + 1 + k * (N + 2))%nat).
           { intros Heq.
             destruct (stride_inj (N + 2) (N + 1) (N + 1) i k) as (_ & Hc);
               [lia | lia | exact Heq | lia]. }
           split; rewrite !nth_vset_neq by (intros Heq; symmetry in Heq;
                                            contradiction); assumption.
    + split; [exact Hb|]. split; [exact Hlen|]. split.
      * intros idx Hidx. apply Hframe.
        intros i Hi Hai. apply Hidx; [lia | exact Hai].
      * intros i Hi Hai.
        destruct (Nat.eq_dec i k) as [-> | Hne]; [congruence|].
        apply Hval; [lia | exact Hai].
Qed.

(** X17: on a well-formed block with at least one active member and stale
    statistics, asking for the ensemble mean or standard deviation of an
    active observation computes the statistics: the mean is the average of
    the members' values, the standard deviation is the square root of the
    population variance (which is never negative, so the clamp at zero is
    idle), the flag stat_calculated is raised, and no value or flag that
    meas_block_iget and meas_block_iget_active read is changed. *)
Theorem ens_stats_are_mean_and_std (b : meas_block_type) (iobs : nat) :
  well_formed b ->
  (1 <= active_ens_size b)%nat ->
  stat_calculated b = false ->
  (iobs < obs_size b)%nat ->
  meas_block_iget_active b iobs = true ->
  let b' := meas_block_calculate_ens_stats b in
  meas_block_iget_ens_mean b iobs = (b', ens_mean b iobs)
  /\ meas_block_iget_ens_std b iobs = (b', sqrt (ens_var b iobs))
  /\ 0 <= ens_var b iobs
  /\ meas_block_iget_ens_mean b' iobs = (b', ens_mean b iobs)
  /\ stat_calculated b' = true
  /\ well_formed b'
  /\ (forall iens i, meas_block_iget b' iens i = meas_block_iget b iens i)
  /\ (forall i, meas_block_iget_active b' i = meas_block_iget_active b i).
Proof.
  intros Hwf HN Hstale Hobs Hact b'.
  pose proof Hwf as (HNc & Hes & Hos & Hdata & Hlena & Hmap).
  destruct (ens_stats_loop b (obs_size b) Hwf (Nat.le_refl _))
    as (Hb & Hlen & Hframe & Hval).
  set (bk := fold_left ens_stats_step (seq 0 (obs_size b)) b) in *.
  destruct (Hval iobs Hobs Hact) as (Hmean & Hstd).
  pose proof (ens_var_nonneg b iobs HN) as Hvar.
  rewrite Rmax_right in Hstd by exact Hvar.
  assert (Hb' : b' = set_stat_calculated bk true) by reflexivity.
  assert (Hfld : active_ens_size b' = active_ens_size b
                 /\ ens_stride b' = 1%nat
                 /\ obs_stride b' = (active_ens_size b + 2)%nat
                 /\ data b' = data bk /\ active b' = active b
                 /\ ens_mask b' = ens_mask b /\ index_map b' = index_map b
                 /\ obs_size b' = obs_size b).
  { rewrite Hb', Hb. cbn. repeat split; assumption. }
  destruct Hfld as (F1 & F2 & F3 & F4 & F5 & F6 & F7 & F8).
  assert (Hmean' : meas_block_iget_ens_mean b' iobs = (b', ens_mean b iobs)).
  { unfold meas_block_iget_ens_mean, meas_block_assert_ens_stat.
    replace (stat_calculated b') with true by reflexivity.
    cbn [negb]. rewrite F1, F2, F3, F4.
    replace (active_ens_size b * 1 + iobs * (active_ens_size b + 2))%nat
      with (active_ens_size b + iobs * (active_ens_size b + 2))%nat by lia.
    now rewrite Hmean. }
  split; [|split; [|split; [exact Hvar|split; [exact Hmean'|]]]].
  - unfold meas_block_iget_ens_mean, meas_block_assert_ens_stat.
    rewrite Hstale. cbn [negb]. fold b'. rewrite F1, F2, F3, F4.
    replace (active_ens_size b * 1 + iobs * (active_ens_size b + 2))%nat
      with (active_ens_size b + iobs * (active_ens_size b + 2))%nat by lia.
    now rewrite Hmean.
  - unfold meas_block_iget_ens_std, meas_block_assert_ens_stat.
    rewrite Hstale. cbn [negb]. fold b'. rewrite F1, F2, F3, F4.
    replace ((active_ens_size b + 1) * 1 + iobs * (active_ens_size b + 2))%nat
      with (active_ens_size b + 1 + iobs * (active_ens_size b + 2))%nat by lia.
    now rewrite Hstd.
  - split; [reflexivity|]. split; [|split].
    + unfold well_formed.
      rewrite F1, F2, F3, F4, F5, F6, F7, F8, Hlen.
      repeat split; assumption.
    + intros iens i. unfold meas_block_iget, meas_block_assert_iens_active.
      rewrite F2, F3, F4, F6, F7.
      destruct (nth iens (ens_mask b) false) eqn:Hm; cbn [negb]; [|reflexivity].
      destruct (cell_index b iens i Hwf Hm) as (Hcell & Hrank).
      rewrite Hes, Hos in Hcell |- *. rewrite Hcell. f_equal.
      apply Hframe. intros i' _ _. split; intros Heq.
      * destruct (stride_inj (active_ens_size b + 2) (rank (ens_mask b) iens)
                    (active_ens_size b) i i') as (Hc & _);
          [lia | lia | exact Heq | lia].
      * destruct (stride_inj (active_ens_size b + 2) (rank (ens_mask b) iens)
                    (active_ens_size b + 1) i i') as (Hc & _);
          [lia | lia | exact Heq | lia].
    + intros i. unfold meas_block_iget_active. now rewrite F5.
Qed.

Lemma ens_stats_are_mean_and_std_witness :
  let b :=
    mk_block 2 1 1 4 4 "WOPR" [1; 3; 0; 0] [true] false [true; true]
      (bool_vector_to_active_index_list [true; true]) in
  snd (meas_block_iget_ens_mean b 0) = ens_mean b 0
  /\ snd (meas_block_iget_ens_std b 0) = sqrt (ens_var b 0).
Proof.
  intro b.
  assert (Hwf : well_formed b) by (repeat split).
  destruct (ens_stats_are_mean_and_std b 0 Hwf (le_S 1 1 (le_n 1)) eq_refl
              (le_n 1) eq_refl) as (Hmean & Hstd & _).
  rewrite Hmean, Hstd. split; reflexivity.
Defined.

(** ** The matrix S of all active observations *)

Lemma active_obs_size_loop (b : meas_block_type) (n : nat) :
  fold_left
    (fun obs_size i => if nth i (active b) false then S obs_size else obs_size)
    (seq 0 n) 0%nat
  = rank (active b) n.
Proof.
  induction n as [|n IH]; [reflexivity|].
  rewrite seq_S, fold_left_app, IH. cbn [fold_left Nat.add rank].
  unfold bool_vector_iget. destruct (nth n (active b) false); lia.
Qed.

Lemma active_obs_size_rank (b : meas_block_type) :
  meas_block_get_active_obs_size b = rank (active b) (obs_size b).
Proof.
  apply active_obs_size_loop.
Qed.

Lemma initS_row_loop (b : meas_block_type) (iobs off : nat) (S0 : matrix_type)
    (n : nat) :
  let S1 :=
    fold_left
      (fun Sm iens =>
         let obs_index := (iens * ens_stride b + iobs * obs_stride b)%nat in
         matrix_iset Sm off iens (nth obs_index (data b) 0))
      (seq 0 n) S0 in
  rows S1 = rows S0 /\ columns S1 = columns S0
  /\ forall r c,
       elems S1 r c
       = if (r =? off)%nat && (c <? n)%nat
         then nth (c * ens_stride b + iobs * obs_stride b) (data b) 0
         else elems S0 r c.
Proof.
  induction n as [|n IH].
  - cbn. repeat split. intros r c. now rewrite andb_false_r.
  - rewrite seq_S, fold_left_app. cbn [fold_left Nat.add].
    destruct IH as (Hr & Hc & Hval).
    unfold matrix_iset at 1 3 5. cbn [rows columns elems].
    repeat split; try assumption.
    intros r c. rewrite Hval.
    destruct (Nat.eqb_spec r off) as [Hro | Hro];
      destruct (Nat.eqb_spec c n) as [Hcn | Hcn];
      destruct (Nat.ltb_spec c n); destruct (Nat.ltb_spec c (S n));
      cbn [andb]; try lia; try reflexivity.
    subst c. reflexivity.
Qed.

Lemma initS_row_spec (b : meas_block_type) (iobs off : nat) (S0 : matrix_type) :
  rows (meas_block_initS_row b iobs off S0) = rows S0
  /\ columns (meas_block_initS_row b iobs off S0) = columns S0
  /\ forall r c,
       elems (meas_block_initS_row b iobs off S0) r c
       = if (r =? off)%nat && (c <? active_ens_size b)%nat
         then nth (c * ens_stride b + iobs * obs_stride b) (data b) 0
         else elems S0 r c.
Proof.
  exact (initS_row_loop b iobs off S0 (active_ens_size b)).
Qed.

Lemma initS_loop (b : meas_block_type) (S0 : matrix_type) (off0 k : nat) :
  ens_stride b = 1%nat -> obs_stride b = (active_ens_size b + 2)%nat ->
  let r :=
    fold_left
      (fun (st : matrix_type * nat) (iobs : nat) =>
         let '(Sm, obs_offset) := st in
         if nth iobs (active b) false
         then (meas_block_initS_row b iobs obs_offset Sm, S obs_offset)
         else (Sm, obs_offset))
      (seq 0 k) (S0, off0) in
  snd r = (off0 + rank (active b) k)%nat
  /\ rows (fst r) = rows S0 /\ columns (fst r) = columns S0
  /\ (forall i c, (i < k)%nat -> nth i (active b) false = true ->
        (c < active_ens_size b)%nat ->
        elems (fst r) (off0 + rank (active b) i) c = ens_cell b i c)
  /\ (forall r0 c, (r0 < off0)%nat \/ (off0 + rank (active b) k <= r0)%nat ->
        elems (fst r) r0 c = elems S0 r0 c).
Proof.
  intros Hes Hos. induction k as [|k IH].
  - cbn. split; [lia|]. repeat split. intros i c Hi. lia.
  - rewrite seq_S, fold_left_app. cbn [fold_left Nat.add].
    destruct (fold_left _ (seq 0 k) (S0, off0)) as [Sk offk].
    cbn [fst snd] in IH. destruct IH as (Hoff & Hr & Hc & Hval & Hframe).
    subst offk. cbn [rank]. unfold bool_vector_iget.
    destruct (nth k (active b) false) eqn:Hact; cbn [fst snd].
    + destruct (initS_row_spec b k (off0 + rank (active b) k) Sk)
        as (Hr' & Hc' & Hval').
      split; [lia|]. split; [congruence|]. split; [congruence|]. split.
      * intros i c Hi Hai Hcn. rewrite Hval'.
        destruct (Nat.eq_dec i k) as [-> | Hne].
        -- rewrite Nat.eqb_refl, (proj2 (Nat.ltb_lt _ _) Hcn). cbn [andb].
           unfold ens_cell. rewrite Hes, Hos. f_equal. lia.
        -- assert (Hlt : (rank (active b) i < rank (active b) k)%nat)
             by (apply rank_lt; [lia | exact Hai]).
           replace (off0 + rank (active b) i =? off0 + rank (active b) k)%nat
             with false by (symmetry; apply Nat.eqb_neq; lia).
           cbn [andb]. apply Hval; [lia | exact Hai | exact Hcn].
      * intros r0 c Hr0. rewrite Hval'.
        replace (r0 =? off0 + rank (active b) k)%nat with false
          by (symmetry; apply Nat.eqb_neq; lia).
        cbn [andb]. apply Hframe. lia.
    + split; [lia|]. split; [exact Hr|]. split; [exact Hc|]. split.
      * intros i c Hi Hai Hcn.
        destruct (Nat.eq_dec i k) as [-> | Hne]; [congruence|].
        apply Hval; [lia | exact Hai | exact Hcn].
      * intros r0 c Hr0. apply Hframe. lia.
Qed.

Lemma initS_spec (b : meas_block_type) (S0 : matrix_type) (off0 : nat) :
  ens_stride b = 1%nat -> obs_stride b = (active_ens_size b + 2)%nat ->
  let r := meas_block_initS b S0 off0 in
  snd r = (off0 + meas_block_get_active_obs_size b)%nat
  /\ rows (fst r) = rows S0 /\ columns (fst r) = columns S0
  /\ (forall i c, (i < obs_size b)%nat -> nth i (active b) false = true ->
        (c < active_ens_size b)%nat ->
        elems (fst r) (off0 + rank (active b) i) c = ens_cell b i c)
  /\ (forall r0 c,
        (r0 < off0)%nat \/ (off0 + meas_block_get_active_obs_size b <= r0)%nat ->
        elems (fst r) r0 c = elems S0 r0 c).
Proof.
  intros Hes Hos. rewrite active_obs_size_rank.
  apply (initS_loop b S0 off0 (obs_size b) Hes Hos).
Qed.

Lemma active_obs_size_sum (blocks : list meas_block_type) (acc : nat) :
  fold_left
    (fun obs_size meas_block =>
       (obs_size + meas_block_get_active_obs_size meas_block)%nat)
    blocks acc
  = (acc + obs_offset_of blocks (List.length blocks))%nat.
Proof.
  revert acc. induction blocks as [|blk rest IH]; intros acc; cbn; [lia|].
  rewrite IH. lia.
Qed.

Lemma obs_offset_of_block (blocks : list meas_block_type) (n : nat)
    (blk : meas_block_type) :
  nth_error blocks n = Some blk ->
  (obs_offset_of blocks n + meas_block_get_active_obs_size blk
   <= obs_offset_of blocks (List.length blocks))%nat.
Proof.
  revert n. induction blocks as [|b0 rest IH]; intros [|n] Hn; cbn in *;
    try discriminate.
  - injection Hn as ->. lia.
  - specialize (IH n Hn). lia.
Qed.

Lemma makeS_loop (N : nat) (blocks : list meas_block_type) :
  (forall blk, In blk blocks ->
     ens_stride blk = 1%nat /\ obs_stride blk = (N + 2)%nat
     /\ active_ens_size blk = N) ->
  forall (S0 : matrix_type) (off0 : nat),
    let r := fold_left makeS_step blocks (S0, off0) in
    snd r = (off0 + obs_offset_of blocks (List.length blocks))%nat
    /\ rows (fst r) = rows S0 /\ columns (fst r) = columns S0
    /\ (forall n blk i c,
          nth_error blocks n = Some blk ->
          (i < obs_size blk)%nat -> nth i (active blk) false = true ->
          (c < N)%nat ->
          elems (fst r) (off0 + obs_offset_of blocks n + rank (active blk) i) c
          = ens_cell blk i c)
    /\ (forall r0 c, (r0 < off0)%nat -> elems (fst r) r0 c = elems S0 r0 c).
Proof.
  induction blocks as [|b0 rest IH]; intros Hall S0 off0.
  - cbn. split; [lia|]. repeat split.
    intros n blk i c Hn. destruct n; discriminate Hn.
  - cbn [fold_left makeS_step List.length].
    destruct (Hall b0 (or_introl eq_refl)) as (Hes & Hos & HN).
    rewrite <- HN in Hos.
    destruct (initS_spec b0 S0 off0 Hes Hos)
      as (Hoff1 & Hr1 & Hc1 & Hval1 & Hframe1).
    destruct (meas_block_initS b0 S0 off0) as [S1 off1].
    cbn [fst snd] in Hoff1, Hr1, Hc1, Hval1, Hframe1.
    destruct (IH (fun blk Hin => Hall blk (or_intror Hin)) S1 off1)
      as (Hoff & Hr & Hc & Hval & Hframe).
    split; [cbn [obs_offset_of]; lia|]. split; [congruence|].
    split; [congruence|]. split.
    + intros n blk i c Hn Hi Hact Hcn.
      destruct n as [|n]; cbn [nth_error obs_offset_of] in *.
      * injection Hn as <-.
        rewrite Nat.add_0_r, Hframe.
        -- apply Hval1; [exact Hi | exact Hact | lia].
        -- rewrite Hoff1, active_obs_size_rank.
           pose proof (rank_lt (active b0) i (obs_size b0) Hi Hact). lia.
      * replace (off0 + (meas_block_get_active_obs_size b0
                         + obs_offset_of rest n) + rank (active blk) i)%nat
          with (off1 + obs_offset_of rest n + rank (active blk) i)%nat by lia.
        apply Hval; assumption.
    + intros r0 c Hr0. rewrite Hframe by lia. apply Hframe1. lia.
Qed.

(** X18: meas_data_makeS stacks the blocks: with every block in the
    layout of meas_block_alloc for the N active members of the store, S has
    one row per active observation and N columns; block n starts at the row
    that counts the active observations of the blocks before it, and the
    row of its active observation iobs (the rank of iobs among the active
    ones) holds the values of the members in the order of their ranks. *)
Theorem makeS_stacks_active_observations (matrix : meas_data_type) :
  (forall blk, In blk (md_data matrix) ->
     well_formed blk /\ active_ens_size blk = md_active_ens_size matrix) ->
  let Sm := meas_data_makeS matrix in
  rows Sm = meas_data_get_active_obs_size matrix
  /\ columns Sm = meas_data_get_active_ens_size matrix
  /\ forall n blk iobs iens,
       meas_data_iget_block matrix n = Some blk ->
       (iobs < meas_block_get_total_obs_size blk)%nat ->
       meas_block_iget_active blk iobs = true ->
       (iens < meas_data_get_active_ens_size matrix)%nat ->
       matrix_iget Sm
         (obs_offset_of (md_data matrix) n + rank (active blk) iobs) iens
       = ens_cell blk iobs iens.
Proof.
  intros Hall Sm.
  set (N := md_active_ens_size matrix).
  assert (Hall' : forall blk, In blk (md_data matrix) ->
            ens_stride blk = 1%nat /\ obs_stride blk = (N + 2)%nat
            /\ active_ens_size blk = N).
  { intros blk Hin. destruct (Hall blk Hin) as ((_ & Hes & Hos & _) & HN).
    fold N in HN. rewrite HN in Hos. repeat split; assumption. }
  set (total := meas_data_get_active_obs_size matrix).
  assert (Htotal : total = obs_offset_of (md_data matrix)
                             (List.length (md_data matrix))).
  { unfold total, meas_data_get_active_obs_size.
    rewrite active_obs_size_sum. lia. }
  destruct (makeS_loop N (md_data matrix) Hall' (matrix_alloc total N) 0)
    as (_ & Hr & Hc & Hval & _).
  unfold Sm, meas_data_makeS, meas_data_get_active_ens_size.
  fold total. fold N. cbn [rows columns matrix_alloc].
  destruct ((0 <? total)%nat && (0 <? N)%nat) eqn:Hguard.
  - split; [exact Hr|]. split; [exact Hc|].
    intros n blk iobs iens Hn Hi Hact Hens. apply (Hval n blk iobs iens);
      assumption.
  - split; [reflexivity|]. split; [reflexivity|].
    intros n blk iobs iens Hn Hi Hact Hens. exfalso.
    unfold meas_data_iget_block in Hn.
    pose proof (obs_offset_of_block _ _ _ Hn) as Hle.
    rewrite active_obs_size_rank in Hle.
    pose proof (rank_lt (active blk) iobs (obs_size blk) Hi Hact) as Hlt.
    apply andb_false_iff in Hguard.
    destruct Hguard as [Hg | Hg]; apply Nat.ltb_ge in Hg; lia.
Qed.

Lemma makeS_stacks_active_observations_witness :
  let b :=
    mk_block 2 1 1 4 4 "WOPR" [1; 3; 0; 0] [true] false [true; true]
      (bool_vector_to_active_index_list [true; true]) in
  let matrix := mk_meas 2 [b] [("WOPR-1"%string, 0%nat)] [true; true] in
  matrix_iget (meas_data_makeS matrix) 0 1 = ens_cell b 0 1.
Proof.
  intros b matrix.
  assert (Hall : forall blk, In blk (md_data matrix) ->
            well_formed blk /\ active_ens_size blk = md_active_ens_size matrix).
  { intros blk [<- | []]. split; [repeat split | reflexivity]. }
  destruct (makeS_stacks_active_observations matrix Hall) as (_ & _ & Hval).
  apply (Hval 0%nat b 0%nat 1%nat); try reflexivity; cbn; lia.
Defined.

(** ** Adding blocks *)

Lemma has_key_after_add (matrix : meas_data_type) (obs_key : string)
    (report_step : Z) (n : nat) :
  hash_has_key (md_blocks (fst (meas_data_add_block matrix obs_key report_step n)))
    (meas_data_alloc_key obs_key report_step) = true.
Proof.
  unfold meas_data_add_block.
  destruct (hash_has_key (md_blocks matrix)
              (meas_data_alloc_key obs_key report_step)) eqn:Hhas;
    cbn [negb fst md_blocks].
  - exact Hhas.
  - cbn. now rewrite String.eqb_refl.
Qed.

(** X19: meas_data_add_block adds at most one block per key and report
    step: a fresh key appends one new, well-formed block with no active
    observation at the end and returns it; adding the same key and report
    step again changes nothing, whatever the size asked for, and returns the
    last block of the store. *)
Theorem add_block_is_idempotent (matrix : meas_data_type) (obs_key : string)
    (report_step : Z) (n n' : nat) :
  let key := meas_data_alloc_key obs_key report_step in
  let r1 := meas_data_add_block matrix obs_key report_step n in
  let r2 := meas_data_add_block (fst r1) obs_key report_step n' in
  fst r2 = fst r1
  /\ snd r2 = (List.length (md_data (fst r1)) - 1)%nat
  /\ (hash_has_key (md_blocks matrix) key = false ->
      md_data (fst r1)
      = md_data matrix ++ [meas_block_alloc obs_key (md_ens_mask matrix) n]
      /\ meas_data_iget_block (fst r1) (snd r1)
         = Some (meas_block_alloc obs_key (md_ens_mask matrix) n)
      /\ snd r2 = snd r1
      /\ well_formed (meas_block_alloc obs_key (md_ens_mask matrix) n)
      /\ meas_block_get_active_obs_size
           (meas_block_alloc obs_key (md_ens_mask matrix) n) = 0%nat)
  /\ (hash_has_key (md_blocks matrix) key = true -> fst r1 = matrix).
Proof.
  intros key r1 r2.
  pose proof (has_key_after_add matrix obs_key report_step n) as Hhas.
  fold r1 in Hhas. fold key in Hhas.
  split; [|split; [|split]].
  - unfold r2, meas_data_add_block. fold key. rewrite Hhas. reflexivity.
  - unfold r2, meas_data_add_block. fold key. rewrite Hhas. reflexivity.
  - intros Hnew.
    assert (Hr1 : r1 = (mk_meas (md_active_ens_size matrix)
                          (md_data matrix
                           ++ [meas_block_alloc obs_key (md_ens_mask matrix) n])
                          ((key, List.length (md_data matrix))
                           :: md_blocks matrix)
                          (md_ens_mask matrix),
                        List.length (md_data matrix))).
    { unfold r1, meas_data_add_block. fold key. rewrite Hnew.
      cbn [negb md_data]. rewrite length_app. cbn [List.length].
      f_equal. lia. }
    split; [now rewrite Hr1|]. split; [|split; [|split]].
    + rewrite Hr1. unfold meas_data_iget_block. cbn [fst snd md_data].
      rewrite nth_error_app2 by lia. now rewrite Nat.sub_diag.
    + unfold r2, meas_data_add_block. fold key. rewrite Hhas.
      cbn [negb snd]. rewrite Hr1. cbn [fst snd md_data].
      rewrite length_app. cbn [List.length]. lia.
    + apply alloc_well_formed.
    + rewrite active_obs_size_rank. cbn [meas_block_alloc active obs_size].
      apply rank_repeat_false.
  - intros Hold. unfold r1, meas_data_add_block. fold key. now rewrite Hold.
Qed.

(** X20: the block meas_data_add_block returns for a key that is already
    present is the last block of the store, not the block of that key: when
    two different fresh keys are added one after the other and the first is
    added again, the call returns the block of the second key. *)
Theorem add_block_again_returns_last_block (matrix : meas_data_type)
    (obs_key1 obs_key2 : string) (step1 step2 : Z) (n1 n2 n3 : nat) :
  let key1 := meas_data_alloc_key obs_key1 step1 in
  let key2 := meas_data_alloc_key obs_key2 step2 in
  hash_has_key (md_blocks matrix) key1 = false ->
  hash_has_key (md_blocks matrix) key2 = false ->
  key1 <> key2 ->
  let r1 := meas_data_add_block matrix obs_key1 step1 n1 in
  let r2 := meas_data_add_block (fst r1) obs_key2 step2 n2 in
  let r3 := meas_data_add_block (fst r2) obs_key1 step1 n3 in
  fst r3 = fst r2
  /\ snd r3 = snd r2
  /\ snd r3 <> snd r1
  /\ meas_data_iget_block (fst r3) (snd r3)
     = Some (meas_block_alloc obs_key2 (md_ens_mask matrix) n2)
  /\ meas_data_iget_block (fst r3) (snd r1)
     = Some (meas_block_alloc obs_key1 (md_ens_mask matrix) n1).
Proof.
  intros key1 key2 H1 H2 Hne r1 r2 r3.
  assert (Hr1 : r1 = (mk_meas (md_active_ens_size matrix)
                        (md_data matrix
                         ++ [meas_block_alloc obs_key1 (md_ens_mask matrix) n1])
                        ((key1, List.length (md_data matrix))
                         :: md_blocks matrix)
                        (md_ens_mask matrix),
                      List.length (md_data matrix))).
  { unfold r1, meas_data_add_block. fold key1. rewrite H1.
    cbn [negb md_data]. rewrite length_app. cbn [List.length].
    f_equal. lia. }
  assert (Hr2 : r2 = (mk_meas (md_active_ens_size matrix)
                        ((md_data matrix
                          ++ [meas_block_alloc obs_key1 (md_ens_mask matrix) n1])
                         ++ [meas_block_alloc obs_key2 (md_ens_mask matrix) n2])
                        ((key2, S (List.length (md_data matrix)))
                         :: (key1, List.length (md_data matrix))
                         :: md_blocks matrix)
                        (md_ens_mask matrix),
                      S (List.length (md_data matrix)))).
  { unfold r2, meas_data_add_block. rewrite Hr1. fold key2.
    cbn [fst md_blocks md_data md_active_ens_size md_ens_mask hash_has_key
           existsb].
    rewrite (proj2 (String.eqb_neq key1 key2) Hne).
    unfold hash_has_key in H2. rewrite H2. cbn [orb negb].
    cbn [md_data]. rewrite !length_app. cbn [List.length].
    rewrite !Nat.add_1_r. cbn [Nat.sub]. reflexivity. }
  assert (Hr3 : r3 = r2).
  { unfold r3, meas_data_add_block. fold key1. rewrite Hr2.
    cbn [fst md_blocks md_data hash_has_key existsb].
    rewrite String.eqb_refl, orb_true_r. cbn [negb orb].
    cbn [md_data]. rewrite !length_app. cbn [List.length].
    rewrite !Nat.add_1_r. cbn [Nat.sub]. reflexivity. }
  rewrite Hr3. split; [reflexivity|]. split; [reflexivity|].
  rewrite Hr2, Hr1. cbn [fst snd]. split; [lia|].
  unfold meas_data_iget_block. cbn [md_data]. split.
  - rewrite nth_error_app2 by (rewrite length_app; cbn; lia).
    rewrite length_app. cbn [List.length].
    replace (S (List.length (md_data matrix))
             - (List.length (md_data matrix) + 1))%nat with 0%nat by lia.
    reflexivity.
  - rewrite nth_error_app1 by (rewrite length_app; cbn; lia).
    rewrite nth_error_app2 by lia. now rewrite Nat.sub_diag.
Qed.

Lemma add_block_again_returns_last_block_witness :
  let m0 := meas_data_alloc [true; true] in
  let r1 := meas_data_add_block m0 "WOPR" 1 3 in
  let r2 := meas_data_add_block (fst r1) "WWCT" 1 2 in
  let r3 := meas_data_add_block (fst r2) "WOPR" 1 3 in
  meas_data_iget_block (fst r3) (snd r3)
  = Some (meas_block_alloc "WWCT" [true; true] 2).
Proof.
  intros m0 r1 r2 r3.
  assert (Hne : meas_data_alloc_key "WOPR" 1 <> meas_data_alloc_key "WWCT" 1)
    by (cbn; discriminate).
  destruct (add_block_again_returns_last_block m0 "WOPR" "WWCT" 1 1 3 2 3
              eq_refl eq_refl Hne) as (_ & _ & _ & Hlast & _).
  exact Hlast.
Defined.

End MeasDataFacts.

(** * Sizes and formats of GEN_DATA *)

Module GenDataConfigFacts.

Import GenDataConfig.

(** X21: gen_data_config_check_format inverts gen_data_config_format_name
    on each of the formats the code names; a null pointer and every string other than "ASCII" and
    "ASCII_TEMPLATE" give GEN_DATA_UNDEFINED, and a string that is
    recognised is the name of the format it gives. *)
Theorem check_format_inverts_format_name :
  (forall t, gen_data_config_check_format (Some (gen_data_config_format_name t)) = t)
  /\ gen_data_config_check_format None = GEN_DATA_UNDEFINED
  /\ (forall s,
        s <> "ASCII"%string -> s <> "ASCII_TEMPLATE"%string ->
        gen_data_config_check_format (Some s) = GEN_DATA_UNDEFINED)
  /\ (forall s,
        gen_data_config_check_format (Some s) <> GEN_DATA_UNDEFINED ->
        gen_data_config_format_name (gen_data_config_check_format (Some s)) = s).
Proof.
  split; [|split; [|split]].
  - intros []; reflexivity.
  - reflexivity.
  - intros s H1 H2. unfold gen_data_config_check_format.
    now rewrite (proj2 (String.eqb_neq _ _) H1), (proj2 (String.eqb_neq _ _) H2).
  - intros s. unfold gen_data_config_check_format.
    destruct (String.eqb_spec s "ASCII") as [-> | H1]; [reflexivity|].
    destruct (String.eqb_spec s "ASCII_TEMPLATE") as [-> | H2]; [reflexivity|].
    intros Hne. now contradiction Hne.
Qed.

Lemma safe_iget_nat (v : int_vector_type) (j : nat) :
  int_vector_safe_iget v (Z.of_nat j)
  = Some (if (j <? List.length (items v))%nat
          then nth j (items v) 0%Z else default_value v).
Proof.
  unfold int_vector_safe_iget.
  destruct (Z.leb_spec (Z.of_nat (List.length (items v))) (Z.of_nat j));
    destruct (Nat.ltb_spec j (List.length (items v))); try lia.
  - reflexivity.
  - destruct (Z.leb_spec 0 (Z.of_nat j)); [|lia]. now rewrite Nat2Z.id.
Qed.

Lemma nth_extend (l : list Z) (d value : Z) (i j : nat) :
  (List.length l <= i)%nat ->
  nth j (l ++ repeat d (i - List.length l) ++ [value]) 0%Z
  = if (j =? i)%nat then value
    else if (j <? List.length l)%nat then nth j l 0%Z
    else if (j <? i)%nat then d else 0%Z.
Proof.
  intros Hi.
  destruct (Nat.ltb_spec j (List.length l)) as [Hj | Hj].
  - rewrite app_nth1 by lia.
    destruct (Nat.eqb_spec j i); [lia | reflexivity].
  - rewrite app_nth2 by lia.
    destruct (Nat.ltb_spec j i) as [Hji | Hji].
    + rewrite app_nth1 by (rewrite repeat_length; lia).
      rewrite nth_repeat_lt by lia.
      destruct (Nat.eqb_spec j i); [lia | reflexivity].
    + rewrite app_nth2 by (rewrite repeat_length; lia).
      rewrite repeat_length.
      destruct (Nat.eqb_spec j i) as [-> | Hne].
      * now replace (i - List.length l - (i - List.length l))%nat with 0%nat
          by lia.
      * apply nth_overflow. cbn. lia.
Qed.

Lemma iset_then_safe_iget (v : int_vector_type) (i : nat) (value : Z) :
  exists v',
    int_vector_iset v (Z.of_nat i) value = Some v'
    /\ default_value v' = default_value v
    /\ int_vector_safe_iget v' (Z.of_nat i) = Some value
    /\ forall j, j <> i ->
         int_vector_safe_iget v' (Z.of_nat j)
         = int_vector_safe_iget v (Z.of_nat j).
Proof.
  unfold int_vector_iset.
  destruct (Z.ltb_spec (Z.of_nat i) 0); [lia|].
  rewrite Nat2Z.id.
  destruct (Nat.ltb_spec i (List.length (items v))) as [Hin | Hout];
    eexists; (split; [reflexivity|]); (split; [reflexivity|]).
  - split.
    + rewrite safe_iget_nat. cbn [items].
      rewrite MeasDataFacts.length_vset, (proj2 (Nat.ltb_lt _ _) Hin).
      now rewrite MeasDataFacts.nth_vset_eq.
    + intros j Hne. rewrite !safe_iget_nat. cbn [items default_value].
      rewrite MeasDataFacts.length_vset.
      now rewrite MeasDataFacts.nth_vset_neq by lia.
  - assert (Hlen : List.length
                     (items v
                      ++ repeat (default_value v) (i - List.length (items v))
                      ++ [value]) = S i).
    { rewrite !length_app, repeat_length. cbn. lia. }
    split.
    + rewrite safe_iget_nat. cbn [items]. rewrite Hlen.
      rewrite (proj2 (Nat.ltb_lt i (S i))) by lia.
      rewrite nth_extend by exact Hout. now rewrite Nat.eqb_refl.
    + intros j Hne. rewrite !safe_iget_nat. cbn [items default_value].
      rewrite Hlen, nth_extend by exact Hout.
      destruct (Nat.eqb_spec j i); [lia|].
      destruct (Nat.ltb_spec j (S i)); destruct (Nat.ltb_spec j i);
        destruct (Nat.ltb_spec j (List.length (items v)));
        try lia; reflexivity.
Qed.

(** X22: when no size is recorded yet for a report step,
    gen_data_config_assert_size records the size it is given:
    gen_data_config_get_data_size then returns it, asserting the same size
    again changes nothing, asserting any other size aborts, and what is
    known about every other report step is unchanged. *)
Theorem assert_size_records_the_size (config : gen_data_config_type)
    (data_size : Z) (report_step : nat) (unset : Z) :
  (0 <= data_size)%Z ->
  gen_data_config_get_data_size__ config (Z.of_nat report_step) = Returns unset ->
  (unset < 0)%Z ->
  exists config',
    gen_data_config_assert_size config data_size (Z.of_nat report_step)
    = Returns config'
    /\ gen_data_config_get_data_size config' (Z.of_nat report_step)
       = Returns data_size
    /\ gen_data_config_assert_size config' data_size (Z.of_nat report_step)
       = Returns config'
    /\ (forall other,
          other <> data_size ->
          gen_data_config_assert_size config' other (Z.of_nat report_step)
          = Aborts)
    /\ (forall step : nat,
          step <> report_step ->
          gen_data_config_get_data_size__ config' (Z.of_nat step)
          = gen_data_config_get_data_size__ config (Z.of_nat step))
    /\ gen_data_config_get_input_format config'
       = gen_data_config_get_input_format config.
Proof.
  intros Hsize Hcur Hunset.
  unfold gen_data_config_get_data_size__ in Hcur.
  destruct (int_vector_safe_iget (data_size_vector config)
              (Z.of_nat report_step)) as [cur|] eqn:Hget; [|discriminate].
  injection Hcur as ->.
  destruct (iset_then_safe_iget (data_size_vector config) report_step data_size)
    as (v' & Hset & Hdef & Hnew & Hother).
  exists (set_data_size_vector config v').
  assert (Hassert :
            gen_data_config_assert_size config data_size (Z.of_nat report_step)
            = Returns (set_data_size_vector config v')).
  { unfold gen_data_config_assert_size. rewrite Hget.
    rewrite (proj2 (Z.ltb_lt _ _) Hunset), Hset. reflexivity. }
  assert (Hnonneg : (data_size <? 0)%Z = false) by (apply Z.ltb_ge; lia).
  split; [exact Hassert|]. split; [|split; [|split; [|split]]].
  - unfold gen_data_config_get_data_size, gen_data_config_get_data_size__.
    cbn [set_data_size_vector data_size_vector]. now rewrite Hnew, Hnonneg.
  - unfold gen_data_config_assert_size.
    cbn [set_data_size_vector data_size_vector].
    now rewrite Hnew, Hnonneg, Z.eqb_refl.
  - intros other Hne. unfold gen_data_config_assert_size.
    cbn [set_data_size_vector data_size_vector]. rewrite Hnew, Hnonneg.
    now rewrite (proj2 (Z.eqb_neq data_size other)) by congruence.
  - intros step Hne. unfold gen_data_config_get_data_size__.
    cbn [set_data_size_vector data_size_vector]. now rewrite Hother.
  - reflexivity.
Qed.

Lemma assert_size_records_the_size_witness :
  exists config',
    gen_data_config_assert_size (gen_data_config_alloc "GEN") 7 2
    = Returns config'
    /\ gen_data_config_get_data_size config' 2 = Returns 7%Z
    /\ gen_data_config_get_data_size__ config' 1 = Returns (-1)%Z.
Proof.
  destruct (assert_size_records_the_size (gen_data_config_alloc "GEN") 7 2 (-1)
              ltac:(lia) eq_refl ltac:(lia))
    as (config' & Hassert & Hget & _ & _ & Hother & _).
  exists config'. split; [exact Hassert|]. split; [exact Hget|].
  change 1%Z with (Z.of_nat 1). rewrite (Hother 1%nat) by lia. reflexivity.
Defined.

(** X23: gen_data_config_alloc_GEN_DATA_result aborts on the formats
    ASCII_TEMPLATE and GEN_DATA_UNDEFINED; for ASCII it returns a
    configuration that knows no data size: the initial size is 0 and
    gen_data_config_get_data_size raises value_error for every report
    step. *)
Theorem result_config_rejects_template_and_undefined (key : string)
    (input_format : gen_data_file_format_type) :
  (input_format = ASCII_TEMPLATE \/ input_format = GEN_DATA_UNDEFINED ->
   gen_data_config_alloc_GEN_DATA_result key input_format = Aborts)
  /\ exists config,
       gen_data_config_alloc_GEN_DATA_result key ASCII = Returns config
       /\ gen_data_config_get_input_format config = ASCII
       /\ gen_data_config_get_key config = key
       /\ gen_data_config_get_initial_size config = Returns 0%Z
       /\ forall report_step : nat,
            gen_data_config_get_data_size config (Z.of_nat report_step)
            = ValueError "No data has been loaded for report step".
Proof.
  split.
  - intros [-> | ->]; reflexivity.
  - eexists. split; [reflexivity|]. repeat split.
    intros report_step.
    unfold gen_data_config_get_data_size, gen_data_config_get_data_size__.
    rewrite safe_iget_nat. reflexivity.
Qed.

End GenDataConfigFacts.

(** * Printing an update parameter *)

Module AnalysisParameterFacts.

Import AnalysisParameter.

Lemma chars_app (s t : string) :
  list_ascii_of_string (s ++ t) = list_ascii_of_string s ++ list_ascii_of_string t.
Proof.
  induction s as [|c s IH]; cbn; [reflexivity | now rewrite IH].
Qed.

Lemma chars_chop (s : string) :
  list_ascii_of_string (chop s) = removelast (list_ascii_of_string s).
Proof.
  induction s as [|c s IH]; [reflexivity|].
  destruct s as [|c' s']; [reflexivity|].
  cbn [chop list_ascii_of_string removelast] in *. now rewrite IH.
Qed.

Lemma chop_app (s t : string) :
  t <> EmptyString -> chop (s ++ t) = (s ++ chop t)%string.
Proof.
  intros Ht. induction s as [|c s IH]; [reflexivity|].
  cbn [String.append chop]. rewrite IH.
  destruct (s ++ t)%string eqn:Hst; [|reflexivity].
  destruct s; cbn in Hst; [contradiction | discriminate].
Qed.

Lemma string_app_assoc (a b c : string) :
  ((a ++ b) ++ c = a ++ (b ++ c))%string.
Proof.
  induction a as [|x a IH]; cbn; [reflexivity | now rewrite IH].
Qed.

(** Writing at the end of the buffer appends. *)
Lemma write_at_end (b : list ascii) (t : string) :
  stream_write (mk_stream b (List.length b)) t
  = mk_stream (b ++ list_ascii_of_string t)
      (List.length (b ++ list_ascii_of_string t)).
Proof.
  unfold stream_write. cbn [buffer put].
  rewrite firstn_all, skipn_all2 by lia.
  rewrite app_nil_r, length_app. reflexivity.
Qed.

Lemma copy_ints_at_end (b : list ascii) (l : list Z) :
  copy_ints (mk_stream b (List.length b)) l
  = mk_stream (b ++ list_ascii_of_string (spaced l))
      (List.length (b ++ list_ascii_of_string (spaced l))).
Proof.
  revert b. induction l as [|i l IH]; intros b.
  - cbn. now rewrite app_nil_r.
  - cbn [copy_ints fold_left spaced]. rewrite !write_at_end.
    fold (copy_ints
            (mk_stream ((b ++ list_ascii_of_string (show_int i))
                        ++ list_ascii_of_string " ")
               (List.length ((b ++ list_ascii_of_string (show_int i))
                             ++ list_ascii_of_string " "))) l).
    rewrite IH. rewrite !chars_app, <- !app_assoc. reflexivity.
Qed.

(** Writing two characters one place before the end replaces the last
    character and appends one. *)
Lemma write_over_last (b : list ascii) (t : string) :
  b <> [] -> (2 <= String.length t)%nat ->
  buffer (stream_write (seekp_cur (mk_stream b (List.length b)) (-1)) t)
  = removelast b ++ list_ascii_of_string t.
Proof.
  intros Hb Ht. unfold stream_write, seekp_cur. cbn [buffer put].
  assert (Hlen : (1 <= List.length b)%nat)
    by (destruct b; [contradiction | cbn; lia]).
  replace (Z.to_nat (Z.of_nat (List.length b) + -1))
    with (List.length b - 1)%nat by lia.
  assert (Hchars : List.length (list_ascii_of_string t) = String.length t).
  { clear. induction t as [|c t IH]; cbn; [reflexivity | now rewrite IH]. }
  rewrite skipn_all2 by (rewrite Hchars; lia).
  rewrite app_nil_r. f_equal.
  rewrite removelast_firstn_len. f_equal. lia.
Qed.

(** X24: Parameter::to_string steps back over the last character written
    before it closes the list: the text is "Parameter(name='<name>',
    index_list=[" followed by the indices, each with a blank after it, with
    its last character replaced by "])".  For a non-empty index list that
    character is the trailing blank; for an empty one it is the opening
    bracket, and the text reads "Parameter(name='<name>', index_list=])". *)
Theorem to_string_overwrites_last_character (p : parameter_type) :
  to_string p
  = (chop ("Parameter(name='" ++ name p ++ "', index_list=["
           ++ spaced (get_index_list p)) ++ "])")%string
  /\ (get_index_list p = [] ->
      to_string p
      = ("Parameter(name='" ++ name p ++ "', index_list=])")%string)
  /\ (forall l z,
        get_index_list p = l ++ [z] ->
        to_string p
        = ("Parameter(name='" ++ name p ++ "', index_list=["
           ++ spaced l ++ show_int z ++ "])")%string).
Proof.
  assert (Hmain :
            to_string p
            = (chop ("Parameter(name='" ++ name p ++ "', index_list=["
                     ++ spaced (get_index_list p)) ++ "])")%string).
  { unfold to_string, get_index_list.
    change (mk_stream [] 0) with (mk_stream [] (List.length (@nil ascii))).
    rewrite !write_at_end, copy_ints_at_end.
    unfold str. rewrite write_over_last.
    - rewrite app_nil_l.
      rewrite <- !chars_app, <- chars_chop, <- chars_app.
      rewrite string_of_list_ascii_of_string.
      rewrite !string_app_assoc. reflexivity.
    - cbn. discriminate.
    - cbn. lia. }
  assert (Hr : forall s, (s ++ EmptyString)%string = s)
    by (clear; induction s as [|c s IH]; cbn; [reflexivity | now rewrite IH]).
  split; [exact Hmain|]. split.
  - intros Hnil. rewrite Hmain, Hnil. cbn [spaced].
    rewrite Hr, <- !string_app_assoc.
    rewrite chop_app by discriminate. cbn [chop].
    rewrite !string_app_assoc. reflexivity.
  - intros l z Hl. rewrite Hmain, Hl.
    assert (Hsp : spaced (l ++ [z]) = (spaced l ++ show_int z ++ " ")%string).
    { clear. induction l as [|i l IH]; cbn [app spaced].
      - reflexivity.
      - rewrite IH, !string_app_assoc. reflexivity. }
    rewrite Hsp, <- !string_app_assoc.
    rewrite chop_app by discriminate. cbn [chop].
    rewrite Hr, !string_app_assoc. reflexivity.
Qed.

End AnalysisParameterFacts.
